(** * Gemini-CLI-UI: process orchestration, registry and project-name codec

    A shallow embedding of the server-side JavaScript of the repository:
    - [server/cli-config.js]: [normalizeProvider] and the default models,
      [getCliInfo] with the model catalog, [buildSpawnEnv];
    - the project module: [encodeProjectPathToName],
      [decodeProjectNameToPath], the choice of [extractProjectDirectory],
      [getSessions], [deleteSession], [renameProject], [addProjectManually];
    - the CLI module ([server/gemini-cli.js]): [splitCommandArgs],
      [sanitizeCliOutput], [stripOllamaSpinner], [spawnGemini] (prompt,
      image staging, argument vector, the stdout / stderr / close / error
      handlers and the no-output timer) and [abortGeminiSession].

    JavaScript strings are modelled by [string] (a sequence of bytes, the
    UTF-8 encoding of the text); the character classes used by the source
    ([[^\x20-\x7E]], the base64 alphabets) are decided on bytes, and the
    white space of [trim] and [\s] on the UTF-8 encodings of its
    characters. *)

From Stdlib Require Import String Ascii List ZArith Lia Bool Arith DecimalString
  DecimalZ Sorted Permutation.
Import ListNotations.
Local Open Scope string_scope.

(* ================================================================== *)
(** ** JavaScript string primitives used by the source *)

Module JsString.

(** [!s] for a string: only the empty string is falsy. *)
Definition truthy (s : string) : bool :=
  match s with EmptyString => false | String _ _ => true end.

(** [a || b] on strings. *)
Definition or_else (a b : string) : string := if truthy a then a else b.

(** The white-space characters of one byte: TAB, LF, VT, FF, CR and
    SPACE. *)
Definition is_ws (c : ascii) : bool :=
  let n := nat_of_ascii c in
  (((9 <=? n) && (n <=? 13)) || (n =? 32))%nat.

(** The white space of [String.prototype.trim] and of [\s]: the six
    characters above and, by their UTF-8 encodings, U+00A0 (C2 A0),
    U+1680 (E1 9A 80), U+2000 ... U+200A, U+2028, U+2029, U+202F
    (E2 80 80 ... 8A, A8, A9, AF), U+205F (E2 81 9F), U+3000 (E3 80 80)
    and U+FEFF (EF BB BF).  [ws_len s] is the number of bytes of the
    white-space character that [s] begins with, [0] when it begins with
    none. *)
Definition ws_len (s : string) : nat :=
  match s with
  | EmptyString => 0
  | String c r =>
      if is_ws c then 1
      else
        match r with
        | EmptyString => 0
        | String d r' =>
            let a := nat_of_ascii c in
            let b := nat_of_ascii d in
            if ((a =? 194) && (b =? 160))%nat then 2
            else
              match r' with
              | EmptyString => 0
              | String e _ =>
                  let z := nat_of_ascii e in
                  if (((a =? 225) && (b =? 154) && (z =? 128))
                      || ((a =? 226) && (b =? 128)
                          && (((128 <=? z) && (z <=? 138))
                              || (z =? 168) || (z =? 169) || (z =? 175)))
                      || ((a =? 226) && (b =? 129) && (z =? 159))
                      || ((a =? 227) && (b =? 128) && (z =? 128))
                      || ((a =? 239) && (b =? 187) && (z =? 191)))%nat
                  then 3 else 0
              end
        end
  end.

(** [skip] counts the bytes still to be passed of a white-space
    character that has been recognised. *)
Fixpoint trimStart_from (skip : nat) (s : string) : string :=
  match s with
  | EmptyString => EmptyString
  | String _ r =>
      match skip with
      | S k => trimStart_from k r
      | O =>
          match ws_len s with
          | O => s
          | S k => trimStart_from k r
          end
      end
  end.

Definition trimStart (s : string) : string := trimStart_from 0 s.

(** Is [s], after its first [skip] bytes, made of white-space characters
    only? *)
Fixpoint blank_from (skip : nat) (s : string) : bool :=
  match s with
  | EmptyString => true
  | String _ r =>
      match skip with
      | S k => blank_from k r
      | O =>
          match ws_len s with
          | O => false
          | S k => blank_from k r
          end
      end
  end.

Definition blank (s : string) : bool := blank_from 0 s.

(** Removal of the longest suffix whose characters satisfy [f], as
    [s.replace(/[...]+$/, '')] does for a character class. *)
Fixpoint drop_end_while (f : ascii -> bool) (s : string) : string :=
  match s with
  | EmptyString => EmptyString
  | String c r =>
      match drop_end_while f r with
      | EmptyString => if f c then EmptyString else String c EmptyString
      | r' => String c r'
      end
  end.

(** The text is cut where its remainder is white space only. *)
Fixpoint trimEnd (s : string) : string :=
  match s with
  | EmptyString => EmptyString
  | String c r => if blank s then EmptyString else String c (trimEnd r)
  end.

(** Does the last character of [s] satisfy [f]?  ([false] on the empty string.) *)
Fixpoint last_is (f : ascii -> bool) (s : string) : bool :=
  match s with
  | EmptyString => false
  | String c EmptyString => f c
  | String _ r => last_is f r
  end.

Fixpoint all_chars (f : ascii -> bool) (s : string) : bool :=
  match s with
  | EmptyString => true
  | String c r => f c && all_chars f r
  end.

Definition trim (s : string) : string := trimEnd (trimStart s).

(** [String.prototype.toLowerCase] restricted to the ASCII letters. *)
Definition lower_char (c : ascii) : ascii :=
  let n := nat_of_ascii c in
  if ((65 <=? n) && (n <=? 90))%nat then ascii_of_nat (n + 32) else c.

Fixpoint toLowerCase (s : string) : string :=
  match s with
  | EmptyString => EmptyString
  | String c r => String (lower_char c) (toLowerCase r)
  end.

(** [s.includes(sub)]. *)
Fixpoint includes (s sub : string) : bool :=
  prefix sub s ||
  match s with
  | EmptyString => false
  | String _ r => includes r sub
  end.

(** [s.split('\n')]: always at least one element. *)
Definition LF : ascii := ascii_of_nat 10.

Fixpoint split_lf (s : string) : list string :=
  match s with
  | EmptyString => [EmptyString]
  | String c r =>
      if Ascii.eqb c LF then EmptyString :: split_lf r
      else match split_lf r with
           | l :: ls => String c l :: ls
           | [] => [String c EmptyString]
           end
  end.

(** A text made of complete lines: each one followed by a line feed. *)
Fixpoint unlines (lines : list string) : string :=
  match lines with
  | [] => EmptyString
  | l :: rest => l ++ String LF (unlines rest)
  end.

Definition no_lf (s : string) : bool :=
  all_chars (fun c => negb (Ascii.eqb c LF)) s.

(** [xs.join(sep)]. *)
Fixpoint join (sep : string) (xs : list string) : string :=
  match xs with
  | [] => EmptyString
  | [x] => x
  | x :: rest => x ++ sep ++ join sep rest
  end.

(** Decimal rendering of an integer, as [String(n)] and template
    literals do for integral numbers. *)
Definition of_Z (z : Z) : string := NilZero.string_of_int (Z.to_int z).

(** [s.slice(0, -k)]. *)
Definition drop_last (k : nat) (s : string) : string :=
  substring 0 (String.length s - k) s.

End JsString.

(* ================================================================== *)
(** ** server/cli-config.js

    The revision that knows the providers gemini, codex, claude and webllm. *)

Module CliConfig.
Import JsString.

(** The module-level [provider], computed once from [CLI_PROVIDER]:
    [rawProvider = (process.env.CLI_PROVIDER || 'gemini').toLowerCase()]. *)
Definition provider (env_CLI_PROVIDER : string) : string :=
  let rawProvider := toLowerCase (or_else env_CLI_PROVIDER "gemini") in
  if rawProvider =? "codex" then "codex"
  else if rawProvider =? "webllm" then "webllm"
  else if rawProvider =? "claude" then "claude"
  else "gemini".

(** [normalizeProvider(providerOverride)]; an absent override is the empty
    string (both are falsy). *)
Definition normalizeProvider (env_CLI_PROVIDER providerOverride : string) : string :=
  if negb (truthy providerOverride) then provider env_CLI_PROVIDER
  else
    let p := toLowerCase providerOverride in
    if p =? "codex" then "codex"
    else if p =? "claude" then "claude"
    else if p =? "webllm" then "webllm"
    else "gemini".

Definition supported : list string := ["gemini"; "codex"; "claude"; "webllm"].

(** [getCliInfo(providerOverride).defaultModel]:
    [defaultModelByProvider[resolvedProvider] || defaultModelByProvider.gemini]. *)
Definition defaultModel (env_CLI_PROVIDER providerOverride : string) : string :=
  let resolvedProvider := normalizeProvider env_CLI_PROVIDER providerOverride in
  if resolvedProvider =? "gemini" then "gemini-2.5-flash"
  else if resolvedProvider =? "codex" then "gpt-5.1-codex-max"
  else if resolvedProvider =? "claude" then "claude-3-5-sonnet-latest"
  else if resolvedProvider =? "webllm" then "Llama-3.2-1B-Instruct-q4f32_1-MLC"
  else "gemini-2.5-flash".

End CliConfig.

(* ================================================================== *)
(** ** Buffer <-> base64 / base64url text (Node's [Buffer] codec) *)

Module Base64.

(** Six bits, most significant first. *)
Inductive sextet : Type :=
  Sx (b5 b4 b3 b2 b1 b0 : bool).

Definition bit (b : bool) (w : nat) : nat := if b then w else 0.

Definition sextet_val (s : sextet) : nat :=
  let 'Sx b5 b4 b3 b2 b1 b0 := s in
  bit b5 32 + bit b4 16 + bit b3 8 + bit b2 4 + bit b1 2 + bit b0 1.

Definition sextet_of_nat (n : nat) : sextet :=
  Sx (Nat.testbit n 5) (Nat.testbit n 4) (Nat.testbit n 3)
     (Nat.testbit n 2) (Nat.testbit n 1) (Nat.testbit n 0).

Definition alphabet_url : string :=
  "ABCDEFGHIJKLMNOPQRSTUVWXYZabcdefghijklmnopqrstuvwxyz0123456789-_".

Definition char_url (s : sextet) : ascii :=
  match get (sextet_val s) alphabet_url with
  | Some c => c
  | None => "A"%char
  end.

(** The decoder's table: both the standard and the URL-safe alphabet are
    accepted whatever the requested variant. *)
Definition unbase64 (c : ascii) : option sextet :=
  let n := nat_of_ascii c in
  if ((65 <=? n) && (n <=? 90))%nat then Some (sextet_of_nat (n - 65))
  else if ((97 <=? n) && (n <=? 122))%nat then Some (sextet_of_nat (n - 71))
  else if ((48 <=? n) && (n <=? 57))%nat then Some (sextet_of_nat (n + 4))
  else if ((n =? 43) || (n =? 45))%nat then Some (sextet_of_nat 62)
  else if ((n =? 47) || (n =? 95))%nat then Some (sextet_of_nat 63)
  else None.

(** Bytes to sextets: three bytes give four sextets, a remainder of one
    or two bytes is completed with zero bits; no padding is produced. *)
Fixpoint sextets_of_bytes (s : string) : list sextet :=
  match s with
  | EmptyString => []
  | String (Ascii a0 a1 a2 a3 a4 a5 a6 a7) EmptyString =>
      [Sx a7 a6 a5 a4 a3 a2; Sx a1 a0 false false false false]
  | String (Ascii a0 a1 a2 a3 a4 a5 a6 a7)
      (String (Ascii b0 b1 b2 b3 b4 b5 b6 b7) EmptyString) =>
      [Sx a7 a6 a5 a4 a3 a2; Sx a1 a0 b7 b6 b5 b4; Sx b3 b2 b1 b0 false false]
  | String (Ascii a0 a1 a2 a3 a4 a5 a6 a7)
      (String (Ascii b0 b1 b2 b3 b4 b5 b6 b7)
         (String (Ascii c0 c1 c2 c3 c4 c5 c6 c7) rest)) =>
      Sx a7 a6 a5 a4 a3 a2 :: Sx a1 a0 b7 b6 b5 b4
        :: Sx b3 b2 b1 b0 c7 c6 :: Sx c5 c4 c3 c2 c1 c0
        :: sextets_of_bytes rest
  end.

(** Sextets to bytes: a trailing group of three or two sextets yields two
    or one byte, a single trailing sextet yields nothing. *)
Fixpoint bytes_of_sextets (l : list sextet) : string :=
  match l with
  | Sx a7 a6 a5 a4 a3 a2 :: Sx a1 a0 b7 b6 b5 b4
      :: Sx b3 b2 b1 b0 c7 c6 :: Sx c5 c4 c3 c2 c1 c0 :: rest =>
      String (Ascii a0 a1 a2 a3 a4 a5 a6 a7)
        (String (Ascii b0 b1 b2 b3 b4 b5 b6 b7)
           (String (Ascii c0 c1 c2 c3 c4 c5 c6 c7) (bytes_of_sextets rest)))
  | [Sx a7 a6 a5 a4 a3 a2; Sx a1 a0 b7 b6 b5 b4; Sx b3 b2 b1 b0 _ _] =>
      String (Ascii a0 a1 a2 a3 a4 a5 a6 a7)
        (String (Ascii b0 b1 b2 b3 b4 b5 b6 b7) EmptyString)
  | [Sx a7 a6 a5 a4 a3 a2; Sx a1 a0 _ _ _ _] =>
      String (Ascii a0 a1 a2 a3 a4 a5 a6 a7) EmptyString
  | _ => EmptyString
  end.

Fixpoint chars_of_sextets (l : list sextet) : string :=
  match l with
  | [] => EmptyString
  | s :: r => String (char_url s) (chars_of_sextets r)
  end.

(** The text is read up to the first ['=']; characters outside the
    alphabets are skipped. *)
Fixpoint sextets_of_chars (s : string) : list sextet :=
  match s with
  | EmptyString => []
  | String c r =>
      if Ascii.eqb c "="%char then []
      else match unbase64 c with
           | Some x => x :: sextets_of_chars r
           | None => sextets_of_chars r
           end
  end.

(** [Buffer.from(bytes).toString('base64url')]. *)
Definition toString_base64url (bytes : string) : string :=
  chars_of_sextets (sextets_of_bytes bytes).

(** [Buffer.from(text, 'base64url')] and [Buffer.from(text, 'base64')]:
    the same lenient decoder. *)
Definition from_base64 (text : string) : string :=
  bytes_of_sextets (sextets_of_chars text).

End Base64.

(* ================================================================== *)
(** ** The project module: the project-name codec *)

Module Projects.
Import JsString.

Inductive encoding : Type := base64url | base64.

(** [tryDecode(name, encoding)]: [Buffer.from] does not throw on a string
    and a known encoding, so the [catch] is never taken.  The result is the
    decoded byte sequence; [toString('utf8')] of it is empty exactly when
    the bytes are. *)
Definition tryDecode (name : string) (e : encoding) : option string :=
  match e with
  | base64url => Some (Base64.from_base64 name)
  | base64 => Some (Base64.from_base64 name)
  end.

(** [a ?? b]. *)
Definition nullish {A} (a b : option A) : option A :=
  match a with Some x => Some x | None => b end.

Definition is_url_pad (c : ascii) : bool :=
  Ascii.eqb c "_"%char || Ascii.eqb c "-"%char.

Definition is_printable (c : ascii) : bool :=
  let n := nat_of_ascii c in ((32 <=? n) && (n <=? 126))%nat.

(** The low six bits of the byte are 62 or 63. *)
Definition low_six_high (c : ascii) : bool :=
  let 'Ascii _ b1 b2 b3 b4 b5 _ _ := c in b1 && b2 && b3 && b4 && b5.

(** The printable characters of that kind. *)
Definition is_gt_question_tilde (c : ascii) : bool :=
  Ascii.eqb c ">"%char || Ascii.eqb c "?"%char || Ascii.eqb c "~"%char.

(** The paths whose base64url name ends in ['-'] or ['_']: their length is
    a multiple of three and their last character is ['>'], ['?'] or ['~']. *)
Definition name_ends_in_pad (p : string) : bool :=
  (String.length p mod 3 =? 0)%nat && last_is is_gt_question_tilde p.

(** [s.replace(/[^\x20-\x7E]/g, '')].  On the UTF-8 decoding of a byte
    sequence this keeps exactly the bytes in the printable range: every
    byte above 0x7F decodes to a non-ASCII character or to U+FFFD. *)
Fixpoint strip_non_printable (s : string) : string :=
  match s with
  | EmptyString => EmptyString
  | String c r =>
      if is_printable c then String c (strip_non_printable r)
      else strip_non_printable r
  end.

(** [s.replace(/_/g, '+').replace(/-/g, '/')]. *)
Fixpoint legacy_alphabet (s : string) : string :=
  match s with
  | EmptyString => EmptyString
  | String c r =>
      String (if Ascii.eqb c "_"%char then "+"%char
              else if Ascii.eqb c "-"%char then "/"%char else c)
             (legacy_alphabet r)
  end.

(** [path.isAbsolute] (POSIX). *)
Definition isAbsolute (s : string) : bool :=
  match s with
  | String c _ => Ascii.eqb c "/"%char
  | EmptyString => false
  end.

Definition encodeProjectPathToName (absolutePath : string) : string :=
  Base64.toString_base64url absolutePath.

Section Decode.
(** [fsSync.existsSync]. *)
Variable existsSync : string -> bool.

Definition decodeProjectNameToPath (projectName : string) : option string :=
  if negb (truthy projectName) then None
  else
    let base64UrlCandidate := drop_end_while is_url_pad projectName in
    let decoded :=
      nullish (tryDecode base64UrlCandidate base64url)
              (tryDecode projectName base64url) in
    let decoded :=
      match decoded with
      | Some d => if truthy d then Some d
                  else tryDecode (legacy_alphabet projectName) base64
      | None => tryDecode (legacy_alphabet projectName) base64
      end in
    match decoded with
    | None => None
    | Some d =>
        if negb (truthy d) then None
        else
          let decoded := trim (strip_non_printable d) in
          if isAbsolute decoded then
            let direct := decoded in
            let minusOne := drop_last 1 decoded in
            let minusTwo := drop_last 2 decoded in
            if existsSync direct then Some direct
            else if truthy minusOne && existsSync minusOne then Some minusOne
            else if truthy minusTwo && existsSync minusTwo then Some minusTwo
            else Some decoded
          else Some decoded
    end.

(** The outcome of the three [existsSync] probes leaves [p] itself. *)
Definition probes_keep (p : string) : bool :=
  existsSync p
  || (negb (truthy (drop_last 1 p) && existsSync (drop_last 1 p))
      && negb (truthy (drop_last 2 p) && existsSync (drop_last 2 p))).
End Decode.

End Projects.

(* ================================================================== *)
(** ** JavaScript values obtained from [JSON.parse] *)

Module Json.
Import JsString.

#[local] Unset Elimination Schemes.

(** A number is carried as its [String(n)] rendering, which is what the
    source observes of it ([0] and [-0] both render as ["0"]). *)
Inductive json : Type :=
| JNull
| JBool (b : bool)
| JNum (text : string)
| JStr (s : string)
| JArr (items : list json)
| JObj (fields : list (string * json)).

#[local] Set Elimination Schemes.

(** A JavaScript value of the handlers: [None] is [undefined]. *)
Definition value : Type := option json.

Definition truthy_json (v : json) : bool :=
  match v with
  | JNull => false
  | JBool b => b
  | JNum t => negb (t =? "0")
  | JStr s => truthy s
  | JArr _ | JObj _ => true
  end.

Definition truthy_value (v : value) : bool :=
  match v with Some j => truthy_json j | None => false end.

(** [a || b]. *)
Definition or_value (a b : value) : value :=
  if truthy_value a then a else b.

Fixpoint lookup (k : string) (fields : list (string * json)) : value :=
  match fields with
  | [] => None
  | (k', v) :: rest => if k' =? k then Some v else lookup k rest
  end.

(** [v.k] for a [v] that is neither [null] nor [undefined], and for the
    property names the source reads ([type], [thread_id], [item], [text],
    [error], [message]): none of them exists on a primitive or an array. *)
Definition prop (v : json) (k : string) : value :=
  match v with
  | JObj fields => lookup k fields
  | _ => None
  end.

(** [v?.k]. *)
Definition opt_prop (v : value) (k : string) : value :=
  match v with
  | None | Some JNull => None
  | Some j => prop j k
  end.

(** [v === 'text']. *)
Definition is_str (v : value) (text : string) : bool :=
  match v with Some (JStr s) => s =? text | _ => false end.

(** String conversion, as applied by [+] with a string operand. *)
Fixpoint to_string (v : json) : string :=
  match v with
  | JNull => "null"
  | JBool true => "true"
  | JBool false => "false"
  | JNum t => t
  | JStr s => s
  | JArr items =>
      join "," (map (fun x => match x with
                              | JNull => EmptyString
                              | _ => to_string x
                              end) items)
  | JObj _ => "[object Object]"
  end.

End Json.

(* ================================================================== *)
(** ** server/gemini-cli.js: the active-process registry and abort *)

Module Registry.
Import JsString.

Inductive Signal : Type := SIGTERM | SIGKILL.

(** A child-process handle.  [kill_throws] tells whether its [kill]
    method raises (the case the [try]/[catch] blocks provide for). *)
Record ChildProcess : Type := {
  pid : nat;
  kill_throws : bool
}.

(** [activeGeminiProcesses]: a [Map] from registry key to handle, in
    insertion order, keys pairwise distinct. *)
Definition t : Type := list (string * ChildProcess).

Fixpoint get (k : string) (m : t) : option ChildProcess :=
  match m with
  | [] => None
  | (k', v) :: rest => if k' =? k then Some v else get k rest
  end.

Definition has (k : string) (m : t) : bool :=
  match get k m with Some _ => true | None => false end.

(** [Map.prototype.set]: an existing key keeps its position. *)
Fixpoint set (k : string) (v : ChildProcess) (m : t) : t :=
  match m with
  | [] => [(k, v)]
  | (k', v') :: rest =>
      if k' =? k then (k', v) :: rest else (k', v') :: set k v rest
  end.

Fixpoint delete (k : string) (m : t) : t :=
  match m with
  | [] => []
  | (k', v') :: rest =>
      if k' =? k then delete k rest else (k', v') :: delete k rest
  end.

Definition keys (m : t) : list string := map fst m.

(** The loop over [entries()]: the first key that contains the session id
    or is contained in it. *)
Definition matches (sessionId key : string) : bool :=
  includes key sessionId || includes sessionId key.

Fixpoint find_matching (sessionId : string) (m : t)
  : option (string * ChildProcess) :=
  match m with
  | [] => None
  | (key, proc) :: rest =>
      if matches sessionId key then Some (key, proc)
      else find_matching sessionId rest
  end.

(** The handle and key [abortGeminiSession] settles on. *)
Definition resolve (sessionId : string) (m : t)
  : option (string * ChildProcess) :=
  match get sessionId m with
  | Some proc => Some (sessionId, proc)
  | None => find_matching sessionId m
  end.

(** The pending force-kill timer: the closure captures the matched key
    and the handle. *)
Record ForceKill : Type := {
  fk_key : string;
  fk_process : ChildProcess;
  fk_delay : Z
}.

Record AbortResult : Type := {
  returned : bool;
  registry_after : t;
  kill_calls : list (nat * Signal);
  scheduled : option ForceKill
}.

Definition abortGeminiSession (sessionId : string) (m : t) : AbortResult :=
  match resolve sessionId m with
  | Some (processKey, process) =>
      if kill_throws process then
        {| returned := false;
           registry_after := delete processKey m;
           kill_calls := [(pid process, SIGTERM)];
           scheduled := None |}
      else
        {| returned := true;
           registry_after := delete processKey m;
           kill_calls := [(pid process, SIGTERM)];
           scheduled := Some {| fk_key := processKey;
                                fk_process := process;
                                fk_delay := 2000 |} |}
  | None =>
      {| returned := false;
         registry_after := m;
         kill_calls := [];
         scheduled := None |}
  end.

(** The timer callback, run on the registry as it is when the timer
    fires: the [kill] calls it makes. *)
Definition force_kill_callback (fk : ForceKill) (now : t) : list (nat * Signal) :=
  if has (fk_key fk) now then [(pid (fk_process fk), SIGKILL)] else [].

(** What other code does to the registry: [spawnGemini] sets a key at
    spawn and when it rekeys, and deletes on rekey, close and error;
    another abort deletes. *)
Inductive Op : Type :=
| OpSet (k : string) (p : ChildProcess)
| OpDelete (k : string).

Definition apply (o : Op) (m : t) : t :=
  match o with
  | OpSet k p => set k p m
  | OpDelete k => delete k m
  end.

Definition apply_all (ops : list Op) (m : t) : t :=
  fold_left (fun acc o => apply o acc) ops m.

Definition sets_key (k : string) (o : Op) : bool :=
  match o with
  | OpSet k' _ => k' =? k
  | OpDelete _ => false
  end.

End Registry.

(* ================================================================== *)
(** ** server/gemini-cli.js: command line of a turn *)

Module CommandLine.
Import JsString.

(** The tokenizer state of [splitCommandArgs]. *)
Record Lexer : Type := {
  lx_args : list string;
  lx_current : string;
  lx_quote : option ascii;
  lx_escaped : bool
}.

Definition push_char (current : string) (c : ascii) : string :=
  current ++ String c EmptyString.

(** The body of the loop for the character that begins with the byte
    [c]; [white] tells whether [/\s/] matches that character. *)
Definition lex_step (l : Lexer) (c : ascii) (white : bool) : Lexer :=
  if lx_escaped l then
    {| lx_args := lx_args l; lx_current := push_char (lx_current l) c;
       lx_quote := lx_quote l; lx_escaped := false |}
  else if Ascii.eqb c "\"%char
          && negb (match lx_quote l with
                   | Some q => Ascii.eqb q "'"%char
                   | None => false
                   end) then
    {| lx_args := lx_args l; lx_current := lx_current l;
       lx_quote := lx_quote l; lx_escaped := true |}
  else
    match lx_quote l with
    | Some q =>
        if Ascii.eqb c q then
          {| lx_args := lx_args l; lx_current := lx_current l;
             lx_quote := None; lx_escaped := false |}
        else
          {| lx_args := lx_args l; lx_current := push_char (lx_current l) c;
             lx_quote := Some q; lx_escaped := false |}
    | None =>
        if Ascii.eqb c (ascii_of_nat 34) || Ascii.eqb c "'"%char then
          {| lx_args := lx_args l; lx_current := lx_current l;
             lx_quote := Some c; lx_escaped := false |}
        else if white then
          if truthy (lx_current l) then
            {| lx_args := (lx_args l ++ [lx_current l])%list;
               lx_current := EmptyString;
               lx_quote := None; lx_escaped := false |}
          else l
        else
          {| lx_args := lx_args l; lx_current := push_char (lx_current l) c;
             lx_quote := None; lx_escaped := false |}
    end.

(** The loop reaches its white-space test: no escape is pending and no
    quote is open (a white-space character begins with neither a
    backslash nor a quote). *)
Definition separates (l : Lexer) (white : bool) : bool :=
  negb (lx_escaped l)
  && match lx_quote l with None => true | Some _ => false end
  && white.

(** The loop over the characters.  A white-space character of several
    bytes is one character of the source: when it separates, its
    remaining bytes are passed ([skip] counts them); where it is appended,
    its remaining bytes are appended one by one, none of them being
    special. *)
Fixpoint lex (skip : nat) (l : Lexer) (input : string) : Lexer :=
  match input with
  | EmptyString => l
  | String c r =>
      match skip with
      | S k => lex k l r
      | O =>
          let n := ws_len input in
          let white := (0 <? n)%nat in
          lex (if separates l white then n - 1 else 0) (lex_step l c white) r
      end
  end.

Definition splitCommandArgs (input : string) : list string :=
  let l := lex 0 {| lx_args := []; lx_current := EmptyString;
                    lx_quote := None; lx_escaped := false |} input in
  if truthy (lx_current l) then (lx_args l ++ [lx_current l])%list
  else lx_args l.

(** [toolsSettings]: the fields that [spawnGemini] reads. *)
Record ToolsSettings : Type := {
  allowedTools : option (list string);
  skipPermissions : bool
}.

(** [toolsSettings || { allowedTools: [], disallowedTools: [], skipPermissions: false }]. *)
Definition default_settings : ToolsSettings :=
  {| allowedTools := Some []; skipPermissions := false |}.

Definition settings_of (toolsSettings : option ToolsSettings) : ToolsSettings :=
  match toolsSettings with Some s => s | None => default_settings end.

Definition criticalTools : list string :=
  [ "run_shell_command"; "Bash"; "Bash(git log:*)"; "Bash(git diff:*)";
    "Bash(git status:*)"; "write_file"; "read_file"; "search_file_content";
    "save_memory"; "replace"; "Write"; "Read"; "Edit"; "Glob"; "Grep" ].

(** [xs.includes(x)] on an array of strings. *)
Definition mem (x : string) (xs : list string) : bool :=
  existsb (String.eqb x) xs.

(** The [forEach] that pushes each critical tool not yet in the list. *)
Definition add_critical (toolsToAllow : list string) : list string :=
  fold_left (fun acc tool => if mem tool acc then acc else (acc ++ [tool])%list)
            criticalTools toolsToAllow.

(** What the Gemini branch reads besides the settings. *)
Record GeminiFlags : Type := {
  gf_debug : bool;                 (* options.debug *)
  gf_mcp_first_read : bool;        (* hasMcpServers *)
  gf_mcp_second_read : bool;       (* hasGlobalServers || hasProjectServers *)
  gf_geminiConfigPath : string;    (* ~/.gemini.json *)
  gf_model : string                (* options.model; empty when absent *)
}.

Definition mcp_args (g : GeminiFlags) : list string :=
  if gf_mcp_first_read g && gf_mcp_second_read g
  then ["--mcp-config"; gf_geminiConfigPath g] else [].

Definition permission_args (settings : ToolsSettings) : list string :=
  if skipPermissions settings then ["--yolo"]
  else
    let toolsToAllow :=
      add_critical (match allowedTools settings with
                    | Some l => l
                    | None => []
                    end) in
    match toolsToAllow with
    | [] => []
    | _ => "--allowed-tools" :: toolsToAllow
    end.

(** The argument vector of the Gemini branch, before the prompt. *)
Definition gemini_flags (g : GeminiFlags) (settings : ToolsSettings) : list string :=
  ((if gf_debug g then ["--debug"] else [])
   ++ mcp_args g
   ++ ["--model"; or_else (gf_model g) "gemini-2.5-flash"]
   ++ permission_args settings)%list.

(** The prompt is pushed last, when there is one. *)
Definition prompt_args (cliProvider promptToUse : string) : list string :=
  if truthy promptToUse then
    if cliProvider =? "bmad" then splitCommandArgs promptToUse
    else [promptToUse]
  else [].

End CommandLine.

(* ================================================================== *)
(** ** server/gemini-cli.js: cleaning of terminal output *)

Module Sanitize.
Import JsString.

Definition ESC : ascii := ascii_of_nat 27.
Definition BEL : ascii := ascii_of_nat 7.

Definition in_range (lo hi : nat) (c : ascii) : bool :=
  let n := nat_of_ascii c in ((lo <=? n) && (n <=? hi))%nat.

(** [[0-9;?]], [[ -/]], [[@-~]]. *)
Definition is_param (c : ascii) : bool :=
  in_range 48 57 c || Ascii.eqb c ";"%char || Ascii.eqb c "?"%char.
Definition is_intermediate (c : ascii) : bool := in_range 32 47 c.
Definition is_final (c : ascii) : bool := in_range 64 126 c.
Definition is_alnum (c : ascii) : bool :=
  in_range 65 90 c || in_range 97 122 c || in_range 48 57 c.

Fixpoint count_while (f : ascii -> bool) (s : string) : nat :=
  match s with
  | String c r => if f c then S (count_while f r) else 0
  | EmptyString => 0
  end.

Fixpoint drop (n : nat) (s : string) : string :=
  match n, s with
  | S k, String _ r => drop k r
  | _, _ => s
  end.

(** Each matcher receives the text that follows an ESC and returns how
    many of its characters the match covers. *)

(** [\x1b\[[0-9;?]*[ -/]*[@-~]]: the three classes are disjoint, so the
    greedy stars never give a character back. *)
Definition match_csi (s : string) : option nat :=
  match s with
  | String "["%char r =>
      let np := count_while is_param r in
      let ni := count_while is_intermediate (drop np r) in
      match drop (np + ni) r with
      | String c _ => if is_final c then Some (1 + np + ni + 1) else None
      | EmptyString => None
      end
  | _ => None
  end.

(** Offset of the first BEL. *)
Fixpoint first_bel (s : string) : option nat :=
  match s with
  | EmptyString => None
  | String c r =>
      if Ascii.eqb c BEL then Some 0
      else option_map S (first_bel r)
  end.

(** Offset of the last ESC-backslash pair. *)
Fixpoint last_st (s : string) : option nat :=
  match s with
  | EmptyString => None
  | String c r =>
      match last_st r with
      | Some k => Some (S k)
      | None =>
          match r with
          | String d _ =>
              if Ascii.eqb c ESC && Ascii.eqb d "\"%char then Some 0 else None
          | EmptyString => None
          end
      end
  end.

(** [\x1b\][^\x07]*(?:\x07|\x1b\\)]: the star runs to the first BEL when
    there is one; otherwise it backtracks from the end of the text to the
    last ESC-backslash. *)
Definition match_osc (s : string) : option nat :=
  match s with
  | String "]"%char r =>
      match first_bel r with
      | Some b => Some (1 + b + 1)
      | None => option_map (fun j => 1 + j + 2) (last_st r)
      end
  | _ => None
  end.

(** [\x1b[()][A-Za-z0-9]]. *)
Definition match_charset (s : string) : option nat :=
  match s with
  | String c (String d _) =>
      if (Ascii.eqb c "("%char || Ascii.eqb c ")"%char) && is_alnum d
      then Some 2 else None
  | _ => None
  end.

(** [s.replace(/\x1b.../g, '')] for a matcher of the text after ESC:
    [skip] counts the characters of a match still to be dropped. *)
Fixpoint remove_escapes (m : string -> option nat) (skip : nat) (s : string)
  : string :=
  match s with
  | EmptyString => EmptyString
  | String c r =>
      match skip with
      | S k => remove_escapes m k r
      | O =>
          if Ascii.eqb c ESC then
            match m r with
            | Some k => remove_escapes m k r
            | None => String c (remove_escapes m 0 r)
            end
          else String c (remove_escapes m 0 r)
      end
  end.

(** [[\x00-\x08\x0B\x0C\x0E-\x1F\x7F]]. *)
Definition is_control (c : ascii) : bool :=
  in_range 0 8 c || in_range 11 12 c || in_range 14 31 c
  || (nat_of_ascii c =? 127)%nat.

Fixpoint remove_chars (f : ascii -> bool) (s : string) : string :=
  match s with
  | EmptyString => EmptyString
  | String c r => if f c then remove_chars f r else String c (remove_chars f r)
  end.

Definition sanitizeCliOutput (output : string) : string :=
  if negb (truthy output) then EmptyString
  else
    let withoutAnsi :=
      remove_escapes match_charset 0
        (remove_escapes match_osc 0
           (remove_escapes match_csi 0 output)) in
    remove_chars is_control withoutAnsi.

(** The ten braille spinner glyphs, U+280B ... U+280F: in UTF-8 the bytes
    E2 A0 and one of these. *)
Definition spinner_tail : list nat :=
  [139; 153; 185; 184; 188; 180; 166; 167; 135; 143].

Fixpoint stripOllamaSpinner (output : string) : string :=
  match output with
  | EmptyString => EmptyString
  | String a r =>
      match r with
      | String b (String c r') =>
          if ((nat_of_ascii a =? 226) && (nat_of_ascii b =? 160))%nat
             && existsb (Nat.eqb (nat_of_ascii c)) spinner_tail
          then stripOllamaSpinner r'
          else String a (stripOllamaSpinner r)
      | _ => String a (stripOllamaSpinner r)
      end
  end.

End Sanitize.

(* ================================================================== *)
(** ** server/gemini-cli.js: staging of image attachments *)

Module Stage.
Import JsString.

(** The file system, as far as a turn touches it: the paths that exist.
    Its operations succeed; the source ignores their failures. *)
Definition Fs : Type := list string.

Definition exists_path (p : string) (fs : Fs) : bool :=
  existsb (String.eqb p) fs.

Definition add_path (p : string) (fs : Fs) : Fs :=
  if exists_path p fs then fs else (fs ++ [p])%list.

(** [fs.unlink(p)]. *)
Definition unlink (p : string) (fs : Fs) : Fs :=
  filter (fun q => negb (q =? p)) fs.

(** [fs.rm(dir, { recursive: true, force: true })]. *)
Definition rm_rf (dir : string) (fs : Fs) : Fs :=
  filter (fun q => negb ((q =? dir) || prefix (dir ++ "/") q)) fs.

(** [path.join] of a normalised directory and a relative name. *)
Definition path_join (dir name : string) : string :=
  if last_is (Ascii.eqb "/"%char) dir then dir ++ name
  else dir ++ "/" ++ name.

Definition tempDirName (cliProvider : string) : string :=
  if cliProvider =? "codex" then "codex_tmp_images"
  else if cliProvider =? "claude" then "claude_tmp_images"
  else if cliProvider =? "ollama" then "ollama_tmp_images"
  else if cliProvider =? "bmad" then "bmad_tmp_images"
  else "gemini_tmp_images".

Fixpoint take_until (stop : ascii) (s : string) : string :=
  match s with
  | EmptyString => EmptyString
  | String c r => if Ascii.eqb c stop then EmptyString
                  else String c (take_until stop r)
  end.

Fixpoint drop_until (stop : ascii) (s : string) : string :=
  match s with
  | EmptyString => EmptyString
  | String c r => if Ascii.eqb c stop then s else drop_until stop r
  end.

(** [s] without the prefix [p], when it has it. *)
Fixpoint strip_prefix (p s : string) : option string :=
  match p, s with
  | EmptyString, _ => Some s
  | String a p', String b s' => if Ascii.eqb a b then strip_prefix p' s' else None
  | String _ _, EmptyString => None
  end.

(** A line terminator, which [.] does not match: LF, CR, U+2028, U+2029. *)
Fixpoint has_line_terminator (s : string) : bool :=
  match s with
  | EmptyString => false
  | String c r =>
      let n := nat_of_ascii c in
      ((n =? 10) || (n =? 13))%nat
      || match r with
         | String d (String e _) =>
             ((n =? 226) && (nat_of_ascii d =? 128)
              && ((nat_of_ascii e =? 168) || (nat_of_ascii e =? 169)))%nat
         | _ => false
         end
      || has_line_terminator r
  end.

(** [image.data.match(/^data:([^;]+);base64,(.+)$/)]: the mime type and
    the payload. *)
Definition match_data_url (data : string) : option (string * string) :=
  match strip_prefix "data:" data with
  | None => None
  | Some rest =>
      let mimeType := take_until ";"%char rest in
      if negb (truthy mimeType) then None
      else
        match strip_prefix ";base64," (drop_until ";"%char rest) with
        | None => None
        | Some base64Data =>
            if truthy base64Data && negb (has_line_terminator base64Data)
            then Some (mimeType, base64Data) else None
        end
  end.

(** [mimeType.split('/')[1] || 'png']. *)
Definition extension_of (mimeType : string) : string :=
  match drop_until "/"%char mimeType with
  | String _ after => or_else (take_until "/"%char after) "png"
  | EmptyString => "png"
  end.

Record Staged : Type := {
  tempImagePaths : list string;     (* absolute, in order *)
  relativePaths : list string;      (* [path.relative(workingDir, p)] *)
  tempDir : option string;
  fs_after : Fs
}.

(** The loop over [images.entries()]: an entry whose data does not match
    is skipped, its index is still consumed. *)
Fixpoint write_images (dir reldir : string) (index : nat) (images : list string)
         (acc : Staged) : Staged :=
  match images with
  | [] => acc
  | data :: rest =>
      match match_data_url data with
      | None => write_images dir reldir (S index) rest acc
      | Some (mimeType, _) =>
          let filename :=
            "image_" ++ of_Z (Z.of_nat index) ++ "." ++ extension_of mimeType in
          let filepath := path_join dir filename in
          write_images dir reldir (S index) rest
            {| tempImagePaths := (tempImagePaths acc ++ [filepath])%list;
               relativePaths :=
                 (relativePaths acc ++ [(reldir ++ "/" ++ filename)%string])%list;
               tempDir := tempDir acc;
               fs_after := add_path filepath (fs_after acc) |}
      end
  end.

(** The staging block of [spawnGemini]: nothing for BMAD or without
    images; otherwise the directory is made first, then the files. *)
Definition stage (cliProvider workingDir : string) (now : Z)
           (images : list string) (fs : Fs) : Staged :=
  match images with
  | _ :: _ =>
      if cliProvider =? "bmad" then
        {| tempImagePaths := []; relativePaths := []; tempDir := None;
           fs_after := fs |}
      else
        let reldir := tempDirName cliProvider ++ "/" ++ of_Z now in
        let dir := path_join (path_join workingDir (tempDirName cliProvider))
                             (of_Z now) in
        write_images dir reldir 0 images
          {| tempImagePaths := []; relativePaths := []; tempDir := Some dir;
             fs_after :=
               add_path dir
                 (add_path (path_join workingDir (tempDirName cliProvider)) fs) |}
  | [] =>
      {| tempImagePaths := []; relativePaths := []; tempDir := None;
         fs_after := fs |}
  end.

(** The clean-up at the end of the close handler. *)
Definition cleanup (paths : list string) (dir : option string) (fs : Fs) : Fs :=
  match paths with
  | _ :: _ =>
      let fs1 := fold_left (fun acc p => unlink p acc) paths fs in
      match dir with
      | Some d => rm_rf d fs1
      | None => fs1
      end
  | [] => fs
  end.

(** The note appended to the prompt of the providers other than Codex:
    a fixed heading (UTF-8 text of the source) with the number of images,
    then one numbered line per relative path. *)
Fixpoint numbered (i : nat) (paths : list string) : list string :=
  match paths with
  | [] => []
  | p :: rest => (of_Z (Z.of_nat (S i)) ++ ". " ++ p) :: numbered (S i) rest
  end.

End Stage.

(* ================================================================== *)
(** ** server/gemini-cli.js: [spawnGemini] *)

Module Turn.
Import JsString Json Registry CommandLine Sanitize Stage.

Definition NL : string := String LF EmptyString.

(** Messages written to the web socket ([ws.send(JSON.stringify(...))]). *)
Inductive WsMessage : Type :=
| GeminiError (error : json)
| GeminiResponse (content : json)
| SessionCreated (sessionId : string)
| GeminiComplete (exitCode : option Z) (isNewSession : bool).

(** What a turn does to its collaborators, in program order. *)
Inductive Effect : Type :=
| WsSend (m : WsMessage)
| Spawn (command : string) (args : list string) (cwd : string)
| StdinEnd
| Kill (target : nat) (sig : Signal)
| HandlerProcessData (content : json)
| HandlerForceFlush
| HandlerDestroy
| CreateSession (id cwd provider : string)
| AddMessage (id role text : string)
| SetExternalSessionId (id : string) (externalId : json)
| Resolve
| Reject (message : string).

Inductive Settlement : Type :=
| Resolved
| Rejected (message : string).

Definition providerLabel (cliProvider : string) : string :=
  if cliProvider =? "codex" then "Codex"
  else if cliProvider =? "claude" then "Claude"
  else if cliProvider =? "ollama" then "Ollama"
  else if cliProvider =? "bmad" then "BMAD"
  else "Gemini".

Definition sessionPrefix (cliProvider : string) : string :=
  if cliProvider =? "codex" then "codex"
  else if cliProvider =? "claude" then "claude"
  else if cliProvider =? "ollama" then "ollama"
  else if cliProvider =? "bmad" then "bmad"
  else "gemini".

Definition timeoutMs (cliProvider : string) : Z :=
  if cliProvider =? "codex" then 120000
  else if cliProvider =? "ollama" then 120000
  else if cliProvider =? "bmad" then 120000
  else 30000.

(** The fields of [options] that [spawnGemini] reads; an absent string is
    the empty string (the source only tests these for truthiness). *)
Record Options : Type := {
  sessionId : string;
  cwd : string;
  toolsSettings : option ToolsSettings;
  images : list string;            (* the [data] of each image *)
  model : string;
  debug : bool;
  provider : string
}.

(** What the turn obtains from its surroundings when it starts. *)
Record Env : Type := {
  env_CLI_PROVIDER : string;
  externalSessionId : string;      (* sessionManager.getExternalSessionId(sessionId), empty for null *)
  conversationContext : string;    (* sessionManager.buildConversationContext(sessionId), empty for null *)
  workingDir : string;             (* after [fs.access] and its fallback, normalised *)
  process_cwd : string;            (* process.cwd() *)
  mcp_first_read : bool;
  mcp_second_read : bool;
  geminiConfigPath : string;
  cliCommand : string;             (* getCliCommand(cliProvider) *)
  now_stage : Z;                   (* Date.now() when the images are staged *)
  now_spawn : Z;                   (* Date.now() when the process is registered *)
  child : ChildProcess             (* the handle returned by [spawn] *)
}.

Definition construct_prompt (cliProvider command : string) (o : Options) (e : Env)
  : string :=
  if truthy command && truthy (trim command) then
    if truthy (sessionId o) then
      if cliProvider =? "bmad" then command
      else
        let externalSessionId :=
          if cliProvider =? "codex" then externalSessionId e else EmptyString in
        if negb (truthy externalSessionId) then
          let context := conversationContext e in
          if truthy context then context ++ command else command
        else command
    else command
  else EmptyString.

Definition imageNote (staged : Staged) : string :=
  NL ++ NL ++ "[画像を添付しました: "
     ++ of_Z (Z.of_nat (List.length (tempImagePaths staged)))
     ++ "枚の画像があります。以下のパスに保存されています:]" ++ NL
     ++ join NL (numbered 0 (relativePaths staged)).

Definition with_image_note (cliProvider : string) (staged : Staged)
           (promptToUse : string) : string :=
  if negb (cliProvider =? "codex")
     && negb (Nat.eqb (List.length (tempImagePaths staged)) 0)
     && truthy promptToUse
  then promptToUse ++ imageNote staged
  else promptToUse.

Definition provider_args (cliProvider : string) (o : Options) (e : Env)
           (staged : Staged) : list string :=
  let settings := settings_of (toolsSettings o) in
  let modelToUse :=
    or_else (model o) (CliConfig.defaultModel (env_CLI_PROVIDER e) cliProvider) in
  if cliProvider =? "codex" then
    (["exec"; "--skip-git-repo-check"; "--json"]
     ++ (if truthy modelToUse then ["--model"; modelToUse] else [])
     ++ (if skipPermissions settings
         then ["--full-auto"; "--sandbox"; "danger-full-access"]
         else ["--sandbox"; "read-only"])
     ++ (match tempImagePaths staged with
         | [] => []
         | paths => ["--image"; join "," paths]
         end)
     ++ (let externalSessionId :=
           if truthy (sessionId o) then externalSessionId e else EmptyString in
         if truthy externalSessionId then ["resume"; externalSessionId] else []))%list
  else if cliProvider =? "claude" then
    if truthy modelToUse then ["--model"; modelToUse] else []
  else if cliProvider =? "ollama" then ["run"; modelToUse]
  else if cliProvider =? "bmad" then []
  else
    gemini_flags {| gf_debug := debug o;
                    gf_mcp_first_read := mcp_first_read e;
                    gf_mcp_second_read := mcp_second_read e;
                    gf_geminiConfigPath := geminiConfigPath e;
                    gf_model := model o |} settings.

Definition build_args (cliProvider : string) (o : Options) (e : Env)
           (staged : Staged) (promptToUse : string) : list string :=
  (provider_args cliProvider o e staged ++ prompt_args cliProvider promptToUse)%list.

(** The constants of a turn: what the handlers capture and never assign. *)
Record Turn : Type := {
  cliProvider : string;
  command : string;
  t_sessionId : string;
  t_cwd : string;
  t_process_cwd : string;
  processKey : string;
  geminiProcess : ChildProcess;
  staged_paths : list string;      (* geminiProcess.tempImagePaths *)
  staged_dir : option string;      (* geminiProcess.tempDir *)
  deadline : Z                     (* when the no-output timer is due *)
}.

(** [responseHandler] exists unless the provider is Ollama (the socket is
    always supplied). *)
Definition hasHandler (t : Turn) : bool := negb (cliProvider t =? "ollama").

(** The variables the handlers assign, the pending timer, the promise,
    and the two shared stores. *)
Record State : Type := {
  capturedSessionId : string;
  sessionCreatedSent : bool;
  fullResponse : string;
  pendingExternalSessionId : value;
  hasReceivedOutput : bool;
  timerArmed : bool;
  outputBuffer : string;
  codexLineBuffer : string;
  codexStderrBuffer : string;
  settled : option Settlement;
  registry : Registry.t;
  fs : Fs
}.

Definition set_fullResponse (v : string) (s : State) : State :=
  {| capturedSessionId := capturedSessionId s;
     sessionCreatedSent := sessionCreatedSent s;
     fullResponse := v;
     pendingExternalSessionId := pendingExternalSessionId s;
     hasReceivedOutput := hasReceivedOutput s;
     timerArmed := timerArmed s;
     outputBuffer := outputBuffer s;
     codexLineBuffer := codexLineBuffer s;
     codexStderrBuffer := codexStderrBuffer s;
     settled := settled s;
     registry := registry s;
     fs := fs s |}.

Definition set_pending (v : value) (s : State) : State :=
  {| capturedSessionId := capturedSessionId s;
     sessionCreatedSent := sessionCreatedSent s;
     fullResponse := fullResponse s;
     pendingExternalSessionId := v;
     hasReceivedOutput := hasReceivedOutput s;
     timerArmed := timerArmed s;
     outputBuffer := outputBuffer s;
     codexLineBuffer := codexLineBuffer s;
     codexStderrBuffer := codexStderrBuffer s;
     settled := settled s;
     registry := registry s;
     fs := fs s |}.

Definition set_codexLineBuffer (v : string) (s : State) : State :=
  {| capturedSessionId := capturedSessionId s;
     sessionCreatedSent := sessionCreatedSent s;
     fullResponse := fullResponse s;
     pendingExternalSessionId := pendingExternalSessionId s;
     hasReceivedOutput := hasReceivedOutput s;
     timerArmed := timerArmed s;
     outputBuffer := outputBuffer s;
     codexLineBuffer := v;
     codexStderrBuffer := codexStderrBuffer s;
     settled := settled s;
     registry := registry s;
     fs := fs s |}.

Definition set_codexStderrBuffer (v : string) (s : State) : State :=
  {| capturedSessionId := capturedSessionId s;
     sessionCreatedSent := sessionCreatedSent s;
     fullResponse := fullResponse s;
     pendingExternalSessionId := pendingExternalSessionId s;
     hasReceivedOutput := hasReceivedOutput s;
     timerArmed := timerArmed s;
     outputBuffer := outputBuffer s;
     codexLineBuffer := codexLineBuffer s;
     codexStderrBuffer := v;
     settled := settled s;
     registry := registry s;
     fs := fs s |}.

Definition set_timerArmed (v : bool) (s : State) : State :=
  {| capturedSessionId := capturedSessionId s;
     sessionCreatedSent := sessionCreatedSent s;
     fullResponse := fullResponse s;
     pendingExternalSessionId := pendingExternalSessionId s;
     hasReceivedOutput := hasReceivedOutput s;
     timerArmed := v;
     outputBuffer := outputBuffer s;
     codexLineBuffer := codexLineBuffer s;
     codexStderrBuffer := codexStderrBuffer s;
     settled := settled s;
     registry := registry s;
     fs := fs s |}.

Definition set_registry (v : Registry.t) (s : State) : State :=
  {| capturedSessionId := capturedSessionId s;
     sessionCreatedSent := sessionCreatedSent s;
     fullResponse := fullResponse s;
     pendingExternalSessionId := pendingExternalSessionId s;
     hasReceivedOutput := hasReceivedOutput s;
     timerArmed := timerArmed s;
     outputBuffer := outputBuffer s;
     codexLineBuffer := codexLineBuffer s;
     codexStderrBuffer := codexStderrBuffer s;
     settled := settled s;
     registry := v;
     fs := fs s |}.

Definition set_fs (v : Fs) (s : State) : State :=
  {| capturedSessionId := capturedSessionId s;
     sessionCreatedSent := sessionCreatedSent s;
     fullResponse := fullResponse s;
     pendingExternalSessionId := pendingExternalSessionId s;
     hasReceivedOutput := hasReceivedOutput s;
     timerArmed := timerArmed s;
     outputBuffer := outputBuffer s;
     codexLineBuffer := codexLineBuffer s;
     codexStderrBuffer := codexStderrBuffer s;
     settled := settled s;
     registry := registry s;
     fs := v |}.

(** [resolve()] and [reject(e)] only take effect on a pending promise. *)
Definition settle (v : Settlement) (s : State) : State :=
  {| capturedSessionId := capturedSessionId s;
     sessionCreatedSent := sessionCreatedSent s;
     fullResponse := fullResponse s;
     pendingExternalSessionId := pendingExternalSessionId s;
     hasReceivedOutput := hasReceivedOutput s;
     timerArmed := timerArmed s;
     outputBuffer := outputBuffer s;
     codexLineBuffer := codexLineBuffer s;
     codexStderrBuffer := codexStderrBuffer s;
     settled := match settled s with Some r => Some r | None => Some v end;
     registry := registry s;
     fs := fs s |}.

(** The first three statements of the stdout handler. *)
Definition note_output (rawOutput : string) (s : State) : State :=
  {| capturedSessionId := capturedSessionId s;
     sessionCreatedSent := sessionCreatedSent s;
     fullResponse := fullResponse s;
     pendingExternalSessionId := pendingExternalSessionId s;
     hasReceivedOutput := true;
     timerArmed := false;
     outputBuffer := outputBuffer s ++ rawOutput;
     codexLineBuffer := codexLineBuffer s;
     codexStderrBuffer := codexStderrBuffer s;
     settled := settled s;
     registry := registry s;
     fs := fs s |}.

(** The assignments of the new-session block. *)
Definition adopt_session (id : string) (r : Registry.t) (s : State) : State :=
  {| capturedSessionId := id;
     sessionCreatedSent := true;
     fullResponse := fullResponse s;
     pendingExternalSessionId := pendingExternalSessionId s;
     hasReceivedOutput := hasReceivedOutput s;
     timerArmed := timerArmed s;
     outputBuffer := outputBuffer s;
     codexLineBuffer := codexLineBuffer s;
     codexStderrBuffer := codexStderrBuffer s;
     settled := settled s;
     registry := r;
     fs := fs s |}.

(** The part of the state that the parsers of the output never assign. *)
Definition control (s : State)
  : string * bool * bool * bool * option Settlement * Registry.t * Fs :=
  (capturedSessionId s, sessionCreatedSent s, hasReceivedOutput s,
   timerArmed s, settled s, registry s, fs s).

(** Events of the child process, as delivered to the handlers. *)
Inductive Event : Type :=
| Stdout (data : string)
| Stderr (data : string)
| Close (code : option Z)          (* [None] is a [null] exit code *)
| ProcError (message : string).

Definition is_stdout (ev : Event) : bool :=
  match ev with Stdout _ => true | _ => false end.

(** Classes of effects. *)
Definition announces (e : Effect) : bool :=
  match e with WsSend (SessionCreated _) => true | _ => false end.

Definition creates (e : Effect) : bool :=
  match e with CreateSession _ _ _ => true | _ => false end.

Definition writes_store (e : Effect) : bool :=
  match e with
  | CreateSession _ _ _ | AddMessage _ _ _ | SetExternalSessionId _ _ => true
  | _ => false
  end.


(** Neither the creation of a session nor its announcement. *)
Definition quiet (e : Effect) : bool := negb (creates e) && negb (announces e).

Section Handlers.
(** [JSON.parse]: [None] when it throws a [SyntaxError]. *)
Variable JSON_parse : string -> option json.
Variable t : Turn.

(** [fullResponse += (fullResponse ? '\n' : '') + text]. *)
Definition append_response (text : string) (s : State) : State :=
  set_fullResponse
    (fullResponse s ++ (if truthy (fullResponse s) then NL else EmptyString)
                    ++ text) s.

(** A chunk goes to the response handler when there is one. *)
Definition emit (content : json) : Effect :=
  if hasHandler t then HandlerProcessData content
  else WsSend (GeminiResponse content).

Definition is_agent_message (event : json) : bool :=
  is_str (prop event "type") "item.completed"
  && is_str (opt_prop (prop event "item") "type") "agent_message".

(** [if (event.type === 'thread.started' && event.thread_id) ...]. *)
Definition capture_thread (event : json) (s : State) : State * list Effect :=
  match prop event "thread_id" with
  | Some thread_id =>
      if is_str (prop event "type") "thread.started" && truthy_json thread_id then
        (set_pending (Some thread_id) s,
         if truthy (capturedSessionId s)
         then [SetExternalSessionId (capturedSessionId s) thread_id]
         else [])
      else (s, [])
  | None => (s, [])
  end.

(** [if (event.type === 'item.completed' && event.item?.type === 'agent_message') ...]. *)
Definition agent_chunk (event : json) (s : State) : State * list Effect :=
  if is_agent_message event then
    match or_value (opt_prop (prop event "item") "text")
                   (Some (JStr EmptyString)) with
    | Some content =>
        if truthy_json content
        then (append_response (to_string content) s, [emit content])
        else (s, [])
    | None => (s, [])
    end
  else (s, []).

(** [if (event.type === 'turn.failed' || event.type === 'error') ...]. *)
Definition failure_notice (event : json) : list Effect :=
  if is_str (prop event "type") "turn.failed"
     || is_str (prop event "type") "error" then
    match or_value
            (or_value (opt_prop (prop event "error") "message")
                      (prop event "message"))
            (Some (JStr "Codex CLI error")) with
    | Some m => [WsSend (GeminiError m)]
    | None => []
    end
  else [].

(** The body of the loop for one parsed line.  The third component tells
    that the body threw: [event.type] on [null] is a [TypeError]. *)
Definition codex_event (event : json) (s : State)
  : State * list Effect * bool :=
  match event with
  | JNull => (s, [], true)
  | _ =>
      let '(s1, e1) := capture_thread event s in
      let '(s2, e2) := agent_chunk event s1 in
      (s2, (e1 ++ e2 ++ failure_notice event)%list, false)
  end.

(** The loop over the complete lines; it stops where the body throws. *)
Fixpoint codex_lines (lines : list string) (s : State)
  : State * list Effect * bool :=
  match lines with
  | [] => (s, [], false)
  | line :: rest =>
      let trimmed := trim line in
      if negb (truthy trimmed) then codex_lines rest s
      else
        match JSON_parse trimmed with
        | None => codex_lines rest s
        | Some event =>
            let '(s1, e1, thrown) := codex_event event s in
            if thrown then (s1, e1, true)
            else
              let '(s2, e2, thrown2) := codex_lines rest s1 in
              (s2, (e1 ++ e2)%list, thrown2)
        end
  end.


(** [codexLineBuffer += rawOutput; lines = codexLineBuffer.split('\n');
    codexLineBuffer = lines.pop() || '']. *)
Definition codex_stdout (rawOutput : string) (s : State)
  : State * list Effect * bool :=
  let lines := split_lf (codexLineBuffer s ++ rawOutput) in
  codex_lines (removelast lines)
              (set_codexLineBuffer (last lines EmptyString) s).

Definition gemini_noise (line : string) : bool :=
  includes line "[DEBUG]"
  || includes line "Flushing log events"
  || includes line "Clearcut response"
  || includes line "[MemoryDiscovery]"
  || includes line "[BfsFileSearch]"
  || includes line "Loaded cached credentials".

Definition plain_chunk (text : string) (s : State) : State * list Effect :=
  if truthy text then (append_response text s, [emit (JStr text)])
  else (s, []).

Definition gemini_stdout (rawOutput : string) (s : State) : State * list Effect :=
  let filteredLines :=
    filter (fun line => negb (gemini_noise line)) (split_lf rawOutput) in
  plain_chunk (trim (join NL filteredLines)) s.

Definition ollama_stdout (rawOutput : string) (s : State) : State * list Effect :=
  let sanitizedOutput := stripOllamaSpinner (sanitizeCliOutput rawOutput) in
  if truthy (trim sanitizedOutput)
  then (set_fullResponse (fullResponse s ++ sanitizedOutput) s, [])
  else (s, []).

(** The block "for new sessions, create a session ID". *)
Definition new_session (now : Z) (s : State) : State * list Effect :=
  if negb (truthy (t_sessionId t)) && negb (sessionCreatedSent s)
     && negb (truthy (capturedSessionId s)) then
    let id := sessionPrefix (cliProvider t) ++ "_" ++ of_Z now in
    let r :=
      if negb (processKey t =? id)
      then Registry.set id (geminiProcess t)
             (Registry.delete (processKey t) (registry s))
      else registry s in
    (adopt_session id r s,
     ([CreateSession id (or_else (t_cwd t) (t_process_cwd t)) (cliProvider t)]
      ++ (if truthy (command t) then [AddMessage id "user" (command t)] else [])
      ++ (match pendingExternalSessionId s with
          | Some ext => if truthy_json ext then [SetExternalSessionId id ext] else []
          | None => []
          end)
      ++ [WsSend (SessionCreated id)])%list)
  else (s, []).

(** [geminiProcess.stdout.on('data', ...)]. *)
Definition on_stdout (now : Z) (rawOutput : string) (s : State)
  : State * list Effect :=
  let s0 := note_output rawOutput s in
  let '(s1, e1, thrown) :=
    if cliProvider t =? "codex" then codex_stdout rawOutput s0
    else if cliProvider t =? "gemini" then
      let '(s', e') := gemini_stdout rawOutput s0 in (s', e', false)
    else if cliProvider t =? "ollama" then
      let '(s', e') := ollama_stdout rawOutput s0 in (s', e', false)
    else
      let '(s', e') := plain_chunk (trim rawOutput) s0 in (s', e', false) in
  if thrown then (s1, e1)
  else
    let '(s2, e2) := new_session now s1 in
    (s2, (e1 ++ e2)%list).

Definition stderr_noise (errorMsg : string) : bool :=
  includes errorMsg "[DEP0040]"
  || includes errorMsg "DeprecationWarning"
  || includes errorMsg "--trace-deprecation"
  || includes errorMsg "Loaded cached credentials".

(** [geminiProcess.stderr.on('data', ...)]. *)
Definition on_stderr (errorMsg : string) (s : State) : State * list Effect :=
  if stderr_noise errorMsg then (s, [])
  else if cliProvider t =? "codex" then
    (set_codexStderrBuffer (codexStderrBuffer s ++ errorMsg) s, [])
  else if cliProvider t =? "ollama" then
    let sanitizedError := trim (stripOllamaSpinner (sanitizeCliOutput errorMsg)) in
    if negb (truthy sanitizedError) then (s, [])
    else (s, [WsSend (GeminiError (JStr sanitizedError))])
  else (s, [WsSend (GeminiError (JStr errorMsg))]).

Definition finalSessionId (s : State) : string :=
  or_else (capturedSessionId s) (or_else (t_sessionId t) (processKey t)).

(** The last, unterminated line of Codex, read when the process closes;
    whatever is thrown there is caught. *)
Definition codex_trailing (s : State) : State :=
  if (cliProvider t =? "codex") && truthy (trim (codexLineBuffer s)) then
    match JSON_parse (trim (codexLineBuffer s)) with
    | Some JNull | None => s
    | Some event =>
        match opt_prop (prop event "item") "text" with
        | Some text =>
            if is_agent_message event && truthy_json text
            then append_response (to_string text) s
            else s
        | None => s
        end
    end
  else s.

Definition exit_message (code : option Z) : string :=
  providerLabel (cliProvider t) ++ " CLI exited with code "
    ++ match code with Some c => of_Z c | None => "null" end.

Definition is_zero (code : option Z) : bool :=
  match code with Some c => (c =? 0)%Z | None => false end.

(** [geminiProcess.on('close', ...)]. *)
Definition on_close (code : option Z) (s : State) : State * list Effect :=
  let s1 := codex_trailing (set_timerArmed false s) in
  let key := finalSessionId s1 in
  let s2 := set_registry (Registry.delete key (registry s1)) s1 in
  let s3 := set_fs (cleanup (staged_paths t) (staged_dir t) (fs s2)) s2 in
  let effects :=
    ((if hasHandler t then [HandlerForceFlush; HandlerDestroy] else [])
     ++ (if truthy key && truthy (fullResponse s1)
         then [AddMessage key "assistant" (fullResponse s1)] else [])
     ++ (if (cliProvider t =? "codex") && negb (is_zero code)
            && truthy (trim (codexStderrBuffer s1))
         then [WsSend (GeminiError (JStr (trim (codexStderrBuffer s1))))]
         else [])
     ++ (if (cliProvider t =? "ollama") && truthy (trim (fullResponse s1))
         then [WsSend (GeminiResponse (JStr (trim (fullResponse s1))))]
         else [])
     ++ [WsSend (GeminiComplete code
                   (negb (truthy (t_sessionId t)) && truthy (command t)))])%list in
  if is_zero code then (settle Resolved s3, (effects ++ [Resolve])%list)
  else (settle (Rejected (exit_message code)) s3,
        (effects ++ [Reject (exit_message code)])%list).

(** [geminiProcess.on('error', ...)]. *)
Definition on_error (message : string) (s : State) : State * list Effect :=
  let key := finalSessionId s in
  (settle (Rejected message)
          (set_registry (Registry.delete key (registry s)) s),
   [WsSend (GeminiError (JStr message)); Reject message]).

Definition timeout_message : string :=
  providerLabel (cliProvider t) ++ " CLI timeout - no response received".

(** What the timer callback does when nothing was received: the error
    for the client, then the signal. *)
Definition timeout_effects : list Effect :=
  [WsSend (GeminiError (JStr timeout_message));
   Kill (pid (geminiProcess t)) SIGTERM].

(** The callback of the no-output timer. *)
Definition on_timeout (s : State) : State * list Effect :=
  if negb (hasReceivedOutput s) then (s, timeout_effects)
  else (s, []).

(** The event loop: a timer that is still pending and due runs before
    the event that arrives at or after its deadline; it runs once. *)
Definition fire_due (now : Z) (s : State) : State * list Effect :=
  if timerArmed s && (deadline t <=? now)%Z
  then on_timeout (set_timerArmed false s)
  else (s, []).

Definition handle (now : Z) (ev : Event) (s : State) : State * list Effect :=
  match ev with
  | Stdout data => on_stdout now data s
  | Stderr data => on_stderr data s
  | Close code => on_close code s
  | ProcError message => on_error message s
  end.

(** One delivery: the effects of the timer, then those of the event. *)
Definition deliver (now : Z) (ev : Event) (s : State)
  : State * (list Effect * list Effect) :=
  let '(s1, e1) := fire_due now s in
  let '(s2, e2) := handle now ev s1 in
  (s2, (e1, e2)).

Fixpoint run (events : list (Z * Event)) (s : State) : State * list Effect :=
  match events with
  | [] => (s, [])
  | (now, ev) :: rest =>
      let '(s1, (e1, e2)) := deliver now ev s in
      let '(s2, e3) := run rest s1 in
      (s2, (e1 ++ e2 ++ e3)%list)
  end.

(** The events that clear the timer. *)
Definition cancels (ev : Event) : bool :=
  match ev with
  | Stdout _ | Close _ => true
  | Stderr _ | ProcError _ => false
  end.

(** What the timer callback did in the course of a run, and in a turn
    observed up to the instant [horizon]. *)
Fixpoint timer_log (events : list (Z * Event)) (s : State) : list Effect :=
  match events with
  | [] => []
  | (now, ev) :: rest =>
      let '(s1, (e1, _)) := deliver now ev s in
      (e1 ++ timer_log rest s1)%list
  end.

Definition timer_log_until (horizon : Z) (events : list (Z * Event)) (s : State)
  : list Effect :=
  (timer_log events s ++ snd (fire_due horizon (fst (run events s))))%list.

(** Does the stdout handler reach its new-session block?  Only the
    Codex loop can throw. *)
Definition stdout_completes (rawOutput : string) (s : State) : bool :=
  if cliProvider t =? "codex"
  then negb (snd (codex_stdout rawOutput (note_output rawOutput s)))
  else true.

End Handlers.

(** The synchronous part of [spawnGemini], for a resolved provider: the
    constants of the turn, its first state and what it does before any
    event is handled.  The handlers provide for the tags ollama and bmad,
    which the revision of [normalizeProvider] above never returns; the
    resolved tag is therefore left arbitrary here. *)
Definition start (cliProvider command : string) (o : Options) (e : Env)
           (reg : Registry.t) (fs0 : Fs) : Turn * State * list Effect :=
  let staged := stage cliProvider (workingDir e) (now_stage e) (images o) fs0 in
  let promptToUse :=
    with_image_note cliProvider staged (construct_prompt cliProvider command o e) in
  let args := build_args cliProvider o e staged promptToUse in
  let key := or_else (sessionId o) (of_Z (now_spawn e)) in
  ({| cliProvider := cliProvider;
      command := command;
      t_sessionId := sessionId o;
      t_cwd := cwd o;
      t_process_cwd := process_cwd e;
      processKey := key;
      geminiProcess := child e;
      staged_paths := tempImagePaths staged;
      staged_dir := tempDir staged;
      deadline := now_spawn e + timeoutMs cliProvider |},
   {| capturedSessionId := sessionId o;
      sessionCreatedSent := false;
      fullResponse := EmptyString;
      pendingExternalSessionId := None;
      hasReceivedOutput := false;
      timerArmed := true;
      outputBuffer := EmptyString;
      codexLineBuffer := EmptyString;
      codexStderrBuffer := EmptyString;
      settled := None;
      registry := Registry.set key (child e) reg;
      fs := fs_after staged |},
   ([Spawn (cliCommand e) args (workingDir e); StdinEnd]
    ++ (if truthy command && truthy (sessionId o)
        then [AddMessage (sessionId o) "user" command] else [])
    ++ (if truthy command && truthy (trim command) then [StdinEnd] else []))%list).

(** [spawnGemini(command, options, ws)] up to the first event. *)
Definition spawnGemini (command : string) (o : Options) (e : Env)
           (reg : Registry.t) (fs0 : Fs) : Turn * State * list Effect :=
  start (CliConfig.normalizeProvider (env_CLI_PROVIDER e) (provider o))
        command o e reg fs0.

End Turn.

(* ================================================================== *)
(** ** Sample inputs used by the examples below *)

Module Examples.
Import JsString Json Registry CommandLine Stage Turn.

Definition proc1 : ChildProcess := {| pid := 1; kill_throws := false |}.
Definition proc2 : ChildProcess := {| pid := 2; kill_throws := false |}.

Definition sample_env : Env :=
  {| env_CLI_PROVIDER := EmptyString;
     externalSessionId := EmptyString;
     conversationContext := EmptyString;
     workingDir := "/work";
     process_cwd := "/srv";
     mcp_first_read := false;
     mcp_second_read := false;
     geminiConfigPath := "/home/u/.gemini.json";
     cliCommand := "gemini";
     now_stage := 1700000000000;
     now_spawn := 1700000000001;
     child := proc1 |}.

(** A new conversation: no session id, no images, default settings. *)
Definition new_turn (providerTag : string) : Options :=
  {| sessionId := EmptyString;
     cwd := "/work";
     toolsSettings := None;
     images := [];
     model := EmptyString;
     debug := false;
     provider := providerTag |}.

Definition resumed_turn (providerTag id : string) : Options :=
  {| sessionId := id;
     cwd := "/work";
     toolsSettings := None;
     images := [];
     model := EmptyString;
     debug := false;
     provider := providerTag |}.

Definition turn_with_images (providerTag : string) (imgs : list string) : Options :=
  {| sessionId := EmptyString;
     cwd := "/work";
     toolsSettings := None;
     images := imgs;
     model := EmptyString;
     debug := false;
     provider := providerTag |}.

(** Three lines of Codex output and what [JSON.parse] makes of them. *)
Definition dq (s : string) : string :=
  String (ascii_of_nat 34) s ++ String (ascii_of_nat 34) EmptyString.

Definition message_line (text : string) : string :=
  "{" ++ dq "type" ++ ":" ++ dq "item.completed" ++ "," ++ dq "item" ++ ":{"
      ++ dq "type" ++ ":" ++ dq "agent_message" ++ ","
      ++ dq "text" ++ ":" ++ dq text ++ "}}".

Definition line_thread : string :=
  "{" ++ dq "type" ++ ":" ++ dq "thread.started" ++ ","
      ++ dq "thread_id" ++ ":" ++ dq "th_1" ++ "}".
Definition line_msg1 : string := message_line "hello".
Definition line_msg2 : string := message_line "back".

Definition agent_message (text : string) : json :=
  JObj [("type", JStr "item.completed");
        ("item", JObj [("type", JStr "agent_message"); ("text", JStr text)])].

Definition sample_parse (s : string) : option json :=
  if s =? line_thread then
    Some (JObj [("type", JStr "thread.started"); ("thread_id", JStr "th_1")])
  else if s =? line_msg1 then Some (agent_message "hello")
  else if s =? line_msg2 then Some (agent_message "back")
  else if s =? "null" then Some JNull
  else None.

End Examples.

(* ================================================================== *)
(** ** server/cli-config.js: [getCliInfo], [getCliCommand], [buildSpawnEnv] *)

Module CliEnv.
Import JsString CliConfig.

(** The [value] fields of [cliModelCatalog[tag]], in order; [None] when
    the catalog has no such key. *)
Definition cliModelCatalog (tag : string) : option (list string) :=
  if tag =? "gemini" then
    Some ["gemini-3-pro-preview"; "gemini-3.0-flash"; "gemini-2.5-flash";
          "gemini-2.5-pro"; "gemini-2.0-flash-thinking-exp-01-21";
          "gemini-2.0-pro-exp-02-05"; "gemini-1.5-pro"; "gemini-1.5-flash"]
  else if tag =? "codex" then
    Some ["gpt-5.1-codex-max"; "gpt-5.1-codex"; "gpt-5.1"; "gpt-5.2"; "o3";
          "o4-mini"]
  else if tag =? "claude" then
    Some ["claude-3-7-sonnet-latest"; "claude-3-5-sonnet-latest";
          "claude-3-5-haiku-latest"]
  else if tag =? "webllm" then
    Some ["Llama-3.2-1B-Instruct-q4f32_1-MLC"; "Llama-3.2-3B-Instruct-q4f32_1-MLC";
          "Llama-3.1-8B-Instruct-q4f32_1-MLC"; "Phi-3.5-mini-instruct-q4f32_1-MLC";
          "gemma-2-2b-it-q4f16_1-MLC"; "Qwen3-0.6B-q4f16_1-MLC"]
  else None.

Definition displayNames (tag : string) : option string :=
  if tag =? "gemini" then Some "Gemini CLI"
  else if tag =? "codex" then Some "Codex CLI"
  else if tag =? "claude" then Some "Claude CLI"
  else if tag =? "webllm" then Some "WebLLM (Local)"
  else None.

(** The object returned by [getCliInfo]; [models] holds the [value] of
    each catalog entry. *)
Record CliInfo : Type := {
  info_provider : string;
  displayName : string;
  info_defaultModel : string;
  models : list string
}.

Definition getCliInfo (env_CLI_PROVIDER providerOverride : string) : CliInfo :=
  let resolvedProvider := normalizeProvider env_CLI_PROVIDER providerOverride in
  let models :=
    match cliModelCatalog resolvedProvider with
    | Some m => m
    | None => match cliModelCatalog "gemini" with Some m => m | None => [] end
    end in
  {| info_provider := resolvedProvider;
     displayName :=
       match displayNames resolvedProvider with
       | Some d => or_else d "Gemini CLI"
       | None => "Gemini CLI"
       end;
     info_defaultModel := defaultModel env_CLI_PROVIDER providerOverride;
     models := models |}.

(** The variables that [getCliCommand] reads; an unset variable is the
    empty string. *)
Record CliPaths : Type := {
  CODEX_PATH : string;
  CLAUDE_PATH : string;
  GEMINI_PATH : string
}.

(** [getCliCommand(providerOverride)]. *)
Definition getCliCommand (env_CLI_PROVIDER : string) (paths : CliPaths)
           (providerOverride : string) : string :=
  let resolvedProvider := normalizeProvider env_CLI_PROVIDER providerOverride in
  if resolvedProvider =? "codex" then or_else (CODEX_PATH paths) "codex"
  else if resolvedProvider =? "claude" then or_else (CLAUDE_PATH paths) "claude"
  else or_else (GEMINI_PATH paths) "gemini".

(** [s.split(d)] for a one-character separator. *)
Fixpoint split_on (d : ascii) (s : string) : list string :=
  match s with
  | EmptyString => [EmptyString]
  | String c r =>
      if Ascii.eqb c d then EmptyString :: split_on d r
      else match split_on d r with
           | l :: ls => String c l :: ls
           | [] => [String c EmptyString]
           end
  end.

(** [path.delimiter] (POSIX). *)
Definition delimiter : ascii := ":"%char.

(** The variables of [baseEnv] that [buildSpawnEnv] reads; an unset
    variable is the empty string. *)
Record BaseEnv : Type := {
  NVM_BIN : string;
  PATH : string
}.

Definition standardPaths : list string :=
  ["/usr/local/bin"; "/opt/homebrew/bin"; "/usr/bin"; "/bin"; "/usr/sbin"; "/sbin"].

(** [[baseEnv.NVM_BIN, '/usr/local/bin', ...].filter(Boolean)]. *)
Definition extraPaths (baseEnv : BaseEnv) : list string :=
  filter truthy (NVM_BIN baseEnv :: standardPaths).

(** [combined.filter(entry => { if (seen.has(entry)) return false;
    seen.add(entry); return true; })], with the set [seen] as the list of
    the entries added so far. *)
Fixpoint dedupe (seen : list string) (entries : list string) : list string :=
  match entries with
  | [] => []
  | entry :: rest =>
      if existsb (String.eqb entry) seen then dedupe seen rest
      else entry :: dedupe (entry :: seen) rest
  end.

(** The entries of the [PATH] that [buildSpawnEnv] returns. *)
Definition deduped (baseEnv : BaseEnv) : list string :=
  let currentPath := or_else (PATH baseEnv) EmptyString in
  let parts := filter truthy (split_on delimiter currentPath) in
  dedupe [] (extraPaths baseEnv ++ parts).

(** [buildSpawnEnv(baseEnv)]: the other variables are copied. *)
Definition buildSpawnEnv (baseEnv : BaseEnv) : BaseEnv :=
  {| NVM_BIN := NVM_BIN baseEnv;
     PATH := join (String delimiter EmptyString) (deduped baseEnv) |}.

End CliEnv.

(* ================================================================== *)
(** ** The project module: [deleteSession] *)

Module SessionFiles.
Import JsString Json.

(** [file.endsWith(suffix)]. *)
Fixpoint ends_with (suffix s : string) : bool :=
  (s =? suffix)
  || match s with
     | EmptyString => false
     | String _ r => ends_with suffix r
     end.

(** [content.split('\n').filter(line => line.trim())]. *)
Definition nonblank_lines (content : string) : list string :=
  filter (fun line => truthy (trim line)) (split_lf content).

(** What [deleteSession] leaves: [Returned] holds the directory after
    the call, [Thrown] the message of the error. *)
Inductive Outcome : Type :=
| Returned (files : list (string * string))
| Thrown (message : string).

Section Parse.
(** [JSON.parse]: [None] when it throws a [SyntaxError]. *)
Variable JSON_parse : string -> option json.

(** [JSON.parse(line).sessionId === sessionId] inside its [try]: [None]
    when the block throws, which it does on a syntax error and on
    [null], whose property cannot be read. *)
Definition session_is (sessionId line : string) : option bool :=
  match JSON_parse line with
  | None | Some JNull => None
  | Some data => Some (is_str (prop data "sessionId") sessionId)
  end.

(** [lines.some(...)]: a line that throws counts as [false]. *)
Definition hasSession (sessionId : string) (lines : list string) : bool :=
  existsb (fun line => match session_is sessionId line with
                       | Some b => b
                       | None => false
                       end) lines.

(** [lines.filter(...)]: a line that throws is kept. *)
Definition filteredLines (sessionId : string) (lines : list string) : list string :=
  filter (fun line => match session_is sessionId line with
                      | Some b => negb b
                      | None => true
                      end) lines.

(** [filteredLines.join('\n') + (filteredLines.length > 0 ? '\n' : '')]. *)
Definition rewritten (sessionId : string) (lines : list string) : string :=
  let kept := filteredLines sessionId lines in
  join (String LF EmptyString) kept
  ++ match kept with [] => EmptyString | _ => String LF EmptyString end.

(** The loop over the [.jsonl] files of the project directory, given as
    the pairs of a file name and its content in the order of [readdir]:
    the first file that holds the session is rewritten and the loop
    returns; [None] when the loop ends. *)
Fixpoint delete_in (sessionId : string) (files : list (string * string))
  : option (list (string * string)) :=
  match files with
  | [] => None
  | (file, content) :: rest =>
      if ends_with ".jsonl" file
         && hasSession sessionId (nonblank_lines content)
      then Some ((file, rewritten sessionId (nonblank_lines content)) :: rest)
      else option_map (cons (file, content)) (delete_in sessionId rest)
  end.

Definition deleteSession (files : list (string * string)) (sessionId : string)
  : Outcome :=
  match filter (fun f => ends_with ".jsonl" (fst f)) files with
  | [] => Thrown "No session files found for this project"
  | _ =>
      match delete_in sessionId files with
      | Some files' => Returned files'
      | None => Thrown ("Session " ++ sessionId ++ " not found in any files")
      end
  end.

End Parse.

End SessionFiles.

(* ================================================================== *)
(** ** The project module: the choice made by [extractProjectDirectory] *)

Module ProjectDirectory.
Import JsString Projects.

(** [cwdCounts]: a [Map] from working directory to count, in insertion
    order. *)
Definition Counts : Type := list (string * nat).

Fixpoint get (cwd : string) (m : Counts) : option nat :=
  match m with
  | [] => None
  | (k, n) :: rest => if k =? cwd then Some n else get cwd rest
  end.

Fixpoint set (cwd : string) (n : nat) (m : Counts) : Counts :=
  match m with
  | [] => [(cwd, n)]
  | (k, v) :: rest => if k =? cwd then (k, n) :: rest else (k, v) :: set cwd n rest
  end.

(** [cwdCounts.get(cwd) || 0]. *)
Definition count_or_zero (cwd : string) (m : Counts) : nat :=
  match get cwd m with Some n => n | None => 0 end.

(** A parsed line of a session file, as far as the loop reads it: its
    [cwd] (a string; empty when the entry has none) and
    [new Date(entry.timestamp || 0).getTime()], [None] when that is [NaN]. *)
Record Entry : Type := {
  e_cwd : string;
  e_time : option Z
}.

Record Scan : Type := {
  cwdCounts : Counts;
  latestTimestamp : Z;
  latestCwd : option string        (* [None] is [null] *)
}.

(** The body of the loop for one parsed line. *)
Definition scan_entry (s : Scan) (e : Entry) : Scan :=
  if truthy (e_cwd e) then
    let counts := set (e_cwd e) (count_or_zero (e_cwd e) (cwdCounts s) + 1)
                      (cwdCounts s) in
    match e_time e with
    | Some timestamp =>
        if (latestTimestamp s <? timestamp)%Z
        then {| cwdCounts := counts; latestTimestamp := timestamp;
                latestCwd := Some (e_cwd e) |}
        else {| cwdCounts := counts; latestTimestamp := latestTimestamp s;
                latestCwd := latestCwd s |}
    | None => {| cwdCounts := counts; latestTimestamp := latestTimestamp s;
                 latestCwd := latestCwd s |}
    end
  else s.

Definition scan (entries : list Entry) : Scan :=
  fold_left scan_entry entries
    {| cwdCounts := []; latestTimestamp := 0; latestCwd := None |}.

(** [Math.max(...cwdCounts.values())], for a map that is not empty. *)
Definition maxCount (m : Counts) : nat :=
  fold_right (fun kv acc => Nat.max (snd kv) acc) 0 m.

(** The loop that looks for the first directory with the given count. *)
Fixpoint first_with (n : nat) (m : Counts) : option string :=
  match m with
  | [] => None
  | (k, v) :: rest => if (v =? n)%nat then Some k else first_with n rest
  end.

(** [projectName.replace(/-/g, '/')]. *)
Fixpoint replace_dashes (s : string) : string :=
  match s with
  | EmptyString => EmptyString
  | String c r =>
      String (if Ascii.eqb c "-"%char then "/"%char else c) (replace_dashes r)
  end.

Section Choice.
Variable existsSync : string -> bool.

(** [decodeProjectNameToPath(projectName) || projectName.replace(/-/g, '/')]. *)
Definition decoded_or_replaced (projectName : string) : string :=
  match decodeProjectNameToPath existsSync projectName with
  | Some p => or_else p (replace_dashes projectName)
  | None => replace_dashes projectName
  end.

(** "Determine the best cwd to use": [extractedPath] before it is
    cleaned.  [mostRecentCount >= maxCount * 0.25] is decided on the
    integers. *)
Definition bestCwd (projectName : string) (s : Scan) : string :=
  match cwdCounts s with
  | [] => replace_dashes projectName
  | [(cwd, _)] => cwd
  | _ =>
      let mostRecentCount :=
        match latestCwd s with
        | Some c => count_or_zero c (cwdCounts s)
        | None => 0
        end in
      let extractedPath :=
        if (maxCount (cwdCounts s) <=? 4 * mostRecentCount)%nat
        then latestCwd s
        else first_with (maxCount (cwdCounts s)) (cwdCounts s) in
      match extractedPath with
      | Some p =>
          if truthy p then p
          else match latestCwd s with
               | Some c => or_else c (decoded_or_replaced projectName)
               | None => decoded_or_replaced projectName
               end
      | None =>
          match latestCwd s with
          | Some c => or_else c (decoded_or_replaced projectName)
          | None => decoded_or_replaced projectName
          end
      end
  end.

(** [extractProjectDirectory] on a project with [jsonlFiles] session
    files whose parsed lines are [entries], in reading order, when the
    cache has no entry for the project and nothing throws. *)
Definition extractProjectDirectory (projectName : string) (jsonlFiles : nat)
           (entries : list Entry) : string :=
  let extractedPath :=
    match jsonlFiles with
    | O => decoded_or_replaced projectName
    | S _ => bestCwd projectName (scan entries)
    end in
  trim (strip_non_printable extractedPath).

End Choice.

(** The number of entries whose working directory is [cwd]. *)
Definition occurrences (cwd : string) (entries : list Entry) : nat :=
  List.length (filter (fun e => e_cwd e =? cwd) entries).

End ProjectDirectory.

(* ================================================================== *)
(** ** The project module: the project configuration *)

Module ProjectConfig.
Import JsString Json Projects.

(** The object read from [project-config.json]: its own properties, in
    order, with pairwise distinct names. *)
Definition Config : Type := list (string * json).

(** [config[name] = value]. *)
Fixpoint assign (name : string) (value : json) (config : Config) : Config :=
  match config with
  | [] => [(name, value)]
  | (k, v) :: rest =>
      if k =? name then (k, value) :: rest else (k, v) :: assign name value rest
  end.

(** [delete config[name]]. *)
Fixpoint remove (name : string) (config : Config) : Config :=
  match config with
  | [] => []
  | (k, v) :: rest =>
      if k =? name then remove name rest else (k, v) :: remove name rest
  end.

(** [renameProject]: the configuration it saves. *)
Definition renameProject (config : Config) (projectName newDisplayName : string)
  : Config :=
  if negb (truthy newDisplayName) || (trim newDisplayName =? EmptyString)
  then remove projectName config
  else assign projectName (JObj [("displayName", JStr (trim newDisplayName))])
              config.

(** The result of [fs.access]: the path is there, it is missing (the
    error code is [ENOENT]), or the call fails otherwise, with a message. *)
Inductive Access : Type :=
| Accessible
| Missing
| Denied (message : string).

(** What [addProjectManually] obtains from the file system and from
    [generateDisplayName]. *)
Record AddEnv : Type := {
  path_access : Access;              (* fs.access(absolutePath) *)
  path_mkdir : option string;        (* fs.mkdir(absolutePath): the message when it fails *)
  dir_access : Access;               (* fs.access(projectDir) *)
  save_error : option string;        (* saveProjectConfig: the message when it throws *)
  generatedName : string             (* generateDisplayName(projectName, absolutePath) *)
}.

(** The object returned by [addProjectManually]; [sessions] is empty. *)
Record Project : Type := {
  name : string;
  path : string;
  fullPath : string;
  displayName : string;
  isManuallyAdded : bool
}.

Inductive AddOutcome : Type :=
| Added (config : Config) (project : Project)
| Failed (message : string).

(** [addProjectManually] for a path that [path.resolve] leaves as it is;
    an absent display name is the empty string.  [Added] holds the
    configuration that is saved. *)
Definition addProjectManually (env : AddEnv) (config : Config)
           (absolutePath displayName : string) : AddOutcome :=
  let checked :=
    match path_access env with
    | Accessible => None
    | Missing =>
        match path_mkdir env with
        | None => None
        | Some message =>
            Some ("Failed to create directory: " ++ absolutePath ++ " - " ++ message)
        end
    | Denied message =>
        Some ("Cannot access path: " ++ absolutePath ++ " - " ++ message)
    end in
  match checked with
  | Some message => Failed message
  | None =>
      let projectName := encodeProjectPathToName absolutePath in
      match dir_access env with
      | Accessible => Failed ("Project already exists for path: " ++ absolutePath)
      | Denied message => Failed message
      | Missing =>
          if truthy_value (lookup projectName config)
          then Failed ("Project already configured for path: " ++ absolutePath)
          else
            let entry :=
              JObj ([("manuallyAdded", JBool true);
                     ("originalPath", JStr absolutePath)]
                    ++ (if truthy displayName
                        then [("displayName", JStr displayName)] else [])) in
            match save_error env with
            | Some message => Failed message
            | None =>
                Added (assign projectName entry config)
                      {| name := projectName;
                         path := absolutePath;
                         fullPath := absolutePath;
                         displayName := or_else displayName (generatedName env);
                         isManuallyAdded := true |}
            end
      end
  end.

End ProjectConfig.

(* ================================================================== *)
(** ** The project module: [getSessions] *)

Module SessionList.
Import JsString.

Section Sessions.
(** The session objects built by [parseJsonlSessions], their [id], and
    [Array.prototype.sort] with the comparator on [lastActivity]. *)
Variable Session : Type.
Variable id : Session -> string.
Variable sort : list Session -> list Session.

(** [allSessions.has(session.id)] on the values of the map, which are in
    insertion order. *)
Definition has (all : list Session) (s : Session) : bool :=
  existsb (fun x => id x =? id s) all.

(** [sessions.forEach(session => { if (!allSessions.has(session.id))
    allSessions.set(session.id, session); })]. *)
Definition merge (all sessions : list Session) : list Session :=
  fold_left (fun acc s => if has acc s then acc else (acc ++ [s])%list)
            sessions all.

(** The loop over the files, newest first, each given by the result of
    [parseJsonlSessions]; it stops early once enough sessions are known. *)
Fixpoint collect (limit offset fileCount : nat) (files : list (list Session))
         (processedCount : nat) (all : list Session) : list Session :=
  match files with
  | [] => all
  | sessions :: rest =>
      let all' := merge all sessions in
      let processedCount' := S processedCount in
      if (((limit + offset) * 2 <=? List.length all')
          && (Nat.min 3 fileCount <=? processedCount'))%nat
      then all'
      else collect limit offset fileCount rest processedCount' all'
  end.

Record Page : Type := {
  sessions : list Session;
  hasMore : bool;
  total : nat
}.

Definition getSessions (files : list (list Session)) (limit offset : nat) : Page :=
  match files with
  | [] => {| sessions := []; hasMore := false; total := 0 |}
  | _ =>
      let sortedSessions :=
        sort (collect limit offset (List.length files) files 0 []) in
      {| sessions := firstn limit (skipn offset sortedSessions);
         hasMore := (offset + limit <? List.length sortedSessions)%nat;
         total := List.length sortedSessions |}
  end.

End Sessions.

Arguments has {Session}.
Arguments merge {Session}.
Arguments collect {Session}.
Arguments sessions {Session}.
Arguments hasMore {Session}.
Arguments total {Session}.
Arguments getSessions {Session}.

End SessionList.

(* ================================================================== *)
(** ** Character classes used to state properties of the text functions *)

Module Text.
Import JsString.

(** [[A-Za-z0-9_-]]: the characters of a base64url name. *)
Definition is_name_char (c : ascii) : bool :=
  let n := nat_of_ascii c in
  (((65 <=? n) && (n <=? 90)) || ((97 <=? n) && (n <=? 122))
   || ((48 <=? n) && (n <=? 57)) || (n =? 45) || (n =? 95))%nat.

(** A character that [splitCommandArgs] appends as it is: 7-bit, no white
    space, no quote, no backslash. *)
Definition is_plain_char (c : ascii) : bool :=
  (nat_of_ascii c <? 128)%nat
  && negb (is_ws c)
  && negb (Ascii.eqb c (ascii_of_nat 34))
  && negb (Ascii.eqb c "'"%char)
  && negb (Ascii.eqb c "\"%char).

Definition plain_word (w : string) : bool :=
  truthy w && all_chars is_plain_char w.

(** A 7-bit character. *)
Definition is_seven_bit (c : ascii) : bool := (nat_of_ascii c <? 128)%nat.

(** Printable ASCII, TAB, LF or CR. *)
Definition is_text_char (c : ascii) : bool :=
  let n := nat_of_ascii c in
  (((32 <=? n) && (n <=? 126)) || (n =? 9) || (n =? 10) || (n =? 13))%nat.

Definition not_single_quote (c : ascii) : bool := negb (Ascii.eqb c "'"%char).

(** No string occurs twice. *)
Fixpoint all_distinct (xs : list string) : bool :=
  match xs with
  | [] => true
  | x :: rest => negb (existsb (String.eqb x) rest) && all_distinct rest
  end.

End Text.

(* ================================================================== *)
(** ** Options of a turn with one field cleared *)

Module Variants.
Import Turn.

(** The same options for a new conversation. *)
Definition without_session (o : Options) : Options :=
  {| sessionId := EmptyString;
     cwd := cwd o;
     toolsSettings := toolsSettings o;
     images := images o;
     model := model o;
     debug := debug o;
     provider := provider o |}.

(** The same options without attachments. *)
Definition without_images (o : Options) : Options :=
  {| sessionId := sessionId o;
     cwd := cwd o;
     toolsSettings := toolsSettings o;
     images := [];
     model := model o;
     debug := debug o;
     provider := provider o |}.

End Variants.

(* ================================================================== *)
(** ** What a client observes of the effects of a turn *)

Module Observations.
Import Json Turn.

(** The text of a content chunk handed to the response handler or sent
    as a [gemini-response]. *)
Definition chunk_text (e : Effect) : option json :=
  match e with
  | HandlerProcessData c => Some c
  | WsSend (GeminiResponse c) => Some c
  | _ => None
  end.

Fixpoint chunks (es : list Effect) : list json :=
  match es with
  | [] => []
  | e :: rest =>
      match chunk_text e with
      | Some c => c :: chunks rest
      | None => chunks rest
      end
  end.




Definition is_error_message (e : Effect) : bool :=
  match e with WsSend (GeminiError _) => true | _ => false end.

Definition is_close (ev : Event) : bool :=
  match ev with Close _ => true | _ => false end.

(** The name of the file written for the image at [index]. *)
Definition image_name (index : nat) (extension : string) : string :=
  "image_" ++ JsString.of_Z (Z.of_nat index) ++ "." ++ extension.

(** A decimal digit or the minus sign. *)
Definition is_decimal_char (c : ascii) : bool :=
  Sanitize.in_range 48 57 c || Ascii.eqb c "-"%char.

End Observations.

(* ================================================================== *)
(** ** Sample turns *)

Module Samples.
Import JsString Json Registry CommandLine Stage Turn.

(** White-space characters of several bytes: U+00A0, U+FEFF and U+2028 in
    UTF-8. *)
Definition no_break_space : string :=
  String (ascii_of_nat 194) (String (ascii_of_nat 160) EmptyString).

Definition byte_order_mark : string :=
  String (ascii_of_nat 239)
    (String (ascii_of_nat 187) (String (ascii_of_nat 191) EmptyString)).

Definition line_separator : string :=
  String (ascii_of_nat 226)
    (String (ascii_of_nat 128) (String (ascii_of_nat 168) EmptyString)).

(** A new conversation with each provider, as [start] sets it up. *)
Definition turn_of (providerTag : string) : Turn :=
  fst (fst (start providerTag "hi" (Examples.new_turn providerTag)
              Examples.sample_env [] [])).

Definition state_of (providerTag : string) : State :=
  snd (fst (start providerTag "hi" (Examples.new_turn providerTag)
              Examples.sample_env [] [])).

(** A new Gemini conversation with one attached image. *)
Definition staged_turn : Turn :=
  fst (fst (start "gemini" "hi"
              (Examples.turn_with_images "gemini" ["data:image/png;base64,AAAA"])
              Examples.sample_env [] [])).

Definition staged_state : State :=
  snd (fst (start "gemini" "hi"
              (Examples.turn_with_images "gemini" ["data:image/png;base64,AAAA"])
              Examples.sample_env [] [])).

(** Two session entries and what [JSON.parse] makes of their lines. *)
Definition entry_of (sessionId : string) : json :=
  JObj [("sessionId", JStr sessionId); ("type", JStr "message")].

Definition session_parse (line : string) : option json :=
  if line =? "A" then Some (entry_of "a")
  else if line =? "B" then Some (entry_of "b")
  else if line =? "null" then Some JNull
  else None.

Definition session_files : list (string * string) :=
  [("notes.txt", "A");
   ("one.jsonl", unlines ["A"; "not json"; "B"; "null"; "A"]);
   ("two.jsonl", unlines ["A"])].

(** Entries of session files with their working directories. *)
Definition cwd_entries : list ProjectDirectory.Entry :=
  [ProjectDirectory.Build_Entry "/srv/a" (Some 10%Z);
   ProjectDirectory.Build_Entry "/srv/b" (Some 20%Z);
   ProjectDirectory.Build_Entry "/srv/a" (Some 5%Z);
   ProjectDirectory.Build_Entry "/srv/a" None;
   ProjectDirectory.Build_Entry EmptyString (Some 99%Z)].

(** A first call of [addProjectManually]: the path is missing and is
    created, the project directory is missing, the save succeeds. *)
Definition add_env : ProjectConfig.AddEnv :=
  {| ProjectConfig.path_access := ProjectConfig.Missing;
     ProjectConfig.path_mkdir := None;
     ProjectConfig.dir_access := ProjectConfig.Missing;
     ProjectConfig.save_error := None;
     ProjectConfig.generatedName := "/srv/app" |}.

(** Sessions reduced to their id and the time of their last activity,
    and the order [sort] gives them when all dates are valid: latest
    first, equal dates in their former order. *)
Record SessionInfo : Type := {
  s_id : string;
  s_lastActivity : Z
}.

Fixpoint insert_by_activity (s : SessionInfo) (l : list SessionInfo)
  : list SessionInfo :=
  match l with
  | [] => [s]
  | x :: rest =>
      if (s_lastActivity x <=? s_lastActivity s)%Z then s :: x :: rest
      else x :: insert_by_activity s rest
  end.

Definition sort_by_activity (l : list SessionInfo) : list SessionInfo :=
  fold_right insert_by_activity [] l.

Definition session_batches : list (list SessionInfo) :=
  [[Build_SessionInfo "s1" 30; Build_SessionInfo "s2" 10];
   [Build_SessionInfo "s2" 5; Build_SessionInfo "s3" 20]].

End Samples.

(* ================================================================== *)
(** * Properties *)

(** * White space

    On 7-bit text [trim] removes the one-byte white space at both ends;
    in general what it returns is a segment of its argument. *)

Section WhiteSpace.
Import JsString Text.

Lemma ws_len_seven c r :
  is_seven_bit c = true -> ws_len (String c r) = if is_ws c then 1 else 0.
Proof.
  destruct c as [[] [] [] [] [] [] [] []]; intros H;
    try discriminate H; (destruct r as [|d [|e r']]; reflexivity).
Qed.

Lemma trimStart_seven c r :
  is_seven_bit c = true ->
  trimStart (String c r) = if is_ws c then trimStart r else String c r.
Proof.
  intros H. unfold trimStart. cbn [trimStart_from].
  rewrite (ws_len_seven c r H). destruct (is_ws c); reflexivity.
Qed.

Lemma blank_seven c r :
  is_seven_bit c = true -> blank (String c r) = is_ws c && blank r.
Proof.
  intros H. unfold blank. cbn [blank_from].
  rewrite (ws_len_seven c r H). destruct (is_ws c); reflexivity.
Qed.

Lemma blank_all_ws s :
  all_chars is_seven_bit s = true -> blank s = all_chars is_ws s.
Proof.
  induction s as [|c r IH]; [reflexivity|]. cbn [all_chars].
  intros [Hc Hr]%andb_prop. now rewrite blank_seven, IH.
Qed.

Lemma all_ws_blank s : all_chars is_ws s = true -> blank s = true.
Proof.
  intros H. rewrite blank_all_ws; [exact H|].
  revert H. clear. induction s as [|c r IH]; [reflexivity|]. cbn [all_chars].
  intros [Hc Hr]%andb_prop. rewrite (IH Hr), andb_true_r.
  destruct c as [[] [] [] [] [] [] [] []]; try reflexivity; discriminate Hc.
Qed.

Lemma drop_end_while_cons f c r :
  drop_end_while f (String c r)
  = match drop_end_while f r with
    | EmptyString => if f c then EmptyString else String c EmptyString
    | r' => String c r'
    end.
Proof. reflexivity. Qed.

Lemma drop_end_while_idem f s :
  drop_end_while f (drop_end_while f s) = drop_end_while f s.
Proof.
  induction s as [|a s IH]; [reflexivity|].
  rewrite drop_end_while_cons.
  destruct (drop_end_while f s) as [|b t] eqn:E.
  - destruct (f a) eqn:Ea; [reflexivity|]. simpl. now rewrite Ea.
  - rewrite drop_end_while_cons, IH. reflexivity.
Qed.

Lemma drop_end_while_empty f s :
  truthy (drop_end_while f s) = negb (all_chars f s).
Proof.
  induction s as [|c r IH]; [reflexivity|].
  rewrite drop_end_while_cons. cbn [all_chars].
  destruct (drop_end_while f r) as [|d t].
  - cbn [truthy] in IH. symmetry in IH. apply negb_false_iff in IH.
    rewrite IH, andb_true_r. destruct (f c); reflexivity.
  - cbn [truthy] in IH |- *. symmetry in IH. apply negb_true_iff in IH.
    now rewrite IH, andb_false_r.
Qed.

Lemma trimEnd_seven s :
  all_chars is_seven_bit s = true -> trimEnd s = drop_end_while is_ws s.
Proof.
  induction s as [|c r IH]; [reflexivity|]. intros H.
  pose proof H as H'. cbn [all_chars] in H'. apply andb_prop in H' as [Hc Hr].
  cbn [trimEnd]. rewrite (blank_all_ws _ H), drop_end_while_cons, (IH Hr).
  cbn [all_chars].
  pose proof (drop_end_while_empty is_ws r) as E.
  destruct (drop_end_while is_ws r) as [|d t]; cbn [truthy] in E.
  - symmetry in E. apply negb_false_iff in E. rewrite E, andb_true_r.
    destruct (is_ws c); reflexivity.
  - symmetry in E. apply negb_true_iff in E. now rewrite E, andb_false_r.
Qed.

(** What [trimStart] returns is a suffix, what [trimEnd] returns a prefix. *)
Lemma trimStart_from_suffix : forall s k,
  exists pre, s = pre ++ trimStart_from k s.
Proof.
  induction s as [|c r IH]; intros k; [now exists EmptyString|].
  cbn [trimStart_from].
  destruct k as [|k]; [destruct (ws_len (String c r)) as [|n]|].
  - now exists EmptyString.
  - destruct (IH n) as [pre E]. exists (String c pre). simpl. now rewrite <- E.
  - destruct (IH k) as [pre E]. exists (String c pre). simpl. now rewrite <- E.
Qed.

Lemma trimEnd_prefix s : exists post, s = trimEnd s ++ post.
Proof.
  induction s as [|c r [post E]]; [now exists EmptyString|].
  cbn [trimEnd]. destruct (blank (String c r)).
  - now exists (String c r).
  - exists post. simpl. now rewrite <- E.
Qed.

Lemma trim_segment s : exists pre post, s = pre ++ trim s ++ post.
Proof.
  unfold trim, trimStart.
  destruct (trimStart_from_suffix s 0) as [pre E].
  destruct (trimEnd_prefix (trimStart_from 0 s)) as [post F].
  exists pre, post. now rewrite <- F.
Qed.

Lemma all_chars_app f a b :
  all_chars f (a ++ b) = all_chars f a && all_chars f b.
Proof.
  induction a as [|c r IH]; simpl; [reflexivity|].
  now rewrite IH, andb_assoc.
Qed.

Lemma all_chars_impl (f g : ascii -> bool) s :
  (forall c, f c = true -> g c = true) ->
  all_chars f s = true -> all_chars g s = true.
Proof.
  intros Hfg. induction s as [|c r IH]; simpl; [reflexivity|].
  intros [Hc Hr]%andb_prop. now rewrite (Hfg c Hc), IH.
Qed.

Lemma all_chars_trimStart f s :
  all_chars f s = true -> all_chars f (trimStart s) = true.
Proof.
  intros H. destruct (trimStart_from_suffix s 0) as [pre E].
  rewrite E, all_chars_app in H. now apply andb_prop in H as [_ H].
Qed.

Lemma all_chars_trim f s : all_chars f s = true -> all_chars f (trim s) = true.
Proof.
  intros H. destruct (trim_segment s) as (pre & post & E).
  rewrite E, !all_chars_app in H.
  apply andb_prop in H as [_ H]. now apply andb_prop in H as [H _].
Qed.

Lemma trim_seven s :
  all_chars is_seven_bit s = true ->
  trim s = drop_end_while is_ws (trimStart s).
Proof.
  intros H. unfold trim. apply trimEnd_seven. now apply all_chars_trimStart.
Qed.

Lemma trimStart_head s :
  all_chars is_seven_bit s = true ->
  trimStart s = EmptyString
  \/ exists c r, trimStart s = String c r /\ is_ws c = false
                 /\ is_seven_bit c = true.
Proof.
  induction s as [|c r IH]; [now left|]. cbn [all_chars].
  intros [Hc Hr]%andb_prop. rewrite trimStart_seven by exact Hc.
  destruct (is_ws c) eqn:E; [now apply IH|]. right. now exists c, r.
Qed.

Lemma trim_trim s :
  all_chars is_seven_bit s = true -> trim (trim s) = trim s.
Proof.
  intros H.
  rewrite (trim_seven (trim s)) by now apply all_chars_trim.
  rewrite (trim_seven s H).
  destruct (trimStart_head s H) as [->|(c & r & -> & Hc & H7)]; [reflexivity|].
  assert (Hs : trimStart (drop_end_while is_ws (String c r))
               = drop_end_while is_ws (String c r)).
  { rewrite drop_end_while_cons.
    destruct (drop_end_while is_ws r); rewrite ?Hc;
      rewrite trimStart_seven by exact H7; now rewrite Hc. }
  rewrite Hs. apply drop_end_while_idem.
Qed.

Lemma printable_seven_bit s :
  all_chars Projects.is_printable s = true -> all_chars is_seven_bit s = true.
Proof.
  apply all_chars_impl. intros c Hc.
  destruct c as [[] [] [] [] [] [] [] []]; try reflexivity; discriminate Hc.
Qed.

Lemma trim_truthy s : truthy (trim s) = true -> truthy s = true.
Proof. destruct s; [discriminate|reflexivity]. Qed.

Example trim_unicode_space :
  trim (Samples.no_break_space ++ " a" ++ Samples.byte_order_mark ++ "b "
          ++ Samples.line_separator ++ Samples.no_break_space)
  = "a" ++ Samples.byte_order_mark ++ "b"
  /\ trim (Samples.no_break_space ++ Samples.byte_order_mark) = EmptyString.
Proof. split; reflexivity. Qed.

End WhiteSpace.

Section NormalizeProvider.
Import JsString CliConfig.

Example normalize_codex_mixed_case :
  normalizeProvider EmptyString "CoDeX" = "codex".
Proof. reflexivity. Qed.

Lemma provider_supported env : In (provider env) supported.
Proof.
  unfold provider, supported.
  repeat match goal with |- context [if ?b then _ else _] => destruct b end;
    simpl; auto.
Qed.

Lemma normalizeProvider_supported env p : In (normalizeProvider env p) supported.
Proof.
  unfold normalizeProvider.
  destruct (negb (truthy p)); [apply provider_supported|].
  unfold supported.
  repeat match goal with |- context [if ?b then _ else _] => destruct b end;
    simpl; auto.
Qed.

End NormalizeProvider.

Section ProjectNameCodec.
Import JsString Base64 Projects.

Lemma unbase64_char_url s : unbase64 (char_url s) = Some s.
Proof.
  destruct s as [[] [] [] [] [] []]; reflexivity.
Qed.

Lemma char_url_not_pad s : Ascii.eqb (char_url s) "="%char = false.
Proof.
  destruct s as [[] [] [] [] [] []]; reflexivity.
Qed.

Lemma sextets_of_chars_of_sextets l :
  sextets_of_chars (chars_of_sextets l) = l.
Proof.
  induction l as [|x l IH]; simpl; [reflexivity|].
  now rewrite char_url_not_pad, unbase64_char_url, IH.
Qed.

(** Induction three bytes at a time. *)
Lemma bytes_of_sextets_of_bytes_aux s :
  bytes_of_sextets (sextets_of_bytes s) = s
  /\ (forall a, bytes_of_sextets (sextets_of_bytes (String a s)) = String a s)
  /\ (forall a b,
        bytes_of_sextets (sextets_of_bytes (String a (String b s)))
        = String a (String b s)).
Proof.
  induction s as [|c s (IH0 & IH1 & IH2)].
  - repeat split.
    + intros []; reflexivity.
    + intros [] []; reflexivity.
  - split; [apply IH1|]. split; [intros a; apply IH2|].
    intros [] [].
    destruct c. cbn [sextets_of_bytes bytes_of_sextets].
    now rewrite IH0.
Qed.

Lemma bytes_of_sextets_of_bytes s :
  bytes_of_sextets (sextets_of_bytes s) = s.
Proof. apply bytes_of_sextets_of_bytes_aux. Qed.

Lemma from_base64_toString bytes :
  from_base64 (toString_base64url bytes) = bytes.
Proof.
  unfold from_base64, toString_base64url.
  now rewrite sextets_of_chars_of_sextets, bytes_of_sextets_of_bytes.
Qed.

Lemma drop_end_while_id f s :
  last_is f s = false -> drop_end_while f s = s.
Proof.
  induction s as [|c r IH]; [reflexivity|].
  destruct r as [|d r'].
  - simpl. now intros ->.
  - intros H. change (last_is f (String d r') = false) in H.
    specialize (IH H).
    change (drop_end_while f (String c (String d r')))
      with (match drop_end_while f (String d r') with
            | EmptyString => if f c then EmptyString else String c EmptyString
            | r0 => String c r0
            end).
    now rewrite IH.
Qed.

Lemma strip_non_printable_id s :
  all_chars is_printable s = true -> strip_non_printable s = s.
Proof.
  induction s as [|c r IH]; simpl; [reflexivity|].
  intros [Hc Hr]%andb_prop. now rewrite Hc, IH.
Qed.

Lemma trim_id s :
  all_chars is_printable s = true ->
  isAbsolute s = true -> last_is is_ws s = false -> trim s = s.
Proof.
  intros Hpr Habs Hlast. rewrite trim_seven by now apply printable_seven_bit.
  destruct s as [|c r]; [discriminate|].
  simpl in Habs. apply Ascii.eqb_eq in Habs. subst c.
  rewrite trimStart_seven by reflexivity.
  change (is_ws "/"%char) with false. cbv iota.
  now apply drop_end_while_id.
Qed.

Lemma toString_base64url_truthy s :
  truthy s = true -> truthy (toString_base64url s) = true.
Proof.
  destruct s as [|[] [|[] [|[] r]]]; [discriminate|..]; reflexivity.
Qed.

Example encode_home : encodeProjectPathToName "/home/user/project"
                      = "L2hvbWUvdXNlci9wcm9qZWN0".
Proof. reflexivity. Qed.

(** C9: the round trip loses the last character of ["/srv/app~"].  Its
    name is ["L3Nydi9hcHB-"]; the decoder first removes the trailing ['-'],
    what is left decodes, without any error, to ["/srv/app"], so the full
    name is never tried, and the function returns ["/srv/app"] or, when
    that does not exist, an existing path one or two characters shorter:
    whatever exists on disk, never ["/srv/app~"]. *)
Theorem C9_roundtrip_loses_last_character (existsSync : string -> bool) :
  encodeProjectPathToName "/srv/app~" = "L3Nydi9hcHB-"
  /\ decodeProjectNameToPath existsSync (encodeProjectPathToName "/srv/app~")
     = Some (if existsSync "/srv/app" then "/srv/app"
             else if existsSync "/srv/ap" then "/srv/ap"
             else if existsSync "/srv/a" then "/srv/a"
             else "/srv/app")
  /\ decodeProjectNameToPath existsSync (encodeProjectPathToName "/srv/app~")
     <> Some "/srv/app~".
Proof.
  assert (E : decodeProjectNameToPath existsSync (encodeProjectPathToName "/srv/app~")
              = Some (if existsSync "/srv/app" then "/srv/app"
                      else if existsSync "/srv/ap" then "/srv/ap"
                      else if existsSync "/srv/a" then "/srv/a"
                      else "/srv/app")).
  { change (encodeProjectPathToName "/srv/app~") with "L3Nydi9hcHB-".
    unfold decodeProjectNameToPath.
    change (drop_end_while is_url_pad "L3Nydi9hcHB-") with "L3Nydi9hcHB".
    change (tryDecode "L3Nydi9hcHB" base64url) with (Some "/srv/app").
    cbn [nullish truthy negb].
    change (trim (strip_non_printable "/srv/app")) with "/srv/app".
    change (isAbsolute "/srv/app") with true. cbv iota.
    change (drop_last 1 "/srv/app") with "/srv/ap".
    change (drop_last 2 "/srv/app") with "/srv/a".
    cbn [truthy andb].
    destruct (existsSync "/srv/app"), (existsSync "/srv/ap"),
      (existsSync "/srv/a"); reflexivity. }
  split; [reflexivity|]. split; [exact E|].
  rewrite E.
  destruct (existsSync "/srv/app"), (existsSync "/srv/ap"),
    (existsSync "/srv/a"); discriminate.
Qed.

Lemma last_is_cons f c d r :
  last_is f (String c (String d r)) = last_is f (String d r).
Proof. reflexivity. Qed.

Lemma mod3_add3 n : ((3 + n) mod 3 = n mod 3)%nat.
Proof.
  replace (3 + n)%nat with (n + 1 * 3)%nat by lia.
  apply Nat.Div0.mod_add.
Qed.

(** The last character of a base64url name, read off the bytes. *)
Lemma encoded_tail_aux s :
  let P := fun s => last_is is_url_pad (toString_base64url s)
                    = (String.length s mod 3 =? 0)%nat && last_is low_six_high s in
  P s /\ (forall a, P (String a s)) /\ (forall a b, P (String a (String b s))).
Proof.
  intros P. induction s as [|c s (IH0 & IH1 & IH2)].
  - repeat split.
    + intros [a0 a1 a2 a3 a4 a5 a6 a7]. unfold P.
      destruct a0, a1; reflexivity.
    + intros [a0 a1 a2 a3 a4 a5 a6 a7] [b0 b1 b2 b3 b4 b5 b6 b7]. unfold P.
      destruct b0, b1, b2, b3; reflexivity.
  - split; [apply IH1|]. split; [intros a; apply IH2|].
    intros [a0 a1 a2 a3 a4 a5 a6 a7] [b0 b1 b2 b3 b4 b5 b6 b7]. unfold P in *.
    destruct c as [c0 c1 c2 c3 c4 c5 c6 c7].
    unfold toString_base64url in *.
    cbn [sextets_of_bytes chars_of_sextets].
    destruct s as [|d s'].
    + destruct c0, c1, c2, c3, c4, c5; reflexivity.
    + assert (Hne : exists x r,
                 chars_of_sextets (sextets_of_bytes (String d s')) = String x r).
      { pose proof (toString_base64url_truthy (String d s') eq_refl) as Ht.
        unfold toString_base64url in Ht.
        destruct (chars_of_sextets (sextets_of_bytes (String d s'))) as [|x r];
          [discriminate|now exists x, r]. }
      destruct Hne as (x & r & Hx).
      rewrite Hx in IH0 |- *. rewrite !last_is_cons. rewrite IH0.
      change (String.length
                (String (Ascii a0 a1 a2 a3 a4 a5 a6 a7)
                   (String (Ascii b0 b1 b2 b3 b4 b5 b6 b7)
                      (String (Ascii c0 c1 c2 c3 c4 c5 c6 c7) (String d s')))))
        with (3 + String.length (String d s'))%nat.
      now rewrite mod3_add3.
Qed.

Lemma low_six_printable c :
  is_printable c = true -> low_six_high c = is_gt_question_tilde c.
Proof.
  destruct c as [[] [] [] [] [] [] [] []]; intros H;
    solve [reflexivity | discriminate H].
Qed.

Lemma last_is_printable f g s :
  (forall c, is_printable c = true -> f c = g c) ->
  all_chars is_printable s = true -> last_is f s = last_is g s.
Proof.
  intros Hfg. induction s as [|c r IH]; [reflexivity|].
  intros [Hc Hr]%andb_prop. destruct r as [|d r']; [now apply Hfg|].
  rewrite !last_is_cons. now apply IH.
Qed.

Lemma encoded_name_tail p :
  all_chars is_printable p = true ->
  last_is is_url_pad (encodeProjectPathToName p) = name_ends_in_pad p.
Proof.
  intros Hp. unfold encodeProjectPathToName, name_ends_in_pad.
  rewrite (proj1 (encoded_tail_aux p)).
  now rewrite (last_is_printable _ _ p low_six_printable Hp).
Qed.

Example name_of_tilde_path : name_ends_in_pad "/srv/app~" = true.
Proof. reflexivity. Qed.

(** Where the round trip holds: on every printable absolute path that
    does not end in white space, that is not of a length divisible by three
    with ['>'], ['?'] or ['~'] as last character (the paths whose encoded
    name ends in ['-'] or ['_']), and on which the file-system probes of
    the trailing-character heuristic do not prefer a shorter path. *)
Lemma roundtrip_of_unpadded_name (existsSync : string -> bool) (p : string) :
  all_chars is_printable p = true ->
  isAbsolute p = true ->
  last_is is_ws p = false ->
  name_ends_in_pad p = false ->
  probes_keep existsSync p = true ->
  decodeProjectNameToPath existsSync (encodeProjectPathToName p) = Some p.
Proof.
  intros Hpr Habs Hws Hname Hfs.
  assert (Hpad : last_is is_url_pad (encodeProjectPathToName p) = false)
    by (now rewrite encoded_name_tail).
  assert (Hp : truthy p = true) by (destruct p; [discriminate|reflexivity]).
  unfold decodeProjectNameToPath.
  unfold encodeProjectPathToName in *.
  rewrite (toString_base64url_truthy _ Hp). cbn [negb].
  rewrite (drop_end_while_id _ _ Hpad).
  cbn [tryDecode nullish].
  rewrite from_base64_toString, Hp. cbn [negb]. rewrite Hp. cbn [negb].
  rewrite (strip_non_printable_id _ Hpr), (trim_id _ Hpr Habs Hws), Habs.
  unfold probes_keep in Hfs.
  destruct (existsSync p); [reflexivity|].
  cbn [orb] in Hfs. apply andb_prop in Hfs as [H1 H2].
  apply negb_true_iff in H1, H2. now rewrite H1, H2.
Qed.

(** The round trip of an ordinary project path, whatever exists on disk
    below it. *)
Example roundtrip_home_project :
  decodeProjectNameToPath (fun _ => false)
    (encodeProjectPathToName "/home/user/project") = Some "/home/user/project".
Proof.
  apply (roundtrip_of_unpadded_name (fun _ => false) "/home/user/project");
    reflexivity.
Qed.

End ProjectNameCodec.

Section RegistryFacts.
Import JsString Registry.

Lemma get_delete_same k m : get k (delete k m) = None.
Proof.
  induction m as [|[k' v] m IH]; simpl; [reflexivity|].
  destruct (k' =? k) eqn:E; [exact IH|]. simpl. now rewrite E.
Qed.

Lemma get_delete_other k k' m : k' <> k -> get k' (delete k m) = get k' m.
Proof.
  intros Hne. induction m as [|[k0 v] m IH]; simpl; [reflexivity|].
  destruct (k0 =? k) eqn:E.
  - apply String.eqb_eq in E. subst k0.
    destruct (k =? k') eqn:E'; [|exact IH].
    apply String.eqb_eq in E'. congruence.
  - simpl. now rewrite IH.
Qed.

Lemma has_delete_same k m : has k (delete k m) = false.
Proof. unfold has. now rewrite get_delete_same. Qed.

Lemma get_set_other k k' v m : k' <> k -> get k' (set k v m) = get k' m.
Proof.
  intros Hne. induction m as [|[k0 v0] m IH]; simpl.
  - destruct (k =? k') eqn:E; [|reflexivity].
    apply String.eqb_eq in E. congruence.
  - destruct (k0 =? k) eqn:E; simpl.
    + apply String.eqb_eq in E. subst k0.
      destruct (k =? k') eqn:E'; [|reflexivity].
      apply String.eqb_eq in E'. congruence.
    + now rewrite IH.
Qed.

Lemma get_set_same k v m : get k (set k v m) = Some v.
Proof.
  induction m as [|[k0 v0] m IH]; simpl.
  - now rewrite String.eqb_refl.
  - destruct (k0 =? k) eqn:E; simpl; now rewrite E.
Qed.

Lemma get_delete_none k k' m : get k' m = None -> get k' (delete k m) = None.
Proof.
  induction m as [|[k0 v0] m IH]; simpl; [reflexivity|].
  destruct (k0 =? k') eqn:E; [discriminate|].
  intros H. destruct (k0 =? k); [auto|]. simpl. rewrite E. auto.
Qed.

Lemma get_In k v m : get k m = Some v -> In (k, v) m.
Proof.
  induction m as [|[k0 v0] m IH]; simpl; [discriminate|].
  destruct (k0 =? k) eqn:E.
  - apply String.eqb_eq in E. intros [= ->]. left. now subst.
  - intros H. right. auto.
Qed.

Lemma find_matching_sound sid m k p :
  find_matching sid m = Some (k, p) -> In (k, p) m /\ matches sid k = true.
Proof.
  induction m as [|[k0 v0] m IH]; simpl; [discriminate|].
  destruct (matches sid k0) eqn:E.
  - intros [= -> ->]. split; [now left|exact E].
  - intros H. destruct (IH H). split; [now right|assumption].
Qed.

Lemma find_matching_none sid m :
  find_matching sid m = None <->
  (forall k, In k (keys m) -> matches sid k = false).
Proof.
  induction m as [|[k0 v0] m IH]; simpl.
  - split; [intros _ k []|reflexivity].
  - destruct (matches sid k0) eqn:E.
    + split; [discriminate|]. intros H. specialize (H k0 (or_introl eq_refl)).
      congruence.
    + rewrite IH. split.
      * intros H k [<-|Hk]; auto.
      * intros H k Hk. apply H. now right.
Qed.

Lemma resolve_none sid m :
  resolve sid m = None <->
  get sid m = None /\ (forall k, In k (keys m) -> matches sid k = false).
Proof.
  unfold resolve. destruct (get sid m) eqn:G.
  - split; [discriminate|]. now intros [? _].
  - rewrite find_matching_none. tauto.
Qed.

Lemma keys_delete k k' m : In k' (keys (delete k m)) -> In k' (keys m) /\ k' <> k.
Proof.
  induction m as [|[k0 v0] m IH]; simpl; [tauto|].
  destruct (k0 =? k) eqn:E.
  - intros H. destruct (IH H). split; [now right|assumption].
  - simpl. intros [<-|H].
    + split; [now left|]. now apply String.eqb_neq.
    + destruct (IH H). split; [now right|assumption].
Qed.

Lemma has_apply_all k ops : forall m,
  has k m = false ->
  forallb (fun o => negb (sets_key k o)) ops = true ->
  has k (apply_all ops m) = false.
Proof.
  unfold apply_all.
  induction ops as [|o ops IH]; intros m Hm Hops; simpl; [exact Hm|].
  simpl in Hops. apply andb_prop in Hops as [Ho Hops].
  apply IH; [|exact Hops].
  unfold has in *. destruct o as [k' p|k']; simpl in *.
  - apply negb_true_iff, String.eqb_neq in Ho.
    rewrite get_set_other by congruence. exact Hm.
  - destruct (get k m) eqn:G; [discriminate|].
    now rewrite get_delete_none.
Qed.

End RegistryFacts.

Section Abort.
Import JsString Registry Examples.

(** C3, as stated, fails: with the keys ["s1"] and ["s10"] registered, the
    abort of ["s1"] removes the exact key only, and the lookup of ["s1"]
    still resolves (by substring) to the remaining key. *)
Lemma C3_abort_counterexample :
  let m := [("s1", proc1); ("s10", proc2)] in
  let r := abortGeminiSession "s1" m in
  returned r = true
  /\ resolve "s1" (registry_after r) = Some ("s10", proc2).
Proof. vm_compute. split; reflexivity. Qed.

(** The fallback settles on the first registered key that matches. *)
Lemma find_matching_first sessionId : forall m k p,
  find_matching sessionId m = Some (k, p) ->
  matches sessionId k = true
  /\ exists before after,
       m = (before ++ (k, p) :: after)%list
       /\ forall k' p', In (k', p') before -> matches sessionId k' = false.
Proof.
  induction m as [|[k0 p0] m IH]; intros k p H; [discriminate|].
  cbn [find_matching] in H. destruct (matches sessionId k0) eqn:E.
  - injection H as <- <-. split; [exact E|].
    exists [], m. split; [reflexivity|]. intros k' p' [].
  - destruct (IH k p H) as (Hm & before & after & -> & Hb).
    split; [exact Hm|].
    exists ((k0, p0) :: before), after. split; [reflexivity|].
    intros k' p' [[= <- <-]|Hin]; [exact E|]. now apply (Hb k' p').
Qed.

(** C3 (amended): the handle is looked up by exact key and otherwise as the
    first registered key that contains the session id or is contained in
    it (no key registered before it matches); when one is found, exactly
    the matched key is removed before the call returns and every other
    entry is kept, so the session id no longer resolves when the matched
    key was the only key equal to it or matching it; the call returns
    [true] exactly when a handle was found and its [kill] did not raise. *)
Theorem C3_abort_amended (sessionId : string) (m : t) :
  let r := abortGeminiSession sessionId m in
  match resolve sessionId m with
  | Some (k, p) =>
      In (k, p) m
      /\ ((k = sessionId /\ get sessionId m = Some p)
          \/ (get sessionId m = None /\ matches sessionId k = true
              /\ exists before after,
                   m = (before ++ (k, p) :: after)%list
                   /\ forall k' p',
                        In (k', p') before -> matches sessionId k' = false))
      /\ has k (registry_after r) = false
      /\ (forall k', k' <> k -> get k' (registry_after r) = get k' m)
      /\ kill_calls r = [(pid p, SIGTERM)]
      /\ returned r = negb (kill_throws p)
      /\ ((forall k', In k' (keys m) -> k' <> k ->
             k' <> sessionId /\ matches sessionId k' = false) ->
          resolve sessionId (registry_after r) = None)
  | None =>
      get sessionId m = None
      /\ (forall k, In k (keys m) -> matches sessionId k = false)
      /\ registry_after r = m
      /\ kill_calls r = []
      /\ returned r = false
  end.
Proof.
  unfold abortGeminiSession.
  destruct (resolve sessionId m) as [[k p]|] eqn:R.
  - assert (Hin : In (k, p) m
                  /\ ((k = sessionId /\ get sessionId m = Some p)
                      \/ (get sessionId m = None /\ matches sessionId k = true
                          /\ exists before after,
                               m = (before ++ (k, p) :: after)%list
                               /\ forall k' p',
                                    In (k', p') before ->
                                    matches sessionId k' = false))).
    { unfold resolve in R. destruct (get sessionId m) eqn:G.
      - injection R as <- <-. split; [now apply get_In|now left].
      - pose proof (find_matching_first _ _ _ _ R) as (Hm & Hfirst).
        apply find_matching_sound in R as [? ?]. split; [assumption|].
        right. split; [reflexivity|]. split; assumption. }
    destruct Hin as [Hin Hk].
    destruct (kill_throws p); cbn [returned registry_after kill_calls negb];
      (split; [exact Hin|]; split; [exact Hk|]; split; [apply has_delete_same|];
       split; [intros k' Hne; now apply get_delete_other|];
       split; [reflexivity|]; split; [reflexivity|];
       intros Huniq; apply resolve_none; split;
         [ destruct (get sessionId (delete k m)) eqn:G; [|reflexivity];
           exfalso;
           destruct (string_dec sessionId k) as [->|Hne];
           [ now rewrite get_delete_same in G
           | rewrite get_delete_other in G by assumption;
             apply get_In in G;
             apply (in_map fst) in G; simpl in G;
             destruct (Huniq sessionId G Hne) as [Habs _]; now apply Habs ]
         | intros k' Hk'; apply keys_delete in Hk' as [Hk' Hne];
           now apply Huniq ]).
  - apply resolve_none in R as [G F]. cbn. repeat split; assumption.
Qed.

(** C10, as stated, fails: a turn that registers the same key again before
    the timer fires (a new turn of the aborted session) makes the guard of
    the callback true, and the old process receives SIGKILL. *)
Lemma C10_force_kill_counterexample :
  let r := abortGeminiSession "s1" [("s1", proc1)] in
  returned r = true
  /\ match scheduled r with
     | Some fk =>
         force_kill_callback fk
           (apply_all [OpSet "s1" proc2] (registry_after r))
         = [(1%nat, SIGKILL)]
     | None => False
     end.
Proof. vm_compute. split; reflexivity. Qed.

(** C10 (amended): when the abort finds a process and returns [true], it
    has called [kill('SIGTERM')] once and scheduled the force-kill after
    2000 ms; the callback sends nothing, whatever happens to the registry
    in between, provided the matched key is not set again before the timer
    fires; it sends SIGKILL to the aborted process when the key is
    registered at that moment. *)
Theorem C10_force_kill_amended (sessionId : string) (m : t) (ops : list Op) :
  returned (abortGeminiSession sessionId m) = true ->
  exists fk,
    scheduled (abortGeminiSession sessionId m) = Some fk
    /\ fk_delay fk = 2000%Z
    /\ kill_calls (abortGeminiSession sessionId m)
       = [(pid (fk_process fk), SIGTERM)]
    /\ has (fk_key fk) (registry_after (abortGeminiSession sessionId m)) = false
    /\ (forallb (fun o => negb (sets_key (fk_key fk) o)) ops = true ->
        force_kill_callback fk
          (apply_all ops (registry_after (abortGeminiSession sessionId m)))
        = [])
    /\ (has (fk_key fk)
            (apply_all ops (registry_after (abortGeminiSession sessionId m))) = true ->
        force_kill_callback fk
          (apply_all ops (registry_after (abortGeminiSession sessionId m)))
        = [(pid (fk_process fk), SIGKILL)]).
Proof.
  unfold abortGeminiSession.
  destruct (resolve sessionId m) as [[k p]|]; [|discriminate].
  destruct (kill_throws p); [discriminate|].
  intros _. eexists. cbn.
  repeat split; try reflexivity.
  - apply has_delete_same.
  - intros Hops. unfold force_kill_callback. cbn.
    rewrite has_apply_all; [reflexivity|apply has_delete_same|exact Hops].
  - intros Hhas. unfold force_kill_callback. cbn in Hhas |- *. now rewrite Hhas.
Qed.

(** An abort followed by the close of the aborted turn and the start of
    another session. *)
Lemma C10_force_kill_amended_witness :
  exists fk,
    scheduled (abortGeminiSession "s1" [("s1", proc1)]) = Some fk
    /\ fk_delay fk = 2000%Z
    /\ kill_calls (abortGeminiSession "s1" [("s1", proc1)])
       = [(pid (fk_process fk), SIGTERM)]
    /\ has (fk_key fk) (registry_after (abortGeminiSession "s1" [("s1", proc1)])) = false
    /\ (forallb (fun o => negb (sets_key (fk_key fk) o))
          [OpDelete "s1"; OpSet "s2" proc2] = true ->
        force_kill_callback fk
          (apply_all [OpDelete "s1"; OpSet "s2" proc2]
             (registry_after (abortGeminiSession "s1" [("s1", proc1)])))
        = [])
    /\ (has (fk_key fk)
            (apply_all [OpDelete "s1"; OpSet "s2" proc2]
               (registry_after (abortGeminiSession "s1" [("s1", proc1)]))) = true ->
        force_kill_callback fk
          (apply_all [OpDelete "s1"; OpSet "s2" proc2]
             (registry_after (abortGeminiSession "s1" [("s1", proc1)])))
        = [(pid (fk_process fk), SIGKILL)]).
Proof.
  apply (C10_force_kill_amended "s1" [("s1", proc1)]
           [OpDelete "s1"; OpSet "s2" proc2]).
  reflexivity.
Defined.

End Abort.

Section ArgumentVector.
Import JsString CommandLine Stage Turn.

Lemma mem_In x xs : mem x xs = true <-> In x xs.
Proof.
  unfold mem. rewrite existsb_exists. split.
  - intros (y & Hy & E). apply String.eqb_eq in E. now subst.
  - intros H. exists x. split; [assumption|apply String.eqb_refl].
Qed.

Lemma mem_app x xs ys : mem x (xs ++ ys) = mem x xs || mem x ys.
Proof. apply existsb_app. Qed.

Lemma NoDup_criticalTools : NoDup criticalTools.
Proof.
  unfold criticalTools.
  repeat (constructor; [simpl; intuition discriminate|]). constructor.
Qed.

Lemma push_absent_spec cs : forall acc,
  NoDup cs ->
  fold_left (fun acc tool => if mem tool acc then acc else (acc ++ [tool])%list) cs acc
  = (acc ++ filter (fun c => negb (mem c acc)) cs)%list.
Proof.
  induction cs as [|c cs IH]; intros acc Hnd; simpl.
  - now rewrite app_nil_r.
  - inversion Hnd as [|? ? Hc Hcs]; subst.
    destruct (mem c acc) eqn:M; simpl.
    + now apply IH.
    + rewrite IH by assumption. rewrite <- app_assoc. simpl.
      do 2 f_equal. apply filter_ext_in. intros x Hx.
      rewrite mem_app. simpl. 
      destruct (x =? c) eqn:E.
      * apply String.eqb_eq in E. subst. contradiction.
      * now rewrite orb_false_r.
Qed.

Lemma add_critical_spec allowed :
  add_critical allowed
  = (allowed ++ filter (fun c => negb (mem c allowed)) criticalTools)%list.
Proof. apply push_absent_spec, NoDup_criticalTools. Qed.

Lemma add_critical_nonempty allowed : add_critical allowed <> [].
Proof.
  rewrite add_critical_spec. destruct allowed as [|a l]; [|discriminate].
  discriminate.
Qed.

Example gemini_args_default :
  build_args "gemini" (Examples.new_turn "gemini") Examples.sample_env
    (stage "gemini" "/work" 0 [] []) "hi"
  = ("--model" :: "gemini-2.5-flash" :: "--allowed-tools" :: criticalTools ++ ["hi"])%list.
Proof. reflexivity. Qed.

(** C6: the argument vector of the Gemini provider.  It is the optional
    [--debug] and [--mcp-config] flags, then [--model] with the caller's
    model or ["gemini-2.5-flash"], then either [--yolo] alone or
    [--allowed-tools] with the caller's tools followed by the critical
    tools that the caller did not list (each added once, none added that
    is already there), then the prompt, last, when there is one. *)
Theorem C6_gemini_argument_vector
        (o : Options) (e : Env) (staged : Staged) (promptToUse : string) :
  let settings := settings_of (toolsSettings o) in
  let allowed := match allowedTools settings with Some l => l | None => [] end in
  let added := filter (fun c => negb (mem c allowed)) criticalTools in
  let flags :=
    ((if debug o then ["--debug"] else [])
     ++ (if mcp_first_read e && mcp_second_read e
         then ["--mcp-config"; geminiConfigPath e] else [])
     ++ ["--model"; if truthy (model o) then model o else "gemini-2.5-flash"])%list in
  build_args "gemini" o e staged promptToUse
  = (flags
     ++ (if skipPermissions settings then ["--yolo"]
         else "--allowed-tools" :: allowed ++ added)
     ++ (if truthy promptToUse then [promptToUse] else []))%list
  /\ (skipPermissions settings = true ->
      permission_args settings = ["--yolo"]
      /\ ~ In "--allowed-tools" (permission_args settings))
  /\ (forall c, In c criticalTools -> In c (allowed ++ added))
  /\ NoDup added
  /\ (forall c, In c added -> ~ In c allowed)
  /\ (NoDup allowed -> NoDup (allowed ++ added))
  /\ (truthy promptToUse = true ->
      last (build_args "gemini" o e staged promptToUse) EmptyString = promptToUse).
Proof.
  intros settings allowed added flags.
  assert (Hperm : permission_args settings
                  = if skipPermissions settings then ["--yolo"]
                    else ("--allowed-tools" :: allowed ++ added)%list).
  { unfold permission_args. destruct (skipPermissions settings); [reflexivity|].
    fold allowed. pose proof (add_critical_nonempty allowed) as Hne.
    rewrite add_critical_spec in *. fold added in Hne |- *.
    destruct (allowed ++ added)%list; [congruence|reflexivity]. }
  assert (Hargs : build_args "gemini" o e staged promptToUse
                  = (flags ++ permission_args settings
                     ++ (if truthy promptToUse then [promptToUse] else []))%list).
  { unfold build_args, provider_args, gemini_flags, mcp_args, prompt_args, or_else.
    cbn [String.eqb Ascii.eqb Bool.eqb gf_debug gf_mcp_first_read
         gf_mcp_second_read gf_geminiConfigPath gf_model].
    fold settings. subst flags. now rewrite <- !app_assoc. }
  assert (Hadded : forall c, In c added -> ~ In c allowed).
  { intros c Hc. subst added. apply filter_In in Hc as [_ Hc].
    apply negb_true_iff in Hc. intros Hin. apply mem_In in Hin. congruence. }
  assert (Hnd : NoDup added) by (apply NoDup_filter, NoDup_criticalTools).
  repeat split.
  - rewrite Hargs, Hperm. reflexivity.
  - unfold permission_args. now rewrite H.
  - unfold permission_args. rewrite H. simpl. intuition discriminate.
  - intros c Hc. apply in_or_app.
    destruct (mem c allowed) eqn:M.
    + left. now apply mem_In.
    + right. subst added. apply filter_In. split; [assumption|now rewrite M].
  - exact Hnd.
  - exact Hadded.
  - intros Hal. apply NoDup_app; try assumption.
    intros c Hc Hc'. exact (Hadded c Hc' Hc).
  - intros Hp. rewrite Hargs, Hp, !app_assoc. apply last_last.
Qed.

End ArgumentVector.

Section UnknownProvider.
Import JsString CliConfig Stage Turn.

(** C8, as stated, fails: the tag ["mistral"] is none of the supported
    providers, and the turn is not rejected; the Gemini command line is
    spawned for it and the promise stays pending. *)
Lemma C8_unknown_provider_counterexample :
  let r := spawnGemini "hi" (Examples.new_turn "mistral") Examples.sample_env [] [] in
  cliProvider (fst (fst r)) = "gemini"
  /\ settled (snd (fst r)) = None
  /\ snd r = [Spawn "gemini"
                ("--model" :: "gemini-2.5-flash" :: "--allowed-tools"
                   :: CommandLine.criticalTools ++ ["hi"])
                "/work";
              StdinEnd; StdinEnd].
Proof. vm_compute. repeat split; reflexivity. Qed.

(** C8 (amended): a provider tag that is none of ["codex"], ["claude"],
    ["webllm"] (compared in lower case) is resolved to ["gemini"]; the turn
    is not rejected and runs as a Gemini turn: the process is spawned and
    the promise is pending. *)
Theorem C8_unknown_provider_amended
        (command : string) (o : Options) (e : Env) (reg : Registry.t) (fs0 : Fs) :
  truthy (provider o) = true ->
  ~ In (toLowerCase (provider o)) ["codex"; "claude"; "webllm"] ->
  normalizeProvider (env_CLI_PROVIDER e) (provider o) = "gemini"
  /\ spawnGemini command o e reg fs0 = start "gemini" command o e reg fs0
  /\ settled (snd (fst (spawnGemini command o e reg fs0))) = None
  /\ exists args rest,
       snd (spawnGemini command o e reg fs0)
       = Spawn (cliCommand e) args (workingDir e) :: rest.
Proof.
  intros Hp Hnot.
  assert (Hn : normalizeProvider (env_CLI_PROVIDER e) (provider o) = "gemini").
  { unfold normalizeProvider. rewrite Hp. cbn [negb].
    destruct (toLowerCase (provider o) =? "codex") eqn:E1;
      [apply String.eqb_eq in E1; exfalso; apply Hnot; rewrite E1; simpl; auto|].
    destruct (toLowerCase (provider o) =? "claude") eqn:E2;
      [apply String.eqb_eq in E2; exfalso; apply Hnot; rewrite E2; simpl; auto|].
    destruct (toLowerCase (provider o) =? "webllm") eqn:E3;
      [apply String.eqb_eq in E3; exfalso; apply Hnot; rewrite E3; simpl; auto|].
    reflexivity. }
  unfold spawnGemini. rewrite Hn.
  repeat split. unfold start. cbn [snd]. eexists. eexists. reflexivity.
Qed.

(** The tag [mistral]. *)
Lemma C8_unknown_provider_amended_witness :
  normalizeProvider EmptyString "mistral" = "gemini"
  /\ spawnGemini "hi" (Examples.new_turn "mistral") Examples.sample_env [] []
     = start "gemini" "hi" (Examples.new_turn "mistral") Examples.sample_env [] []
  /\ settled (snd (fst (spawnGemini "hi" (Examples.new_turn "mistral")
                          Examples.sample_env [] []))) = None
  /\ exists args rest,
       snd (spawnGemini "hi" (Examples.new_turn "mistral") Examples.sample_env [] [])
       = Spawn "gemini" args "/work" :: rest.
Proof.
  apply (C8_unknown_provider_amended "hi" (Examples.new_turn "mistral")
           Examples.sample_env [] []).
  - reflexivity.
  - simpl. intuition discriminate.
Defined.

End UnknownProvider.

(** ** The handlers of a turn *)

Ltac break_match :=
  repeat match goal with
         | |- context [match ?x with _ => _ end] => destruct x eqn:?
         end.

Section HandlerFrames.
Import JsString Json Registry CommandLine Stage Turn.
Variable JSON_parse : string -> option json.
Variable t : Turn.

Lemma control_fields a b :
  control a = control b ->
  capturedSessionId a = capturedSessionId b
  /\ sessionCreatedSent a = sessionCreatedSent b
  /\ hasReceivedOutput a = hasReceivedOutput b
  /\ timerArmed a = timerArmed b
  /\ settled a = settled b
  /\ registry a = registry b
  /\ fs a = fs b.
Proof. unfold control. intros H. injection H. intuition congruence. Qed.

Lemma capture_thread_control event s :
  control (fst (capture_thread event s)) = control s.
Proof. unfold capture_thread. break_match; reflexivity. Qed.

Lemma agent_chunk_control event s :
  control (fst (agent_chunk t event s)) = control s.
Proof. unfold agent_chunk. break_match; reflexivity. Qed.

Lemma codex_event_control event s :
  control (fst (fst (codex_event t event s))) = control s.
Proof.
  unfold codex_event.
  pose proof (capture_thread_control event s) as H1.
  destruct (capture_thread event s) as [s1 e1].
  pose proof (agent_chunk_control event s1) as H2.
  destruct (agent_chunk t event s1) as [s2 e2].
  simpl in *. destruct event; simpl; congruence.
Qed.

Lemma codex_lines_control lines : forall s,
  control (fst (fst (codex_lines JSON_parse t lines s))) = control s.
Proof.
  induction lines as [|line rest IH]; intros s; simpl; [reflexivity|].
  destruct (negb (truthy (trim line))); [apply IH|].
  destruct (JSON_parse (trim line)) as [event|]; [|apply IH].
  pose proof (codex_event_control event s) as He.
  destruct (codex_event t event s) as [[s1 e1] thrown]. simpl in He.
  destruct thrown; [exact He|].
  specialize (IH s1).
  destruct (codex_lines JSON_parse t rest s1) as [[s2 e2] th2]. simpl in *.
  congruence.
Qed.

Lemma codex_stdout_control raw s :
  control (fst (fst (codex_stdout JSON_parse t raw s))) = control s.
Proof. unfold codex_stdout. now rewrite codex_lines_control. Qed.

Lemma plain_chunk_control text s :
  control (fst (plain_chunk t text s)) = control s.
Proof. unfold plain_chunk. destruct (truthy text); reflexivity. Qed.

Lemma gemini_stdout_control raw s :
  control (fst (gemini_stdout t raw s)) = control s.
Proof. apply plain_chunk_control. Qed.

Lemma ollama_stdout_control raw s :
  control (fst (ollama_stdout raw s)) = control s.
Proof. unfold ollama_stdout. break_match; reflexivity. Qed.

(** The provider-specific part of the stdout handler, as one function. *)
Lemma on_stdout_eq now raw s :
  exists s1 e1 thrown,
    control s1 = control (note_output raw s)
    /\ ((cliProvider t =? "codex") = true ->
        codex_stdout JSON_parse t raw (note_output raw s) = (s1, e1, thrown))
    /\ ((cliProvider t =? "codex") = false -> thrown = false)
    /\ on_stdout JSON_parse t now raw s
       = if thrown then (s1, e1)
         else (fst (new_session t now s1), (e1 ++ snd (new_session t now s1))%list).
Proof.
  unfold on_stdout.
  destruct (cliProvider t =? "codex") eqn:Ec.
  - pose proof (codex_stdout_control raw (note_output raw s)) as Hc.
    destruct (codex_stdout JSON_parse t raw (note_output raw s)) as [[s1 e1] th].
    exists s1, e1, th. simpl in Hc. repeat split; try assumption; try discriminate.
    destruct th; [reflexivity|]. now destruct (new_session t now s1).
  - destruct (cliProvider t =? "gemini").
    + pose proof (gemini_stdout_control raw (note_output raw s)) as Hc.
      destruct (gemini_stdout t raw (note_output raw s)) as [s1 e1].
      exists s1, e1, false. simpl in Hc. repeat split; try assumption; try discriminate.
      now destruct (new_session t now s1).
    + destruct (cliProvider t =? "ollama").
      * pose proof (ollama_stdout_control raw (note_output raw s)) as Hc.
        destruct (ollama_stdout raw (note_output raw s)) as [s1 e1].
        exists s1, e1, false. simpl in Hc.
        repeat split; try assumption; try discriminate.
        now destruct (new_session t now s1).
      * pose proof (plain_chunk_control (trim raw) (note_output raw s)) as Hc.
        destruct (plain_chunk t (trim raw) (note_output raw s)) as [s1 e1].
        exists s1, e1, false. simpl in Hc.
        repeat split; try assumption; try discriminate.
        now destruct (new_session t now s1).
Qed.

Lemma new_session_timer now s :
  timerArmed (fst (new_session t now s)) = timerArmed s
  /\ hasReceivedOutput (fst (new_session t now s)) = hasReceivedOutput s
  /\ settled (fst (new_session t now s)) = settled s
  /\ fs (fst (new_session t now s)) = fs s.
Proof. unfold new_session. break_match; repeat split; reflexivity. Qed.

Lemma on_stdout_disarms now raw s :
  timerArmed (fst (on_stdout JSON_parse t now raw s)) = false.
Proof.
  destruct (on_stdout_eq now raw s) as (s1 & e1 & th & Hc & _ & _ & ->).
  assert (timerArmed s1 = false) by (now inversion Hc).
  destruct th; simpl; [assumption|].
  now rewrite (proj1 (new_session_timer now s1)).
Qed.

Lemma on_close_disarms code s :
  timerArmed (fst (on_close JSON_parse t code s)) = false.
Proof.
  unfold on_close.
  assert (H : timerArmed (codex_trailing JSON_parse t (set_timerArmed false s)) = false).
  { unfold codex_trailing. break_match; reflexivity. }
  destruct (is_zero code); simpl; exact H.
Qed.

Lemma on_stderr_timer data s :
  timerArmed (fst (on_stderr t data s)) = timerArmed s
  /\ hasReceivedOutput (fst (on_stderr t data s)) = hasReceivedOutput s.
Proof. unfold on_stderr. break_match; split; reflexivity. Qed.

Lemma on_error_timer message s :
  timerArmed (fst (on_error t message s)) = timerArmed s
  /\ hasReceivedOutput (fst (on_error t message s)) = hasReceivedOutput s.
Proof. split; reflexivity. Qed.

Lemma handle_keeps_disarmed now ev s :
  timerArmed s = false -> timerArmed (fst (handle JSON_parse t now ev s)) = false.
Proof.
  intros H. destruct ev; simpl.
  - apply on_stdout_disarms.
  - now rewrite (proj1 (on_stderr_timer _ _)).
  - apply on_close_disarms.
  - exact H.
Qed.

Lemma fire_due_disarmed now s :
  timerArmed s = false -> fire_due t now s = (s, []).
Proof. unfold fire_due. now intros ->. Qed.

Lemma timer_log_disarmed events : forall s,
  timerArmed s = false ->
  timer_log JSON_parse t events s = []
  /\ timerArmed (fst (run JSON_parse t events s)) = false.
Proof.
  induction events as [|[now ev] rest IH]; intros s H; simpl; [now split|].
  unfold deliver. rewrite (fire_due_disarmed now s H).
  pose proof (handle_keeps_disarmed now ev s H) as Hh.
  destruct (handle JSON_parse t now ev s) as [s2 e2]. simpl in Hh.
  destruct (IH s2 Hh) as [IH1 IH2].
  rewrite IH1. destruct (run JSON_parse t rest s2). simpl in *. now split.
Qed.

End HandlerFrames.

Section NoOutputTimer.
Import JsString Json Registry CommandLine Stage Turn.
Variable JSON_parse : string -> option json.

Lemma timer_log_until_armed (t : Turn) (horizon : Z) (events : list (Z * Event)) :
  forall s,
  timerArmed s = true ->
  hasReceivedOutput s = false ->
  StronglySorted Z.le (map fst events) ->
  Forall (fun x => (fst x <= horizon)%Z) events ->
  timer_log_until JSON_parse t horizon events s
  = if (deadline t <=? horizon)%Z
       && forallb (fun x => (deadline t <=? fst x)%Z || negb (cancels (snd x))) events
    then timeout_effects t else [].
Proof.
  unfold timer_log_until.
  induction events as [|[now ev] rest IH]; intros s Harm Hout Hsort Hle.
  - simpl. unfold fire_due, on_timeout. rewrite Harm. simpl.
    rewrite andb_true_r.
    destruct (deadline t <=? horizon)%Z; [|reflexivity].
    simpl. now rewrite Hout.
  - simpl in Hsort. apply StronglySorted_inv in Hsort as [Hsort Hall].
    inversion Hle as [|? ? Hnow Hle']; subst. simpl in Hnow.
    cbn [timer_log run forallb fst snd]. unfold deliver.
    unfold fire_due at 1 3. rewrite Harm. cbn [andb].
    destruct (deadline t <=? now)%Z eqn:Edue.
    + (* the timer is due when this event is delivered *)
      unfold on_timeout. cbn [hasReceivedOutput set_timerArmed]. rewrite Hout.
      cbn [negb orb].
      set (s0 := set_timerArmed false s).
      assert (H0 : timerArmed s0 = false) by reflexivity.
      pose proof (handle_keeps_disarmed JSON_parse t now ev s0 H0) as Hh.
      destruct (handle JSON_parse t now ev s0) as [s2 e2]. simpl in Hh.
      destruct (timer_log_disarmed JSON_parse t rest s2 Hh) as [Hlog Hend].
      rewrite Hlog.
      destruct (run JSON_parse t rest s2) as [s3 e3]. simpl in Hend. cbn [fst].
      rewrite (fire_due_disarmed t horizon s3 Hend). cbn [snd].
      rewrite !app_nil_r.
      assert (Hh' : (deadline t <=? horizon)%Z = true).
      { apply Z.leb_le. apply Z.leb_le in Edue. lia. }
      rewrite Hh'. cbn [andb].
      assert (Hrest : forallb
                (fun x => (deadline t <=? fst x)%Z || negb (cancels (snd x))) rest
              = true).
      { apply forallb_forall. intros [n' e'] Hin. simpl.
        rewrite Forall_forall in Hall.
        assert (now <= n')%Z by (apply Hall; apply (in_map fst) in Hin; exact Hin).
        apply Z.leb_le in Edue.
        replace (deadline t <=? n')%Z with true; [reflexivity|].
        symmetry. apply Z.leb_le. lia. }
      rewrite Hrest. reflexivity.
    + (* not yet due *)
      cbn [orb app].
      destruct ev as [data|data|code|message]; cbn [cancels negb handle].
      * pose proof (on_stdout_disarms JSON_parse t now data s) as Hh.
        destruct (on_stdout JSON_parse t now data s) as [s2 e2]. simpl in Hh.
        destruct (timer_log_disarmed JSON_parse t rest s2 Hh) as [Hlog Hend].
        rewrite Hlog.
        destruct (run JSON_parse t rest s2) as [s3 e3]. simpl in Hend. cbn [fst].
        rewrite (fire_due_disarmed t horizon s3 Hend).
        now rewrite andb_false_r.
      * destruct (on_stderr_timer t data s) as [H1 H2].
        destruct (on_stderr t data s) as [s2 e2]. simpl in H1, H2.
        specialize (IH s2 ltac:(congruence) ltac:(congruence) Hsort Hle').
        destruct (run JSON_parse t rest s2) as [s3 e3]. cbn [fst] in *.
        exact IH.
      * pose proof (on_close_disarms JSON_parse t code s) as Hh.
        destruct (on_close JSON_parse t code s) as [s2 e2]. simpl in Hh.
        destruct (timer_log_disarmed JSON_parse t rest s2 Hh) as [Hlog Hend].
        rewrite Hlog.
        destruct (run JSON_parse t rest s2) as [s3 e3]. simpl in Hend. cbn [fst].
        rewrite (fire_due_disarmed t horizon s3 Hend).
        now rewrite andb_false_r.
      * destruct (on_error_timer t message s) as [H1 H2].
        destruct (on_error t message s) as [s2 e2]. simpl in H1, H2.
        specialize (IH s2 ltac:(congruence) ltac:(congruence) Hsort Hle').
        destruct (run JSON_parse t rest s2) as [s3 e3]. cbn [fst] in *.
        exact IH.
Qed.

End NoOutputTimer.

Section NoOutputTimerClaim.
Import JsString Json Registry CommandLine Stage Turn.

Lemma timer_log_in_run JSON_parse t events : forall s,
  incl (timer_log JSON_parse t events s) (snd (run JSON_parse t events s)).
Proof.
  induction events as [|[now ev] rest IH]; intros s; simpl.
  - apply incl_refl.
  - unfold deliver.
    destruct (fire_due t now s) as [s1 e1].
    destruct (handle JSON_parse t now ev s1) as [s2 e2].
    specialize (IH s2).
    destruct (run JSON_parse t rest s2) as [s3 e3]. simpl in *.
    apply incl_app; [apply incl_appl, incl_refl|].
    apply incl_appr, incl_appr. exact IH.
Qed.

(** C1, as stated, fails: output on stderr is output of the process, it
    is received and forwarded to the client, and the timer still fires
    when the window has elapsed. *)
Lemma C1_timeout_counterexample :
  let start := start "gemini" "hi" (Examples.new_turn "gemini")
                     Examples.sample_env [] [] in
  let t := fst (fst start) in
  let s := snd (fst start) in
  let events := [(1700000000101%Z, Stderr "warming up")] in
  snd (run Examples.sample_parse t events s)
    = [WsSend (GeminiError (JStr "warming up"))]
  /\ timer_log_until Examples.sample_parse t 1700000030001 events s
     = [WsSend (GeminiError (JStr "Gemini CLI timeout - no response received"));
        Kill 1 SIGTERM].
Proof. vm_compute. split; reflexivity. Qed.

(** C1 (amended): the window is 30000 ms for gemini and claude and
    120000 ms for codex, ollama and bmad, counted from the spawn.  For
    events delivered in time order and a turn observed up to [horizon], the
    timer callback acts exactly when the window has elapsed and no stdout
    data and no close was delivered before its end (stderr output does not
    count).  It then sends one timeout error and one SIGTERM, once; when
    stdout data arrives before the end of the window it never sends
    anything. *)
Theorem C1_timeout_amended
        (JSON_parse : string -> option json)
        (cliProvider command : string) (o : Options) (e : Env)
        (reg : Registry.t) (fs0 : Fs)
        (events : list (Z * Event)) (horizon : Z) :
  StronglySorted Z.le (map fst events) ->
  Forall (fun x => (fst x <= horizon)%Z) events ->
  let t := fst (fst (start cliProvider command o e reg fs0)) in
  let s := snd (fst (start cliProvider command o e reg fs0)) in
  let log := timer_log_until JSON_parse t horizon events s in
  (timeoutMs "gemini" = 30000 /\ timeoutMs "claude" = 30000
   /\ timeoutMs "codex" = 120000 /\ timeoutMs "ollama" = 120000
   /\ timeoutMs "bmad" = 120000)%Z
  /\ deadline t = (now_spawn e + timeoutMs cliProvider)%Z
  /\ log = (if (deadline t <=? horizon)%Z
               && forallb (fun x => (deadline t <=? fst x)%Z
                                    || negb (cancels (snd x))) events
            then [WsSend (GeminiError
                            (JStr (providerLabel cliProvider
                                     ++ " CLI timeout - no response received")));
                  Kill (pid (child e)) SIGTERM]
            else [])
  /\ (forall now data,
        In (now, Stdout data) events -> (now < deadline t)%Z -> log = [])
  /\ ((deadline t <= horizon)%Z ->
      forallb (fun x => negb (cancels (snd x))) events = true ->
      log = [WsSend (GeminiError
                       (JStr (providerLabel cliProvider
                                ++ " CLI timeout - no response received")));
             Kill (pid (child e)) SIGTERM])
  /\ incl (timer_log JSON_parse t events s) (snd (run JSON_parse t events s)).
Proof.
  intros Hsort Hle t s log.
  assert (Hlog : log = (if (deadline t <=? horizon)%Z
               && forallb (fun x => (deadline t <=? fst x)%Z
                                    || negb (cancels (snd x))) events
            then timeout_effects t else [])).
  { subst log. apply timer_log_until_armed; auto. }
  change (timeout_effects t)
    with [WsSend (GeminiError
                    (JStr (providerLabel cliProvider
                             ++ " CLI timeout - no response received")));
          Kill (pid (child e)) SIGTERM] in Hlog.
  split; [repeat split; reflexivity|].
  split; [reflexivity|].
  split; [exact Hlog|].
  split; [|split].
  - intros now data Hin Hnow. rewrite Hlog.
    replace (forallb _ events) with false; [now rewrite andb_false_r|].
    symmetry. apply not_true_is_false. intros Hall.
    rewrite forallb_forall in Hall. specialize (Hall _ Hin).
    cbn [fst snd cancels negb] in Hall.
    rewrite orb_false_r in Hall. apply Z.leb_le in Hall. lia.
  - intros Hh Hquiet. rewrite Hlog.
    apply Z.leb_le in Hh. rewrite Hh. cbn [andb].
    replace (forallb _ events) with true; [reflexivity|].
    symmetry. apply forallb_forall. intros x Hx.
    rewrite forallb_forall in Hquiet. rewrite (Hquiet x Hx). apply orb_true_r.
  - apply timer_log_in_run.
Qed.

(** A Codex turn whose first stdout data arrives one millisecond before the
    end of the window: the timer never acts. *)
Lemma C1_timeout_amended_witness :
  timer_log_until Examples.sample_parse
    (fst (fst (start "codex" "hi" (Examples.new_turn "codex")
                     Examples.sample_env [] [])))
    1700000200000
    [(1700000119999%Z, Stdout "x")]
    (snd (fst (start "codex" "hi" (Examples.new_turn "codex")
                     Examples.sample_env [] [])))
  = [].
Proof.
  assert (Hs : StronglySorted Z.le (map fst [(1700000119999%Z, Stdout "x")]))
    by (repeat constructor).
  assert (Hh : Forall (fun x : Z * Event => (fst x <= 1700000200000)%Z)
                      [(1700000119999%Z, Stdout "x")])
    by (repeat constructor; simpl; lia).
  destruct (C1_timeout_amended Examples.sample_parse "codex" "hi"
              (Examples.new_turn "codex") Examples.sample_env [] []
              [(1700000119999%Z, Stdout "x")] 1700000200000 Hs Hh)
    as (_ & _ & _ & Hstdout & _).
  apply (Hstdout 1700000119999%Z "x").
  - now left.
  - vm_compute. reflexivity.
Defined.

End NoOutputTimerClaim.

Section SessionEffects.
Import JsString Json Registry CommandLine Stage Turn.
Variable JSON_parse : string -> option json.
Variable t : Turn.

Lemma capture_thread_quiet event s :
  forallb quiet (snd (capture_thread event s)) = true.
Proof. unfold capture_thread. break_match; reflexivity. Qed.

Lemma emit_quiet content : quiet (emit t content) = true.
Proof. unfold emit. now destruct (hasHandler t). Qed.

Lemma agent_chunk_quiet event s :
  forallb quiet (snd (agent_chunk t event s)) = true.
Proof.
  unfold agent_chunk. break_match; simpl; rewrite ?emit_quiet; reflexivity.
Qed.

Lemma failure_notice_quiet event : forallb quiet (failure_notice event) = true.
Proof. unfold failure_notice. break_match; reflexivity. Qed.

Lemma codex_event_quiet event s :
  forallb quiet (snd (fst (codex_event t event s))) = true.
Proof.
  unfold codex_event.
  pose proof (capture_thread_quiet event s) as H1.
  destruct (capture_thread event s) as [s1 e1].
  pose proof (agent_chunk_quiet event s1) as H2.
  destruct (agent_chunk t event s1) as [s2 e2].
  pose proof (failure_notice_quiet event) as H3.
  simpl in *.
  destruct event; simpl; rewrite ?forallb_app, ?H1, ?H2, ?H3; reflexivity.
Qed.

Lemma codex_lines_quiet lines : forall s,
  forallb quiet (snd (fst (codex_lines JSON_parse t lines s))) = true.
Proof.
  induction lines as [|line rest IH]; intros s; simpl; [reflexivity|].
  destruct (negb (truthy (trim line))); [apply IH|].
  destruct (JSON_parse (trim line)) as [event|]; [|apply IH].
  pose proof (codex_event_quiet event s) as He.
  destruct (codex_event t event s) as [[s1 e1] thrown]. simpl in He.
  destruct thrown; [exact He|].
  specialize (IH s1).
  destruct (codex_lines JSON_parse t rest s1) as [[s2 e2] th2]. simpl in *.
  now rewrite forallb_app, He, IH.
Qed.

Lemma plain_chunk_quiet text s :
  forallb quiet (snd (plain_chunk t text s)) = true.
Proof.
  unfold plain_chunk. destruct (truthy text); simpl; rewrite ?emit_quiet; reflexivity.
Qed.

Lemma ollama_stdout_quiet raw s :
  forallb quiet (snd (ollama_stdout raw s)) = true.
Proof. unfold ollama_stdout. break_match; reflexivity. Qed.

Lemma on_stderr_quiet data s :
  forallb quiet (snd (on_stderr t data s)) = true.
Proof. unfold on_stderr. break_match; reflexivity. Qed.

Lemma on_close_quiet code s :
  forallb quiet (snd (on_close JSON_parse t code s)) = true.
Proof.
  unfold on_close.
  destruct (is_zero code); cbn [snd]; rewrite !forallb_app;
    repeat (apply andb_true_intro; split); break_match; reflexivity.
Qed.

Lemma on_error_quiet message s :
  forallb quiet (snd (on_error t message s)) = true.
Proof. reflexivity. Qed.

Lemma fire_due_quiet now s :
  forallb quiet (snd (fire_due t now s)) = true.
Proof. unfold fire_due, on_timeout. break_match; reflexivity. Qed.

(** The stdout handler, split into the chunk part and the new-session
    block, with all that the chunk part leaves alone. *)
Lemma on_stdout_shape now raw s :
  exists s1 e1 thrown,
    control s1 = control (note_output raw s)
    /\ forallb quiet e1 = true
    /\ thrown = negb (stdout_completes JSON_parse t raw s)
    /\ on_stdout JSON_parse t now raw s
       = if thrown then (s1, e1)
         else (fst (new_session t now s1), (e1 ++ snd (new_session t now s1))%list).
Proof.
  unfold on_stdout, stdout_completes.
  destruct (cliProvider t =? "codex") eqn:Ec.
  - pose proof (codex_stdout_control JSON_parse t raw (note_output raw s)) as Hc.
    pose proof (codex_lines_quiet
                  (removelast (split_lf (codexLineBuffer (note_output raw s) ++ raw)))
                  (set_codexLineBuffer
                     (last (split_lf (codexLineBuffer (note_output raw s) ++ raw))
                           EmptyString) (note_output raw s))) as Hq.
    fold (codex_stdout JSON_parse t raw (note_output raw s)) in Hq.
    destruct (codex_stdout JSON_parse t raw (note_output raw s)) as [[s1 e1] th].
    exists s1, e1, th. simpl in Hc, Hq. cbn [snd].
    repeat split; try assumption.
    + now rewrite negb_involutive.
    + destruct th; [reflexivity|]. now destruct (new_session t now s1).
  - destruct (cliProvider t =? "gemini").
    + pose proof (gemini_stdout_control t raw (note_output raw s)) as Hc.
      pose proof (plain_chunk_quiet
                    (trim (join NL (filter (fun line => negb (gemini_noise line))
                                           (split_lf raw))))
                    (note_output raw s)) as Hq.
      fold (gemini_stdout t raw (note_output raw s)) in Hq.
      destruct (gemini_stdout t raw (note_output raw s)) as [s1 e1].
      exists s1, e1, false. simpl in Hc, Hq. repeat split; try assumption.
      now destruct (new_session t now s1).
    + destruct (cliProvider t =? "ollama").
      * pose proof (ollama_stdout_control raw (note_output raw s)) as Hc.
        pose proof (ollama_stdout_quiet raw (note_output raw s)) as Hq.
        destruct (ollama_stdout raw (note_output raw s)) as [s1 e1].
        exists s1, e1, false. simpl in Hc, Hq.
        repeat split; try assumption.
        now destruct (new_session t now s1).
      * pose proof (plain_chunk_control t (trim raw) (note_output raw s)) as Hc.
        pose proof (plain_chunk_quiet (trim raw) (note_output raw s)) as Hq.
        destruct (plain_chunk t (trim raw) (note_output raw s)) as [s1 e1].
        exists s1, e1, false. simpl in Hc, Hq.
        repeat split; try assumption.
        now destruct (new_session t now s1).
Qed.

End SessionEffects.

Section SessionLifecycle.
Import JsString Json Registry CommandLine Stage Turn.
Variable JSON_parse : string -> option json.
Variable t : Turn.

Lemma quiet_filters l :
  forallb quiet l = true -> filter announces l = [] /\ filter creates l = [].
Proof.
  induction l as [|e l IH]; simpl; [now split|].
  intros [He Hl]%andb_prop. destruct (IH Hl) as [-> ->].
  unfold quiet in He. apply andb_prop in He as [Hc Ha].
  apply negb_true_iff in Hc, Ha. now rewrite Hc, Ha.
Qed.

Lemma run_app (a b : list (Z * Event)) : forall s,
  run JSON_parse t (a ++ b) s
  = (fst (run JSON_parse t b (fst (run JSON_parse t a s))),
     (snd (run JSON_parse t a s)
      ++ snd (run JSON_parse t b (fst (run JSON_parse t a s))))%list).
Proof.
  induction a as [|[now ev] a IH]; intros s; simpl.
  - now destruct (run JSON_parse t b s).
  - destruct (deliver JSON_parse t now ev s) as [s1 [e1 e2]].
    rewrite IH. destruct (run JSON_parse t a s1) as [s2 e3]. simpl.
    now rewrite <- !app_assoc.
Qed.

Lemma fire_due_session now s :
  sessionCreatedSent (fst (fire_due t now s)) = sessionCreatedSent s
  /\ capturedSessionId (fst (fire_due t now s)) = capturedSessionId s
  /\ fullResponse (fst (fire_due t now s)) = fullResponse s
  /\ codexLineBuffer (fst (fire_due t now s)) = codexLineBuffer s
  /\ registry (fst (fire_due t now s)) = registry s
  /\ filter writes_store (snd (fire_due t now s)) = [].
Proof.
  unfold fire_due, on_timeout. break_match; repeat split; reflexivity.
Qed.

Lemma codex_trailing_control s :
  control (codex_trailing JSON_parse t s) = control s.
Proof. unfold codex_trailing. break_match; reflexivity. Qed.

Lemma codex_trailing_idle s :
  codexLineBuffer s = EmptyString -> codex_trailing JSON_parse t s = s.
Proof.
  intros H. unfold codex_trailing. rewrite H.
  now rewrite andb_false_r.
Qed.

Lemma handle_other_session now ev s :
  is_stdout ev = false ->
  sessionCreatedSent (fst (handle JSON_parse t now ev s)) = sessionCreatedSent s
  /\ capturedSessionId (fst (handle JSON_parse t now ev s)) = capturedSessionId s
  /\ forallb quiet (snd (handle JSON_parse t now ev s)) = true.
Proof.
  destruct ev as [data|data|code|message]; [discriminate|..]; intros _; cbn [handle].
  - split; [|split]; [| |apply on_stderr_quiet];
      unfold on_stderr; break_match; reflexivity.
  - split; [|split]; [| |apply on_close_quiet].
    + unfold on_close.
      pose proof (codex_trailing_control (set_timerArmed false s)) as Hc.
      apply control_fields in Hc as (_ & Hc & _).
      destruct (is_zero code); cbn; exact Hc.
    + unfold on_close.
      pose proof (codex_trailing_control (set_timerArmed false s)) as Hc.
      apply control_fields in Hc as (Hc & _).
      destruct (is_zero code); cbn; exact Hc.
  - repeat split.
Qed.

Lemma handle_other_idle now ev s :
  is_stdout ev = false ->
  fullResponse s = EmptyString ->
  codexLineBuffer s = EmptyString ->
  fullResponse (fst (handle JSON_parse t now ev s)) = EmptyString
  /\ codexLineBuffer (fst (handle JSON_parse t now ev s)) = EmptyString
  /\ filter writes_store (snd (handle JSON_parse t now ev s)) = [].
Proof.
  destruct ev as [data|data|code|message]; [discriminate|..];
    intros _ Hf Hb; cbn [handle].
  - unfold on_stderr. break_match; repeat split; assumption.
  - unfold on_close.
    rewrite (codex_trailing_idle (set_timerArmed false s) Hb).
    cbn [fullResponse set_timerArmed]. rewrite Hf.
    cbn [truthy andb]. rewrite !andb_false_r.
    destruct (is_zero code); cbn [fst snd]; repeat split; try assumption;
      rewrite !filter_app; break_match; reflexivity.
  - repeat split; assumption.
Qed.

Lemma run_without_stdout events : forall s,
  forallb (fun x => negb (is_stdout (snd x))) events = true ->
  sessionCreatedSent (fst (run JSON_parse t events s)) = sessionCreatedSent s
  /\ capturedSessionId (fst (run JSON_parse t events s)) = capturedSessionId s
  /\ forallb quiet (snd (run JSON_parse t events s)) = true
  /\ (fullResponse s = EmptyString -> codexLineBuffer s = EmptyString ->
      filter writes_store (snd (run JSON_parse t events s)) = []).
Proof.
  induction events as [|[now ev] rest IH]; intros s Hev; simpl.
  - repeat split; reflexivity.
  - simpl in Hev. apply andb_prop in Hev as [Hev Hrest].
    apply negb_true_iff in Hev. unfold deliver.
    destruct (fire_due_session now s) as (F1 & F2 & F3 & F4 & _ & F6).
    pose proof (fire_due_quiet t now s) as Fq.
    destruct (fire_due t now s) as [s1 e1]. cbn [fst snd] in *.
    destruct (handle_other_session now ev s1 Hev) as (H1 & H2 & Hq).
    pose proof (handle_other_idle now ev s1 Hev) as Hidle.
    destruct (handle JSON_parse t now ev s1) as [s2 e2]. cbn [fst snd] in *.
    destruct (IH s2 Hrest) as (I1 & I2 & Iq & Iw).
    destruct (run JSON_parse t rest s2) as [s3 e3]. cbn [fst snd] in *.
    split; [congruence|]. split; [congruence|]. split.
    + now rewrite !forallb_app, Fq, Hq, Iq.
    + intros Hf Hb. rewrite F3 in Hidle by exact Hf.
      destruct Hidle as (J1 & J2 & J3); [congruence..|].
      rewrite !filter_app, F6, J3, Iw by assumption. reflexivity.
Qed.

Lemma new_session_skipped now s :
  sessionCreatedSent s = true -> new_session t now s = (s, []).
Proof.
  intros H. unfold new_session. rewrite H.
  now rewrite andb_false_r.
Qed.

Lemma handle_announced now ev s :
  sessionCreatedSent s = true ->
  sessionCreatedSent (fst (handle JSON_parse t now ev s)) = true
  /\ forallb quiet (snd (handle JSON_parse t now ev s)) = true.
Proof.
  intros H. destruct ev as [data|data|code|message].
  - cbn [handle].
    destruct (on_stdout_shape JSON_parse t now data s)
      as (s1 & e1 & th & Hc & Hq & _ & ->).
    assert (H1 : sessionCreatedSent s1 = true).
    { apply control_fields in Hc as (_ & Hc & _). now rewrite Hc. }
    destruct th; cbn [fst snd]; [now split|].
    rewrite (new_session_skipped now s1 H1). cbn [fst snd].
    now rewrite app_nil_r.
  - destruct (handle_other_session now (Stderr data) s eq_refl) as (A & _ & B).
    split; congruence.
  - destruct (handle_other_session now (Close code) s eq_refl) as (A & _ & B).
    split; congruence.
  - destruct (handle_other_session now (ProcError message) s eq_refl) as (A & _ & B).
    split; congruence.
Qed.

Lemma run_announced events : forall s,
  sessionCreatedSent s = true ->
  forallb quiet (snd (run JSON_parse t events s)) = true.
Proof.
  induction events as [|[now ev] rest IH]; intros s H; simpl; [reflexivity|].
  unfold deliver.
  destruct (fire_due_session now s) as (F1 & _).
  pose proof (fire_due_quiet t now s) as Fq.
  destruct (fire_due t now s) as [s1 e1]. cbn [fst snd] in *.
  destruct (handle_announced now ev s1 ltac:(congruence)) as [H1 Hq].
  destruct (handle JSON_parse t now ev s1) as [s2 e2]. cbn [fst snd] in *.
  specialize (IH s2 H1).
  destruct (run JSON_parse t rest s2) as [s3 e3]. cbn [fst snd] in *.
  now rewrite !forallb_app, Fq, Hq, IH.
Qed.

End SessionLifecycle.

Section SessionCreation.
Import JsString Json Registry CommandLine Stage Turn.
Variable JSON_parse : string -> option json.

Lemma of_Z_head z :
  exists c r, of_Z z = String c r /\ (nat_of_ascii c <= 57)%nat.
Proof.
  unfold of_Z, NilZero.string_of_int, NilZero.string_of_uint.
  destruct (Z.to_int z) as [d|d]; destruct d; simpl;
    eexists; eexists; (split; [reflexivity|vm_compute; lia]).
Qed.

Lemma sessionPrefix_head p :
  exists c r, sessionPrefix p = String c r /\ (97 <= nat_of_ascii c)%nat.
Proof.
  unfold sessionPrefix. break_match;
    eexists; eexists; (split; [reflexivity|vm_compute; lia]).
Qed.

(** A synthetic key (digits) is never a synthesized session id (a provider
    prefix, an underscore, digits). *)
Lemma synthetic_key_differs z p z' :
  (of_Z z =? sessionPrefix p ++ "_" ++ of_Z z') = false.
Proof.
  apply String.eqb_neq. intros Heq.
  destruct (of_Z_head z) as (c & r & Hz & Hc).
  destruct (sessionPrefix_head p) as (c' & r' & Hp & Hc').
  rewrite Hz, Hp in Heq. simpl in Heq. injection Heq as Hcc _. subst. lia.
Qed.

Lemma new_session_fires (t : Turn) now s :
  t_sessionId t = EmptyString ->
  sessionCreatedSent s = false ->
  capturedSessionId s = EmptyString ->
  (processKey t =? sessionPrefix (cliProvider t) ++ "_" ++ of_Z now) = false ->
  let id := sessionPrefix (cliProvider t) ++ "_" ++ of_Z now in
  new_session t now s
  = (adopt_session id
       (Registry.set id (geminiProcess t)
          (Registry.delete (processKey t) (registry s))) s,
     ([CreateSession id (or_else (t_cwd t) (t_process_cwd t)) (cliProvider t)]
      ++ (if truthy (command t) then [AddMessage id "user" (command t)] else [])
      ++ (match pendingExternalSessionId s with
          | Some ext => if truthy_json ext then [SetExternalSessionId id ext] else []
          | None => []
          end)
      ++ [WsSend (SessionCreated id)])%list).
Proof.
  intros H1 H2 H3 H4 id. unfold new_session.
  rewrite H1, H2, H3. cbn [truthy negb andb]. fold id. subst id. now rewrite H4.
Qed.

(** A turn started without a session id.  Until the first stdout data
    nothing is written to the session store and no [session-created] is
    sent.  The first stdout data whose handler runs to its end synthesizes
    the id [<provider>_<now>], creates the session, stores the user message
    when there is one, moves the registry entry from the synthetic key to
    the id and sends [session-created]; in the whole turn that event and
    [createSession] occur once.  A turn without stdout data writes nothing
    to the session store. *)
Lemma session_created_when_handler_completes
        (cliProvider command : string) (o : Options) (e : Env)
        (reg : Registry.t) (fs0 : Fs)
        (pre post : list (Z * Event)) (now : Z) (data : string) :
  sessionId o = EmptyString ->
  forallb (fun x => negb (is_stdout (snd x))) pre = true ->
  let t := fst (fst (start cliProvider command o e reg fs0)) in
  let s := snd (fst (start cliProvider command o e reg fs0)) in
  let before := run JSON_parse t pre s in
  let s1 := fst (fire_due t now (fst before)) in
  stdout_completes JSON_parse t data s1 = true ->
  let id := sessionPrefix cliProvider ++ "_" ++ of_Z now in
  let key := of_Z (now_spawn e) in
  let s2 := fst (on_stdout JSON_parse t now data s1) in
  let whole := snd (run JSON_parse t (pre ++ (now, Stdout data) :: post) s) in
  let created := CreateSession id (or_else (cwd o) (process_cwd e)) cliProvider in
  filter writes_store (snd (start cliProvider command o e reg fs0)) = []
  /\ filter writes_store (snd before) = []
  /\ filter announces (snd before) = []
  /\ processKey t = key
  /\ Registry.get key (registry s) = Some (child e)
  /\ capturedSessionId (fst before) = EmptyString
  /\ (exists chunk external,
        snd (on_stdout JSON_parse t now data s1)
        = (chunk ++ [created]
             ++ (if truthy command then [AddMessage id "user" command] else [])
             ++ external ++ [WsSend (SessionCreated id)])%list
        /\ forallb quiet chunk = true
        /\ (external = [] \/ exists ext, external = [SetExternalSessionId id ext]))
  /\ capturedSessionId s2 = id
  /\ registry s2 = Registry.set id (child e) (Registry.delete key (registry s1))
  /\ Registry.get id (registry s2) = Some (child e)
  /\ Registry.get key (registry s2) = None
  /\ filter announces whole = [WsSend (SessionCreated id)]
  /\ filter creates whole = [created]
  /\ (forall events,
        forallb (fun x => negb (is_stdout (snd x))) events = true ->
        filter writes_store (snd (run JSON_parse t events s)) = []
        /\ filter announces (snd (run JSON_parse t events s)) = []).
Proof.
  intros Hsid Hpre t s before s1 Hdone id key s2 whole created.
  assert (Ht : t_sessionId t = EmptyString) by exact Hsid.
  assert (Hkey : processKey t = key).
  { subst t key. unfold start. cbn [fst processKey]. now rewrite Hsid. }
  assert (Hs : sessionCreatedSent s = false /\ capturedSessionId s = EmptyString
               /\ fullResponse s = EmptyString /\ codexLineBuffer s = EmptyString).
  { repeat split; try reflexivity. exact Hsid. }
  destruct Hs as (Hi1 & Hi2 & Hi3 & Hi4).
  assert (Hnone : forall events,
             forallb (fun x => negb (is_stdout (snd x))) events = true ->
             sessionCreatedSent (fst (run JSON_parse t events s)) = false
             /\ capturedSessionId (fst (run JSON_parse t events s)) = EmptyString
             /\ filter writes_store (snd (run JSON_parse t events s)) = []
             /\ filter announces (snd (run JSON_parse t events s)) = []).
  { intros events Hev.
    destruct (run_without_stdout JSON_parse t events s Hev) as (A & B & C & D).
    repeat split; try congruence.
    - now apply D.
    - now apply quiet_filters. }
  destruct (Hnone pre Hpre) as (B1 & B2 & B3 & B4). fold before in B1, B2, B3, B4.
  destruct (fire_due_session t now (fst before)) as (F1 & F2 & _ & _ & F5 & _).
  fold s1 in F1, F2, F5.
  pose proof (fire_due_quiet t now (fst before)) as Fq.
  (* the handler of the first stdout data *)
  destruct (on_stdout_shape JSON_parse t now data s1)
    as (s1c & chunk & th & Hc & Hq & Hth & Hout).
  rewrite Hdone in Hth. cbn [negb] in Hth. subst th.
  apply control_fields in Hc as (C1 & C2 & _ & _ & _ & C6 & _).
  cbn [note_output capturedSessionId sessionCreatedSent registry] in C1, C2, C6.
  assert (Hdiff : (processKey t =? sessionPrefix (Turn.cliProvider t) ++ "_" ++ of_Z now)
                  = false).
  { rewrite Hkey. apply synthetic_key_differs. }
  pose proof (new_session_fires t now s1c Ht ltac:(congruence) ltac:(congruence) Hdiff)
    as Hnew.
  cbv zeta in Hnew.
  change (Turn.cliProvider t) with cliProvider in Hnew.
  change (t_cwd t) with (cwd o) in Hnew.
  change (t_process_cwd t) with (process_cwd e) in Hnew.
  change (Turn.command t) with command in Hnew.
  change (geminiProcess t) with (child e) in Hnew.
  rewrite Hkey, C6 in Hnew. fold id in Hnew. fold created in Hnew.
  rewrite Hnew in Hout. cbn [fst snd] in Hout.
  assert (Hs2 : s2 = adopt_session id
                       (Registry.set id (child e) (Registry.delete key (registry s1))) s1c).
  { subst s2. now rewrite Hout. }
  set (external := match pendingExternalSessionId s1c with
                   | Some ext => if truthy_json ext then [SetExternalSessionId id ext] else []
                   | None => []
                   end) in *.
  assert (Hext : external = [] \/ exists ext, external = [SetExternalSessionId id ext]).
  { subst external. destruct (pendingExternalSessionId s1c) as [ext|]; [|now left].
    destruct (truthy_json ext); [right; now exists ext|now left]. }
  assert (Heff : snd (on_stdout JSON_parse t now data s1)
                 = (chunk ++ [created]
                      ++ (if truthy command then [AddMessage id "user" command] else [])
                      ++ external ++ [WsSend (SessionCreated id)])%list).
  { now rewrite Hout. }
  (* the whole turn *)
  assert (Hwhole : whole
                   = (snd before ++ snd (fire_due t now (fst before))
                        ++ snd (on_stdout JSON_parse t now data s1)
                        ++ snd (run JSON_parse t post s2))%list).
  { subst whole. rewrite run_app. cbn [snd]. fold before. f_equal.
    cbn [run]. unfold deliver.
    destruct (fire_due t now (fst before)) as [sa ea] eqn:Efd.
    cbn [handle]. subst s1 s2. cbn [fst snd].
    destruct (on_stdout JSON_parse t now data sa) as [sb eb]. cbn [fst snd].
    now destruct (run JSON_parse t post sb). }
  assert (Hpost : forallb quiet (snd (run JSON_parse t post s2)) = true).
  { apply run_announced. now rewrite Hs2. }
  destruct (quiet_filters _ Hpost) as [P1 P2].
  destruct (quiet_filters _ Fq) as [T1 T2].
  destruct (quiet_filters _ Hq) as [Q1 Q2].
  destruct (run_without_stdout JSON_parse t pre s Hpre) as (_ & _ & Bq & _).
  fold before in Bq. destruct (quiet_filters _ Bq) as [_ B5].
  assert (Hext_a : filter announces external = [] /\ filter creates external = []).
  { destruct Hext as [->|[ext ->]]; now split. }
  destruct Hext_a as [X1 X2].
  repeat split.
  - unfold start. cbn [snd]. rewrite Hsid.
    rewrite andb_false_r. cbn [app filter writes_store].
    destruct (truthy command && truthy (trim command)); reflexivity.
  - exact B3.
  - exact B4.
  - exact Hkey.
  - subst s key. unfold start. cbn [snd fst registry]. rewrite Hsid.
    cbn [or_else truthy]. apply get_set_same.
  - exact B2.
  - exists chunk, external. repeat split; assumption.
  - now rewrite Hs2.
  - now rewrite Hs2.
  - rewrite Hs2. cbn [registry adopt_session]. apply get_set_same.
  - rewrite Hs2. cbn [registry adopt_session].
    rewrite get_set_other.
    + apply get_delete_same.
    + intros E. pose proof (synthetic_key_differs (now_spawn e) cliProvider now) as D.
      apply String.eqb_neq in D. apply D. subst id key. now rewrite E.
  - rewrite Hwhole, Heff, !filter_app, B4, T1, Q1, X1, P1.
    cbn [filter announces creates app].
    destruct (truthy command); reflexivity.
  - rewrite Hwhole, Heff, !filter_app, B5, T2, Q2, X2, P2.
    cbn [filter announces creates app].
    destruct (truthy command); reflexivity.
  - now apply Hnone.
  - now apply Hnone.
Qed.

End SessionCreation.

Section SessionCreationWitness.
Import JsString Json Registry CommandLine Stage Turn.

(** A Gemini turn: stderr, then two stdout chunks, then the close. *)
Example session_created_gemini_turn :
  filter announces
    (snd (run Examples.sample_parse
            (fst (fst (start "gemini" "hi" (Examples.new_turn "gemini")
                             Examples.sample_env [] [])))
            ([(1700000000100%Z, Stderr "note")]
               ++ (1700000000500%Z, Stdout "hello")
               :: [(1700000000900%Z, Stdout "again");
                   (1700000001000%Z, Close (Some 0%Z))])
            (snd (fst (start "gemini" "hi" (Examples.new_turn "gemini")
                             Examples.sample_env [] [])))))
  = [WsSend (SessionCreated "gemini_1700000000500")].
Proof.
  destruct (session_created_when_handler_completes Examples.sample_parse
              "gemini" "hi" (Examples.new_turn "gemini") Examples.sample_env [] []
              [(1700000000100%Z, Stderr "note")]
              [(1700000000900%Z, Stdout "again");
               (1700000001000%Z, Close (Some 0%Z))]
              1700000000500%Z "hello" eq_refl eq_refl eq_refl)
    as (_ & _ & _ & _ & _ & _ & _ & _ & _ & _ & _ & H & _).
  exact H.
Qed.

(** C2: a Codex turn started without a session id whose first stdout data
    is the line [null].  The line is not blank and [JSON.parse] accepts it;
    reading [event.type] of the value [null] then raises inside the
    handler, which is left before its new-session block: the output is
    noted and the timer cleared, but at this first stdout data no session
    id is synthesized, nothing is written to the session store, the
    registry entry stays under its synthetic key and no [session-created]
    is sent. *)
Theorem C2_null_line_skips_session_block :
  let begun := spawnGemini "hi" (Examples.new_turn "codex") Examples.sample_env [] [] in
  let t := fst (fst begun) in
  let s := snd (fst begun) in
  let first := on_stdout Examples.sample_parse t 1700000000500 ("null" ++ NL) s in
  cliProvider t = "codex"
  /\ t_sessionId t = EmptyString
  /\ Examples.sample_parse (trim "null") = Some JNull
  /\ stdout_completes Examples.sample_parse t ("null" ++ NL) s = false
  /\ hasReceivedOutput (fst first) = true
  /\ timerArmed (fst first) = false
  /\ snd first = []
  /\ sessionCreatedSent (fst first) = false
  /\ capturedSessionId (fst first) = EmptyString
  /\ Registry.keys (registry (fst first)) = [processKey t]
  /\ processKey t = "1700000000001".
Proof. vm_compute. repeat (split; [reflexivity|]). reflexivity. Qed.

End SessionCreationWitness.

Section CloseHandler.
Import JsString Json Registry CommandLine Stage Turn.
Variable JSON_parse : string -> option json.


Lemma of_Z_truthy z : truthy (of_Z z) = true.
Proof. destruct (of_Z_head z) as (c & r & -> & _). reflexivity. Qed.






End CloseHandler.

Section CloseClaim.
Import JsString Json Registry CommandLine Stage Turn.
Variable JSON_parse : string -> option json.



End CloseClaim.

Section LineSplitting.
Import JsString.

Lemma string_app_assoc (a b c : string) : (a ++ b) ++ c = a ++ b ++ c.
Proof. induction a as [|x a IH]; simpl; [reflexivity|now rewrite IH]. Qed.

Lemma split_lf_no_lf s : no_lf s = true -> split_lf s = [s].
Proof.
  induction s as [|c r IH]; simpl; [reflexivity|].
  intros [Hc Hr]%andb_prop. apply negb_true_iff in Hc.
  unfold no_lf in IH. rewrite Hc, (IH Hr). reflexivity.
Qed.

Lemma split_lf_line l rest :
  no_lf l = true ->
  split_lf (l ++ String LF rest) = l :: split_lf rest.
Proof.
  induction l as [|c r IH]; simpl.
  - intros _. reflexivity.
  - intros [Hc Hr]%andb_prop. apply negb_true_iff in Hc.
    unfold no_lf in IH. rewrite Hc, (IH Hr). reflexivity.
Qed.

(** Complete lines followed by a partial one are split into exactly these. *)
Lemma split_lf_unlines lines tail :
  forallb no_lf lines = true -> no_lf tail = true ->
  split_lf (unlines lines ++ tail) = (lines ++ [tail])%list.
Proof.
  induction lines as [|l ls IH]; simpl.
  - intros _. apply split_lf_no_lf.
  - intros [Hl Hls]%andb_prop Ht.
    rewrite string_app_assoc. simpl.
    rewrite (split_lf_line l _ Hl). now rewrite IH.
Qed.

Lemma split_lf_nonempty s : split_lf s <> [].
Proof.
  destruct s as [|c r]; simpl; [discriminate|].
  destruct (Ascii.eqb c LF); [discriminate|].
  destruct (split_lf r); discriminate.
Qed.

(** Every text is its complete lines followed by its last, partial line. *)
Lemma split_lf_decompose s :
  forallb no_lf (split_lf s) = true
  /\ s = unlines (removelast (split_lf s)) ++ last (split_lf s) EmptyString.
Proof.
  induction s as [|c r [IH1 IH2]]; [now split|].
  cbn [split_lf].
  pose proof (split_lf_nonempty r) as Hne.
  destruct (Ascii.eqb c LF) eqn:E.
  - apply Ascii.eqb_eq in E. subst c.
    destruct (split_lf r) as [|l ls]; [congruence|].
    split; [exact IH1|].
    change (removelast (EmptyString :: l :: ls))
      with (EmptyString :: removelast (l :: ls)).
    change (last (EmptyString :: l :: ls) EmptyString)
      with (last (l :: ls) EmptyString).
    cbn [unlines append]. now rewrite <- IH2.
  - destruct (split_lf r) as [|l ls]; [congruence|].
    cbn [forallb] in IH1 |- *. apply andb_prop in IH1 as [Hl Hls].
    split.
    + unfold no_lf in *. cbn [all_chars]. now rewrite E, Hl, Hls.
    + destruct ls as [|l2 ls].
      * cbn in IH2 |- *. now rewrite <- IH2.
      * change (removelast (String c l :: l2 :: ls))
          with (String c l :: removelast (l2 :: ls)).
        change (last (String c l :: l2 :: ls) EmptyString)
          with (last (l2 :: ls) EmptyString).
        change (removelast (l :: l2 :: ls))
          with (l :: removelast (l2 :: ls)) in IH2.
        change (last (l :: l2 :: ls) EmptyString)
          with (last (l2 :: ls) EmptyString) in IH2.
        cbn [unlines append] in IH2 |- *. now rewrite <- IH2.
Qed.


Lemma forallb_removelast {A} (f : A -> bool) l :
  forallb f l = true -> forallb f (removelast l) = true.
Proof.
  induction l as [|x l IH]; simpl; [auto|].
  intros [Hx Hl]%andb_prop. destruct l; [reflexivity|].
  simpl in *. rewrite Hx. now apply IH.
Qed.

Lemma forallb_last {A} (f : A -> bool) l d :
  l <> [] -> forallb f l = true -> f (last l d) = true.
Proof.
  induction l as [|x l IH]; [congruence|]. intros _ [Hx Hl]%andb_prop.
  destruct l; [exact Hx|]. apply IH; [discriminate|exact Hl].
Qed.


End LineSplitting.

Section CodexLines.
Import JsString Json Registry CommandLine Stage Turn.
Variable JSON_parse : string -> option json.
Variable t : Turn.







End CodexLines.

Section CodexScenario.
Import JsString Json Registry CommandLine Stage Turn.
Variable JSON_parse : string -> option json.



End CodexScenario.


Section StagedArtifacts.
Import JsString Json Registry CommandLine Stage Turn.

Lemma exists_path_filter p f fs :
  exists_path p (filter f fs) = exists_path p fs && f p.
Proof.
  unfold exists_path. induction fs as [|q fs IH]; simpl; [reflexivity|].
  destruct (f q) eqn:Fq; simpl.
  - rewrite IH. destruct (p =? q) eqn:E; simpl; [|reflexivity].
    apply String.eqb_eq in E. subst. now rewrite Fq.
  - rewrite IH. destruct (p =? q) eqn:E; simpl; [|reflexivity].
    apply String.eqb_eq in E. subst. rewrite Fq. now rewrite andb_false_r.
Qed.

Lemma exists_path_unlink_all paths : forall fs p,
  exists_path p (fold_left (fun acc q => unlink q acc) paths fs)
  = exists_path p fs && negb (existsb (String.eqb p) paths).
Proof.
  induction paths as [|q paths IH]; intros fs p; simpl.
  - now rewrite andb_true_r.
  - rewrite IH. unfold unlink. rewrite exists_path_filter.
    rewrite negb_orb, <- andb_assoc. reflexivity.
Qed.

(** What the clean-up achieves when at least one image was written: none
    of the staged files, nor the directory, nor anything below it, exists
    afterwards. *)
Lemma cleanup_removes paths d fs p :
  paths <> [] ->
  In p paths \/ p = d \/ prefix (d ++ "/") p = true ->
  exists_path p (cleanup paths (Some d) fs) = false.
Proof.
  intros Hne Hp. unfold cleanup. destruct paths as [|q paths]; [congruence|].
  unfold rm_rf. rewrite exists_path_filter, exists_path_unlink_all.
  destruct Hp as [Hin|[->|Hpre]].
  - replace (existsb (String.eqb p) (q :: paths)) with true.
    + now rewrite andb_false_r.
    + symmetry. apply existsb_exists. exists p. split; [assumption|].
      apply String.eqb_refl.
  - rewrite String.eqb_refl. now rewrite andb_false_r.
  - rewrite Hpre, orb_true_r. now rewrite andb_false_r.
Qed.

(** C7, on the code: two turns after which staged artifacts are still on
    disk.  (1) A turn whose only image is not a data URL: the directory is
    made, no file is written, and the close handler, which cleans up only
    when some file was written, leaves the directory although the turn
    resolves.  (2) A turn with a valid image whose process raises an
    [error] event: the error handler rejects the promise and removes
    nothing. *)
Theorem C7_staged_artifacts_left_behind :
  (let r := start "gemini" "hi"
              (Examples.turn_with_images "gemini" ["not-a-data-url"])
              Examples.sample_env [] [] in
   let t := fst (fst r) in
   let final := fst (run Examples.sample_parse t
                       [(1700000000500%Z, Stdout "ok");
                        (1700000000900%Z, Close (Some 0%Z))]
                       (snd (fst r))) in
   staged_paths t = []
   /\ staged_dir t = Some "/work/gemini_tmp_images/1700000000000"
   /\ settled final = Some Resolved
   /\ exists_path "/work/gemini_tmp_images/1700000000000" (fs final) = true)
  /\
  (let r := start "gemini" "hi"
              (Examples.turn_with_images "gemini" ["data:image/png;base64,AAAA"])
              Examples.sample_env [] [] in
   let t := fst (fst r) in
   let final := fst (run Examples.sample_parse t
                       [(1700000000010%Z, ProcError "spawn gemini ENOENT")]
                       (snd (fst r))) in
   staged_paths t = ["/work/gemini_tmp_images/1700000000000/image_0.png"]
   /\ settled final = Some (Rejected "spawn gemini ENOENT")
   /\ exists_path "/work/gemini_tmp_images/1700000000000/image_0.png" (fs final) = true
   /\ exists_path "/work/gemini_tmp_images/1700000000000" (fs final) = true).
Proof. vm_compute. repeat split; reflexivity. Qed.

Example close_removes_staged_image :
  let r := start "gemini" "hi"
             (Examples.turn_with_images "gemini" ["data:image/png;base64,AAAA"])
             Examples.sample_env [] [] in
  let final := fst (run Examples.sample_parse (fst (fst r))
                      [(1700000000500%Z, Stdout "ok");
                       (1700000000900%Z, Close (Some 1%Z))]
                      (snd (fst r))) in
  fs final = ["/work/gemini_tmp_images"].
Proof. vm_compute. reflexivity. Qed.

End StagedArtifacts.

Section AbortDuringTurn.
Import JsString Json Registry CommandLine Stage Turn.

(** An abort in the window of the synthetic key: the key is removed, and
    the first stdout data of the dying process registers its handle again,
    under the synthesized session id. *)
Example abort_then_first_stdout :
  let r := start "gemini" "hi" (Examples.new_turn "gemini")
                 Examples.sample_env [] [] in
  let t := fst (fst r) in
  let s := snd (fst r) in
  let a := abortGeminiSession "1700000000001" (registry s) in
  let s' := fst (on_stdout Examples.sample_parse t 1700000000500 "bye"
                   (set_registry (registry_after a) s)) in
  returned a = true
  /\ registry_after a = []
  /\ registry s' = [("gemini_1700000000500", Examples.proc1)].
Proof. vm_compute. repeat split; reflexivity. Qed.

End AbortDuringTurn.

(** * Further properties of the project-name codec *)

Section ProjectNames.
Import JsString Base64 Projects Text.

Lemma char_url_is_name_char x : is_name_char (char_url x) = true.
Proof. destruct x as [[] [] [] [] [] []]; reflexivity. Qed.

Lemma chars_of_sextets_name l : all_chars is_name_char (chars_of_sextets l) = true.
Proof.
  induction l as [|x l IH]; simpl; [reflexivity|].
  now rewrite char_url_is_name_char, IH.
Qed.

(** X1: a project name produced by [encodeProjectPathToName] is made of
    letters, digits, ['-'] and ['_'] only: it holds no ['/'], no ['.'], no
    ['='] and no white space, whatever bytes the path has. *)
Theorem X1_encoded_name_alphabet (absolutePath : string) :
  all_chars is_name_char (encodeProjectPathToName absolutePath) = true.
Proof. apply chars_of_sextets_name. Qed.

(** X2: [encodeProjectPathToName] is injective: two different paths never
    get the same project name. *)
Theorem X2_encoded_name_injective (p q : string) :
  encodeProjectPathToName p = encodeProjectPathToName q -> p = q.
Proof.
  unfold encodeProjectPathToName. intros H.
  rewrite <- (from_base64_toString p), <- (from_base64_toString q).
  now rewrite H.
Qed.

Lemma X2_encoded_name_injective_witness :
  "/srv/app" = "/srv/app".
Proof.
  apply (X2_encoded_name_injective "/srv/app" "/srv/app"). reflexivity.
Defined.

Lemma all_chars_substring f s : forall n m,
  all_chars f s = true -> all_chars f (substring n m s) = true.
Proof.
  induction s as [|c r IH]; intros n m H; simpl.
  - destruct n, m; reflexivity.
  - apply andb_prop in H as [Hc Hr].
    destruct n as [|n]; [destruct m as [|m]; [reflexivity|]|].
    + simpl. now rewrite Hc, IH.
    + now apply IH.
Qed.

Lemma strip_non_printable_all s :
  all_chars is_printable (strip_non_printable s) = true.
Proof.
  induction s as [|c r IH]; simpl; [reflexivity|].
  destruct (is_printable c) eqn:E; simpl; [now rewrite E|exact IH].
Qed.

(** X3: the path [decodeProjectNameToPath] returns is tied to the cleaned
    decoding of the name, which is what the function returns when nothing
    exists on disk.  If the name has no cleaned decoding the function
    returns nothing, whatever exists.  Otherwise the cleaned decoding holds
    printable ASCII characters only and has no white space at either end,
    and the function returns a printable path that is the cleaned decoding
    itself or, only when that one does not exist, the cleaned decoding
    without its last one or two characters, which then exists. *)
Theorem X3_decoded_path_shape (existsSync : string -> bool) (projectName : string) :
  match decodeProjectNameToPath (fun _ => false) projectName with
  | None => decodeProjectNameToPath existsSync projectName = None
  | Some decoded =>
      all_chars is_printable decoded = true
      /\ trim decoded = decoded
      /\ exists r,
          decodeProjectNameToPath existsSync projectName = Some r
          /\ all_chars is_printable r = true
          /\ (r = decoded
              \/ (existsSync decoded = false /\ existsSync r = true
                  /\ (r = drop_last 1 decoded \/ r = drop_last 2 decoded)))
  end.
Proof.
  unfold decodeProjectNameToPath.
  destruct (negb (truthy projectName)); [reflexivity|].
  match goal with
  | |- match match ?d with Some _ => _ | None => None end with _ => _ end =>
      destruct d as [bytes|]; [|reflexivity]
  end.
  destruct (negb (truthy bytes)); [reflexivity|].
  set (decoded := trim (strip_non_printable bytes)).
  assert (Hpr : all_chars is_printable decoded = true)
    by apply all_chars_trim, strip_non_printable_all.
  assert (Htrim : trim decoded = decoded).
  { apply trim_trim, printable_seven_bit, strip_non_printable_all. }
  rewrite !andb_false_r.
  assert (Hd : (if isAbsolute decoded then Some decoded else Some decoded)
               = Some decoded) by now destruct (isAbsolute decoded).
  rewrite Hd. split; [exact Hpr|]. split; [exact Htrim|].
  destruct (isAbsolute decoded); [|exists decoded; auto].
  destruct (existsSync decoded) eqn:E0; [exists decoded; auto|].
  destruct (truthy (drop_last 1 decoded) && existsSync (drop_last 1 decoded)) eqn:E1.
  { apply andb_prop in E1 as [_ E1]. exists (drop_last 1 decoded).
    split; [reflexivity|]. split; [apply all_chars_substring, Hpr|]. auto. }
  destruct (truthy (drop_last 2 decoded) && existsSync (drop_last 2 decoded)) eqn:E2.
  { apply andb_prop in E2 as [_ E2]. exists (drop_last 2 decoded).
    split; [reflexivity|]. split; [apply all_chars_substring, Hpr|]. auto. }
  exists decoded. auto.
Qed.

End ProjectNames.


(** * splitCommandArgs *)

Section SplitCommandArgs.
Import JsString CommandLine Text.

Lemma lex_step_args l c white :
  Forall (fun a => truthy a = true) (lx_args l) ->
  Forall (fun a => truthy a = true) (lx_args (lex_step l c white)).
Proof.
  intros H. unfold lex_step.
  repeat match goal with
         | |- context[if ?b then _ else _] => destruct b eqn:?
         | |- context[match ?o with Some _ => _ | None => _ end] => destruct o eqn:?
         end; cbn [lx_args]; try exact H.
  apply Forall_app. split; [exact H|]. constructor; [assumption|constructor].
Qed.

Lemma lex_args : forall input skip l,
  Forall (fun a => truthy a = true) (lx_args l) ->
  Forall (fun a => truthy a = true) (lx_args (lex skip l input)).
Proof.
  induction input as [|c r IH]; intros skip l H; [exact H|].
  cbn [lex]. destruct skip as [|k]; [|now apply IH].
  apply IH, lex_step_args, H.
Qed.

(** X4: [splitCommandArgs] never returns an empty argument, whatever the
    input: quotes around nothing, trailing backslashes and runs of white
    space add no element. *)
Theorem X4_split_no_empty_argument (input : string) :
  Forall (fun a => truthy a = true) (splitCommandArgs input).
Proof.
  unfold splitCommandArgs.
  set (l := lex _ _ input).
  assert (H : Forall (fun a => truthy a = true) (lx_args l))
    by (apply lex_args; constructor).
  destruct (truthy (lx_current l)) eqn:E; [|exact H].
  apply Forall_app. split; [exact H|]. constructor; [exact E|constructor].
Qed.

Lemma ws_not_special c :
  is_ws c = true ->
  Ascii.eqb c "\"%char = false
  /\ Ascii.eqb c (ascii_of_nat 34) = false
  /\ Ascii.eqb c "'"%char = false.
Proof.
  destruct c as [[] [] [] [] [] [] [] []]; vm_compute; intros H;
    try discriminate H; auto.
Qed.

Lemma ws_len_ws c r : is_ws c = true -> ws_len (String c r) = 1.
Proof. intros H. cbn [ws_len]. now rewrite H. Qed.

Lemma lex_step_ws_idle args c :
  is_ws c = true ->
  lex_step {| lx_args := args; lx_current := EmptyString;
              lx_quote := None; lx_escaped := false |} c true
  = {| lx_args := args; lx_current := EmptyString;
       lx_quote := None; lx_escaped := false |}.
Proof.
  intros H. destruct (ws_not_special c H) as (H1 & H2 & H3).
  unfold lex_step. cbn [lx_escaped lx_quote lx_current lx_args].
  rewrite H1, H2, H3. reflexivity.
Qed.

Lemma lex_step_ws_push args cur c :
  is_ws c = true -> truthy cur = true ->
  lex_step {| lx_args := args; lx_current := cur;
              lx_quote := None; lx_escaped := false |} c true
  = {| lx_args := (args ++ [cur])%list; lx_current := EmptyString;
       lx_quote := None; lx_escaped := false |}.
Proof.
  intros H Hc. destruct (ws_not_special c H) as (H1 & H2 & H3).
  unfold lex_step. cbn [lx_escaped lx_quote lx_current lx_args].
  rewrite H1, H2, H3, Hc. reflexivity.
Qed.

(** One white-space character of one byte, outside quotes. *)
Lemma lex_ws_cons args cur c r :
  is_ws c = true ->
  lex 0 {| lx_args := args; lx_current := cur;
           lx_quote := None; lx_escaped := false |} (String c r)
  = lex 0 (lex_step {| lx_args := args; lx_current := cur;
                       lx_quote := None; lx_escaped := false |} c true) r.
Proof.
  intros H. cbn [lex]. rewrite (ws_len_ws c r H). reflexivity.
Qed.

Lemma lex_ws_idle : forall s args rest,
  all_chars is_ws s = true ->
  lex 0 {| lx_args := args; lx_current := EmptyString;
           lx_quote := None; lx_escaped := false |} (s ++ rest)
  = lex 0 {| lx_args := args; lx_current := EmptyString;
             lx_quote := None; lx_escaped := false |} rest.
Proof.
  induction s as [|c r IH]; intros args rest H; [reflexivity|].
  simpl in H. apply andb_prop in H as [Hc Hr].
  change (String c r ++ rest) with (String c (r ++ rest)).
  rewrite lex_ws_cons, lex_step_ws_idle by exact Hc. now apply IH.
Qed.

Lemma lex_ws_push s args cur rest :
  truthy s = true -> all_chars is_ws s = true -> truthy cur = true ->
  lex 0 {| lx_args := args; lx_current := cur;
           lx_quote := None; lx_escaped := false |} (s ++ rest)
  = lex 0 {| lx_args := (args ++ [cur])%list; lx_current := EmptyString;
             lx_quote := None; lx_escaped := false |} rest.
Proof.
  destruct s as [|c r]; [discriminate|]. intros _ H Hcur.
  simpl in H. apply andb_prop in H as [Hc Hr].
  change (String c r ++ rest) with (String c (r ++ rest)).
  rewrite lex_ws_cons, lex_step_ws_push by assumption. now apply lex_ws_idle.
Qed.

Lemma string_app_nil_r (s : string) : s ++ EmptyString = s.
Proof. induction s as [|c r IH]; simpl; [reflexivity|now rewrite IH]. Qed.

Lemma push_char_app cur c r : push_char cur c ++ r = cur ++ String c r.
Proof. unfold push_char. now rewrite string_app_assoc. Qed.

Lemma lex_plain : forall w args cur rest,
  all_chars is_plain_char w = true ->
  lex 0 {| lx_args := args; lx_current := cur;
           lx_quote := None; lx_escaped := false |} (w ++ rest)
  = lex 0 {| lx_args := args; lx_current := cur ++ w;
             lx_quote := None; lx_escaped := false |} rest.
Proof.
  induction w as [|c r IH]; intros args cur rest H.
  - now rewrite string_app_nil_r.
  - simpl in H. apply andb_prop in H as [Hc Hr].
    unfold is_plain_char in Hc.
    apply andb_prop in Hc as [Hc H4]. apply andb_prop in Hc as [Hc H3].
    apply andb_prop in Hc as [Hc H2]. apply andb_prop in Hc as [H0 H1].
    apply negb_true_iff in H1, H2, H3, H4.
    change (String c r ++ rest) with (String c (r ++ rest)).
    cbn [lex]. rewrite (ws_len_seven c (r ++ rest) H0), H1.
    change (0 <? 0)%nat with false.
    unfold separates, lex_step. cbn [lx_escaped lx_quote lx_current lx_args].
    rewrite H4, H3, H2. cbn [andb orb negb].
    rewrite IH by exact Hr. now rewrite push_char_app.
Qed.

Lemma truthy_app_l a b : truthy a = true -> truthy (a ++ b) = true.
Proof. destruct a; [discriminate|reflexivity]. Qed.

Lemma lex_words sep :
  truthy sep = true -> all_chars is_ws sep = true ->
  forall ws w args rest,
  Forall (fun w => plain_word w = true) (w :: ws) ->
  lex 0 {| lx_args := args; lx_current := EmptyString;
           lx_quote := None; lx_escaped := false |} (join sep (w :: ws) ++ rest)
  = lex 0 {| lx_args := (args ++ removelast (w :: ws))%list;
             lx_current := last (w :: ws) EmptyString;
             lx_quote := None; lx_escaped := false |} rest.
Proof.
  intros Hs1 Hs2. induction ws as [|w' ws IH]; intros w args rest H.
  - inversion H as [|? ? Hw _]; subst. apply andb_prop in Hw as [_ Hw].
    cbn [join removelast last]. rewrite lex_plain by exact Hw.
    now rewrite app_nil_r.
  - inversion H as [|? ? Hw Hrest]; subst. apply andb_prop in Hw as [Hw1 Hw].
    change (join sep (w :: w' :: ws)) with (w ++ sep ++ join sep (w' :: ws)).
    rewrite !string_app_assoc.
    rewrite lex_plain by exact Hw. cbn [append].
    rewrite lex_ws_push by assumption.
    rewrite IH by exact Hrest.
    change (removelast (w :: w' :: ws)) with (w :: removelast (w' :: ws)).
    change (last (w :: w' :: ws) EmptyString) with (last (w' :: ws) EmptyString).
    now rewrite <- app_assoc.
Qed.

(** X5: words made of ordinary characters (7-bit, no white space, quote or
    backslash), separated by any non-empty run of white space and
    surrounded by any white space, are split back into exactly those
    words, in order. *)
Theorem X5_split_plain_words (lead sep trail : string) (ws : list string) :
  all_chars is_ws lead = true ->
  truthy sep = true -> all_chars is_ws sep = true ->
  all_chars is_ws trail = true ->
  Forall (fun w => plain_word w = true) ws ->
  splitCommandArgs (lead ++ join sep ws ++ trail) = ws.
Proof.
  intros Hl Hs1 Hs2 Ht Hws. unfold splitCommandArgs.
  rewrite lex_ws_idle by exact Hl.
  destruct ws as [|w ws].
  - cbn [join append]. rewrite <- (string_app_nil_r trail).
    rewrite lex_ws_idle by exact Ht. reflexivity.
  - rewrite lex_words by assumption. cbn [app].
    assert (Hlast : truthy (last (w :: ws) EmptyString) = true).
    { clear -Hws. revert w Hws. induction ws as [|w' ws IH]; intros w H.
      - inversion H as [|? ? Hw _]; subst. now apply andb_prop in Hw as [Hw _].
      - inversion H; subst. apply IH. assumption. }
    assert (Hsplit : (removelast (w :: ws) ++ [last (w :: ws) EmptyString])%list
                     = w :: ws)
      by (symmetry; apply app_removelast_last; discriminate).
    destruct trail as [|c t].
    + cbn [lex lx_current lx_args]. rewrite Hlast. exact Hsplit.
    + rewrite <- (string_app_nil_r (String c t)).
      rewrite lex_ws_push by (assumption || reflexivity).
      cbn [lex lx_current lx_args truthy]. exact Hsplit.
Qed.

Lemma X5_split_plain_words_witness :
  splitCommandArgs (" " ++ join "  " ["workflow"; "run"; "--fast"] ++ String LF EmptyString)
  = ["workflow"; "run"; "--fast"].
Proof.
  apply (X5_split_plain_words " " "  " (String LF EmptyString)
           ["workflow"; "run"; "--fast"]); try reflexivity.
  repeat constructor.
Defined.

Lemma lex_single_quoted : forall w args cur rest,
  all_chars not_single_quote w = true ->
  lex 0 {| lx_args := args; lx_current := cur;
           lx_quote := Some "'"%char; lx_escaped := false |} (w ++ rest)
  = lex 0 {| lx_args := args; lx_current := cur ++ w;
             lx_quote := Some "'"%char; lx_escaped := false |} rest.
Proof.
  induction w as [|c r IH]; intros args cur rest H.
  - now rewrite string_app_nil_r.
  - simpl in H. apply andb_prop in H as [Hc Hr].
    apply negb_true_iff in Hc.
    change (String c r ++ rest) with (String c (r ++ rest)).
    cbn [lex]. unfold separates, lex_step.
    cbn [lx_escaped lx_quote lx_current lx_args].
    change (Ascii.eqb "'"%char "'"%char) with true. cbn [negb andb].
    rewrite andb_false_r, Hc.
    rewrite IH by exact Hr. now rewrite push_char_app.
Qed.

Lemma lex_open_quote r :
  lex 0 {| lx_args := []; lx_current := EmptyString;
           lx_quote := None; lx_escaped := false |} (String "'"%char r)
  = lex 0 {| lx_args := []; lx_current := EmptyString;
             lx_quote := Some "'"%char; lx_escaped := false |} r.
Proof.
  cbn [lex]. rewrite (ws_len_seven "'"%char r eq_refl). reflexivity.
Qed.

Lemma lex_close_quote args cur r :
  lex 0 {| lx_args := args; lx_current := cur;
           lx_quote := Some "'"%char; lx_escaped := false |} (String "'"%char r)
  = lex 0 {| lx_args := args; lx_current := cur;
             lx_quote := None; lx_escaped := false |} r.
Proof. reflexivity. Qed.

(** X6: text between single quotes is taken verbatim as one argument:
    white space, double quotes and backslashes inside it are kept as they
    are.  A missing closing quote is no error: the argument then runs to
    the end of the input.  Empty quotes give no argument. *)
Theorem X6_split_single_quoted (w : string) :
  all_chars not_single_quote w = true ->
  splitCommandArgs ("'" ++ w ++ "'") = (if truthy w then [w] else [])
  /\ splitCommandArgs ("'" ++ w) = (if truthy w then [w] else []).
Proof.
  intros H. unfold splitCommandArgs.
  change ("'" ++ w ++ "'") with (String "'"%char (w ++ "'")).
  change ("'" ++ w) with (String "'"%char w).
  rewrite !lex_open_quote. split.
  - rewrite lex_single_quoted by exact H.
    cbn [append]. rewrite lex_close_quote.
    cbn [lex lx_current lx_args app]. destruct (truthy w); reflexivity.
  - pose proof (lex_single_quoted w [] EmptyString EmptyString H) as E.
    rewrite string_app_nil_r in E. rewrite E.
    cbn [append lex lx_current lx_args app]. destruct (truthy w); reflexivity.
Qed.

Lemma X6_split_single_quoted_witness :
  splitCommandArgs ("'" ++ "a \ b" ++ "'") = ["a \ b"]
  /\ splitCommandArgs ("'" ++ "a \ b") = ["a \ b"].
Proof. apply (X6_split_single_quoted "a \ b"). reflexivity. Defined.

Example split_at_unicode_space :
  splitCommandArgs ("a" ++ Samples.no_break_space ++ "b"
                      ++ Samples.line_separator ++ Samples.line_separator
                      ++ "'c" ++ Samples.no_break_space ++ "d'")
  = ["a"; "b"; "c" ++ Samples.no_break_space ++ "d"].
Proof. reflexivity. Qed.

End SplitCommandArgs.

(** * sanitizeCliOutput and stripOllamaSpinner *)

Section SanitizeFacts.
Import JsString Sanitize Text.

Lemma remove_chars_clean f s :
  all_chars (fun c => negb (f c)) (remove_chars f s) = true.
Proof.
  induction s as [|c r IH]; simpl; [reflexivity|].
  destruct (f c) eqn:E; [exact IH|]. simpl. now rewrite E, IH.
Qed.

Lemma remove_chars_id f s :
  all_chars (fun c => negb (f c)) s = true -> remove_chars f s = s.
Proof.
  induction s as [|c r IH]; simpl; [reflexivity|].
  intros [Hc Hr]%andb_prop. apply negb_true_iff in Hc. now rewrite Hc, IH.
Qed.

Lemma remove_escapes_id m s :
  all_chars (fun c => negb (Ascii.eqb c ESC)) s = true ->
  remove_escapes m 0 s = s.
Proof.
  induction s as [|c r IH]; simpl; [reflexivity|].
  intros [Hc Hr]%andb_prop. apply negb_true_iff in Hc. now rewrite Hc, IH.
Qed.

Lemma remove_escapes_app m pre s :
  all_chars (fun c => negb (Ascii.eqb c ESC)) pre = true ->
  remove_escapes m 0 (pre ++ s) = pre ++ remove_escapes m 0 s.
Proof.
  induction pre as [|c r IH]; simpl; [reflexivity|].
  intros [Hc Hr]%andb_prop. apply negb_true_iff in Hc. now rewrite Hc, IH.
Qed.

Lemma control_free_no_esc c :
  negb (is_control c) = true -> negb (Ascii.eqb c ESC) = true.
Proof.
  destruct c as [[] [] [] [] [] [] [] []]; vm_compute; intros H;
    try discriminate H; reflexivity.
Qed.

Lemma text_char_facts c :
  is_text_char c = true ->
  negb (is_control c) = true /\ (nat_of_ascii c =? 226)%nat = false.
Proof.
  destruct c as [[] [] [] [] [] [] [] []]; vm_compute; intros H;
    try discriminate H; auto.
Qed.

Lemma sanitize_clean_id s :
  all_chars (fun c => negb (is_control c)) s = true ->
  sanitizeCliOutput s = s.
Proof.
  intros H. unfold sanitizeCliOutput.
  destruct s as [|c r]; [reflexivity|]. cbn [truthy negb].
  assert (He : all_chars (fun c => negb (Ascii.eqb c ESC)) (String c r) = true)
    by (revert H; apply all_chars_impl, control_free_no_esc).
  rewrite (remove_escapes_id match_csi _ He), (remove_escapes_id match_osc _ He),
    (remove_escapes_id match_charset _ He).
  now apply remove_chars_id.
Qed.


(** X8: [sanitizeCliOutput] is idempotent: sanitising a sanitised text
    changes nothing, although each of its four replacements is a single
    pass. *)
Theorem X8_sanitize_idempotent (output : string) :
  sanitizeCliOutput (sanitizeCliOutput output) = sanitizeCliOutput output.
Proof.
  apply sanitize_clean_id.
  unfold sanitizeCliOutput. destruct (negb (truthy output)); [reflexivity|].
  apply remove_chars_clean.
Qed.

Lemma stripOllamaSpinner_cons a r :
  (nat_of_ascii a =? 226)%nat = false ->
  stripOllamaSpinner (String a r) = String a (stripOllamaSpinner r).
Proof.
  intros H. destruct r as [|b [|c r']]; cbn [stripOllamaSpinner];
    rewrite ?H; reflexivity.
Qed.

Lemma stripOllamaSpinner_text s :
  all_chars is_text_char s = true -> stripOllamaSpinner s = s.
Proof.
  induction s as [|a r IH]; [reflexivity|].
  intros H. simpl in H. apply andb_prop in H as [Ha Hr].
  destruct (text_char_facts a Ha) as [_ Hn].
  rewrite stripOllamaSpinner_cons by exact Hn. now rewrite IH.
Qed.

(** X9: a text of printable ASCII characters, tabs, line feeds and carriage
    returns passes through [sanitizeCliOutput] and through
    [stripOllamaSpinner] unchanged. *)
Theorem X9_plain_text_unchanged (output : string) :
  all_chars is_text_char output = true ->
  sanitizeCliOutput output = output
  /\ stripOllamaSpinner output = output
  /\ stripOllamaSpinner (sanitizeCliOutput output) = output.
Proof.
  intros H.
  assert (Hs : sanitizeCliOutput output = output).
  { apply sanitize_clean_id. revert H. apply all_chars_impl.
    intros c Hc. apply (text_char_facts c Hc). }
  rewrite Hs. repeat split; apply stripOllamaSpinner_text, H.
Qed.

Lemma X9_plain_text_unchanged_witness :
  sanitizeCliOutput "fn main() { }" = "fn main() { }"
  /\ stripOllamaSpinner "fn main() { }" = "fn main() { }"
  /\ stripOllamaSpinner (sanitizeCliOutput "fn main() { }") = "fn main() { }".
Proof. apply (X9_plain_text_unchanged "fn main() { }"). reflexivity. Defined.

Lemma remove_escapes_skip m : forall a b,
  remove_escapes m (String.length a) (a ++ b) = remove_escapes m 0 b.
Proof. induction a as [|c a IH]; intros b; simpl; [reflexivity|apply IH]. Qed.

Lemma count_while_app f : forall a b,
  all_chars f a = true -> count_while f b = 0 ->
  count_while f (a ++ b) = String.length a.
Proof.
  induction a as [|c a IH]; intros b Ha Hb; simpl; [exact Hb|].
  simpl in Ha. apply andb_prop in Ha as [Hc Ha].
  now rewrite Hc, IH.
Qed.

Lemma drop_app : forall a b, drop (String.length a) (a ++ b) = b.
Proof.
  induction a as [|c a IH]; intros b; simpl; [now destruct b|apply IH].
Qed.

Lemma drop_add : forall n m s, drop (n + m) s = drop m (drop n s).
Proof.
  induction n as [|n IH]; intros m s; simpl.
  - now destruct s.
  - destruct s as [|c r]; [now destruct m|apply IH].
Qed.

Lemma string_length_app : forall a b,
  String.length (a ++ b) = String.length a + String.length b.
Proof. induction a as [|c a IH]; intros b; simpl; [reflexivity|now rewrite IH]. Qed.

Lemma class_facts c :
  (is_final c = true -> is_intermediate c = false /\ is_param c = false)
  /\ (is_intermediate c = true -> is_param c = false)
  /\ (is_text_char c = true ->
      Ascii.eqb c ESC = false /\ Ascii.eqb c BEL = false).
Proof.
  destruct c as [[] [] [] [] [] [] [] []]; vm_compute;
    (split; [|split]); intros H; try discriminate H; auto.
Qed.

Lemma match_csi_sequence params inter f post :
  all_chars is_param params = true ->
  all_chars is_intermediate inter = true ->
  is_final f = true ->
  match_csi (String "["%char (params ++ inter ++ String f post))
  = Some (String.length (String "["%char (params ++ inter ++ String f EmptyString))).
Proof.
  intros Hp Hi Hf.
  destruct (class_facts f) as (Hfin & _ & _).
  destruct (Hfin Hf) as [Hfi Hfp].
  assert (Hstop : count_while is_param (inter ++ String f post) = 0).
  { destruct inter as [|c inter]; simpl; [now rewrite Hfp|].
    simpl in Hi. apply andb_prop in Hi as [Hc _].
    destruct (class_facts c) as (_ & Hint & _). now rewrite (Hint Hc). }
  cbn [match_csi].
  rewrite (count_while_app is_param params _ Hp Hstop).
  rewrite drop_app.
  assert (Hni : count_while is_intermediate (inter ++ String f post)
                = String.length inter)
    by (apply count_while_app; [exact Hi|simpl; now rewrite Hfi]).
  rewrite Hni, drop_add, !drop_app, Hf.
  cbn [String.length]. rewrite !string_length_app. cbn [String.length].
  f_equal. lia.
Qed.

Lemma first_bel_app : forall title post,
  all_chars (fun c => negb (Ascii.eqb c BEL)) title = true ->
  first_bel (title ++ String BEL post) = Some (String.length title).
Proof.
  induction title as [|c t IH]; intros post H; simpl.
  - reflexivity.
  - simpl in H. apply andb_prop in H as [Hc Ht].
    apply negb_true_iff in Hc. now rewrite Hc, IH.
Qed.

Lemma text_no_esc s :
  all_chars is_text_char s = true ->
  all_chars (fun c => negb (Ascii.eqb c ESC)) s = true.
Proof.
  apply all_chars_impl. intros c Hc.
  destruct (class_facts c) as (_ & _ & H). now destruct (H Hc) as [-> _].
Qed.

Lemma text_no_bel s :
  all_chars is_text_char s = true ->
  all_chars (fun c => negb (Ascii.eqb c BEL)) s = true.
Proof.
  apply all_chars_impl. intros c Hc.
  destruct (class_facts c) as (_ & _ & H). now destruct (H Hc) as [_ ->].
Qed.

Lemma text_sanitize s :
  all_chars is_text_char s = true -> remove_chars is_control s = s.
Proof.
  intros H. apply remove_chars_id. revert H. apply all_chars_impl.
  intros c Hc. apply (text_char_facts c Hc).
Qed.

Lemma remove_escapes_esc m r :
  remove_escapes m 0 (String ESC r)
  = match m r with
    | Some k => remove_escapes m k r
    | None => String ESC (remove_escapes m 0 r)
    end.
Proof. reflexivity. Qed.

(** X10: an escape sequence between two plain texts is removed and the
    texts are joined: a CSI sequence (ESC, a bracket, parameter characters,
    intermediate characters, a final character), and an OSC sequence (ESC,
    a closing bracket, a plain title, BEL). *)
Theorem X10_sanitize_removes_sequences
  (pre params inter title post : string) (f : ascii) :
  all_chars is_text_char pre = true ->
  all_chars is_param params = true ->
  all_chars is_intermediate inter = true ->
  is_final f = true ->
  all_chars is_text_char title = true ->
  all_chars is_text_char post = true ->
  sanitizeCliOutput
    (pre ++ String ESC (String "["%char (params ++ inter ++ String f post)))
  = pre ++ post
  /\ sanitizeCliOutput
       (pre ++ String ESC (String "]"%char (title ++ String BEL post)))
     = pre ++ post.
Proof.
  intros Hpre Hp Hi Hf Htitle Hpost.
  assert (Hall : all_chars is_text_char (pre ++ post) = true)
    by (rewrite all_chars_app, Hpre, Hpost; reflexivity).
  assert (Hclean : forall m, remove_escapes m 0 (pre ++ post) = pre ++ post)
    by (intros m; apply remove_escapes_id, text_no_esc, Hall).
  split; unfold sanitizeCliOutput.
  - assert (Ht : truthy (pre ++ String ESC (String "["%char
                   (params ++ inter ++ String f post))) = true)
      by (destruct pre; reflexivity).
    rewrite Ht. cbn [negb].
    rewrite (remove_escapes_app match_csi) by apply text_no_esc, Hpre.
    rewrite remove_escapes_esc, match_csi_sequence by assumption.
    assert (Hseq : String "["%char (params ++ inter ++ String f post)
                   = String "["%char (params ++ inter ++ String f EmptyString)
                     ++ post).
    { cbn [append]. f_equal. rewrite !string_app_assoc. reflexivity. }
    rewrite Hseq, remove_escapes_skip.
    rewrite (remove_escapes_id match_csi post) by apply text_no_esc, Hpost.
    rewrite !Hclean. apply text_sanitize, Hall.
  - assert (Ht : truthy (pre ++ String ESC (String "]"%char
                   (title ++ String BEL post))) = true)
      by (destruct pre; reflexivity).
    rewrite Ht. cbn [negb].
    rewrite (remove_escapes_app match_csi) by apply text_no_esc, Hpre.
    rewrite remove_escapes_esc.
    change (match_csi (String "]"%char (title ++ String BEL post))) with (@None nat).
    cbv iota.
    assert (Hrest : remove_escapes match_csi 0
                      (String "]"%char (title ++ String BEL post))
                    = String "]"%char (title ++ String BEL post)).
    { apply remove_escapes_id. cbn [all_chars].
      rewrite all_chars_app. cbn [all_chars].
      rewrite (text_no_esc _ Htitle), (text_no_esc _ Hpost). reflexivity. }
    rewrite Hrest.
    rewrite (remove_escapes_app match_osc) by apply text_no_esc, Hpre.
    rewrite remove_escapes_esc.
    cbn [match_osc]. rewrite first_bel_app by apply text_no_bel, Htitle.
    assert (Hseq : String "]"%char (title ++ String BEL post)
                   = String "]"%char (title ++ String BEL EmptyString) ++ post).
    { cbn [append]. f_equal. rewrite !string_app_assoc. reflexivity. }
    assert (Hlen : 1 + String.length title + 1
                   = String.length (String "]"%char (title ++ String BEL EmptyString))).
    { cbn [String.length]. rewrite string_length_app. cbn [String.length]. lia. }
    rewrite Hlen, Hseq, remove_escapes_skip.
    rewrite (remove_escapes_id match_osc post) by apply text_no_esc, Hpost.
    rewrite !Hclean. apply text_sanitize, Hall.
Qed.

Lemma X10_sanitize_removes_sequences_witness :
  sanitizeCliOutput
    ("ok " ++ String ESC (String "["%char ("1;32" ++ EmptyString ++ String "m"%char "done")))
  = "ok " ++ "done"
  /\ sanitizeCliOutput
       ("ok " ++ String ESC (String "]"%char ("0;title" ++ String BEL "done")))
     = "ok " ++ "done".
Proof.
  apply (X10_sanitize_removes_sequences "ok " "1;32" EmptyString "0;title" "done" "m"%char);
    reflexivity.
Defined.

End SanitizeFacts.

(** * The command line of a turn, by provider *)

Section TurnCommandLine.
Import JsString Json Registry CommandLine Stage Turn Variants Text.

(** X11: a resumed Codex turn with a command that is not blank (it holds
    a character other than white space, Unicode white space included)
    either resumes the external thread or replays the conversation, never
    both: its arguments are those of a new conversation followed, when the
    session has an external id, by [resume], that id and the bare command,
    and otherwise by the conversation context with the command appended. *)
Theorem X11_codex_resume_or_context
  (command : string) (o : Options) (e : Env) (reg : Registry.t) (fs0 : Fs) :
  truthy (trim command) = true ->
  truthy (sessionId o) = true ->
  hd_error (snd (start "codex" command o e reg fs0))
  = Some (Spawn (cliCommand e)
            (provider_args "codex" (without_session o) e
               (stage "codex" (workingDir e) (now_stage e) (images o) fs0)
             ++ (if truthy (externalSessionId e)
                 then ["resume"; externalSessionId e; command]
                 else [(conversationContext e ++ command)%string]))%list
            (workingDir e)).
Proof.
  intros Hc Hs. pose proof (trim_truthy _ Hc) as Hc'.
  unfold start. cbn [snd app hd_error]. do 2 f_equal.
  unfold build_args, with_image_note, construct_prompt, provider_args.
  cbn [String.eqb Ascii.eqb Bool.eqb negb andb without_session sessionId
       toolsSettings model truthy].
  rewrite Hc, Hc', Hs. cbn [andb negb].
  rewrite <- !app_assoc. do 4 f_equal.
  destruct (truthy (externalSessionId e)) eqn:He; cbn [negb].
  - unfold prompt_args. rewrite Hc'. reflexivity.
  - unfold prompt_args.
    destruct (conversationContext e) as [|c ctx] eqn:Ectx; cbn [truthy append].
    + rewrite Hc'. reflexivity.
    + reflexivity.
Qed.

Lemma X11_codex_resume_or_context_witness :
  hd_error (snd (start "codex" "next step"
                   (Examples.resumed_turn "codex" "s1") Examples.sample_env [] []))
  = Some (Spawn (cliCommand Examples.sample_env)
            (provider_args "codex"
               (without_session (Examples.resumed_turn "codex" "s1"))
               Examples.sample_env
               (stage "codex" (workingDir Examples.sample_env)
                  (now_stage Examples.sample_env)
                  (images (Examples.resumed_turn "codex" "s1")) [])
             ++ (if truthy (externalSessionId Examples.sample_env)
                 then ["resume"; externalSessionId Examples.sample_env; "next step"]
                 else [(conversationContext Examples.sample_env ++ "next step")%string]))%list
            (workingDir Examples.sample_env)).
Proof.
  apply (X11_codex_resume_or_context "next step"
           (Examples.resumed_turn "codex" "s1") Examples.sample_env [] []);
    reflexivity.
Defined.

(** X12: whatever the provider option and [CLI_PROVIDER], the tag a turn
    resolves to is one of gemini, codex, claude and webllm, never ollama or
    bmad; so the command is never split into several arguments: the prompt
    (the command, with the conversation context before it and the note on
    the images after it where they apply) is passed to the CLI as one
    argument, the last one, and there is one exactly when the command is
    not blank. *)
Theorem X12_prompt_is_one_argument
  (command : string) (o : Options) (e : Env) (reg : Registry.t) (fs0 : Fs) :
  let tag := CliConfig.normalizeProvider (env_CLI_PROVIDER e) (provider o) in
  let staged := stage tag (workingDir e) (now_stage e) (images o) fs0 in
  let promptToUse :=
    with_image_note tag staged (construct_prompt tag command o e) in
  In tag CliConfig.supported
  /\ hd_error (snd (spawnGemini command o e reg fs0))
     = Some (Spawn (cliCommand e)
               (provider_args tag o e staged
                ++ (if truthy promptToUse then [promptToUse] else []))%list
               (workingDir e))
  /\ truthy promptToUse = truthy (trim command).
Proof.
  intros tag staged promptToUse.
  pose proof (normalizeProvider_supported (env_CLI_PROVIDER e) (provider o)) as Hin.
  fold tag in Hin.
  assert (Hb : (tag =? "bmad") = false).
  { destruct Hin as [<-|[<-|[<-|[<-|[]]]]]; reflexivity. }
  split; [exact Hin|]. split.
  - unfold spawnGemini. fold tag. unfold start. cbn [snd app hd_error].
    do 2 f_equal. unfold build_args. fold staged. fold promptToUse.
    unfold prompt_args. now rewrite Hb.
  - subst promptToUse. unfold with_image_note, construct_prompt.
    destruct (truthy (trim command)) eqn:Hc.
    + rewrite (trim_truthy _ Hc). cbn [andb].
      assert (Hp : forall p, truthy p = true ->
                  truthy (if negb (tag =? "codex")
                             && negb (Nat.eqb (List.length (tempImagePaths staged)) 0)
                             && truthy p
                          then p ++ imageNote staged else p) = true).
      { intros p Hp. destruct (_ && _); [now apply truthy_app_l|exact Hp]. }
      pose proof (trim_truthy _ Hc) as Hc'.
      apply Hp. rewrite Hb.
      destruct (truthy (sessionId o)); [|exact Hc'].
      destruct (negb (truthy _)); [|exact Hc'].
      destruct (truthy (conversationContext e)) eqn:Hx; [|exact Hc'].
      now apply truthy_app_l.
    + rewrite andb_false_r. cbn [truthy]. now rewrite andb_false_r.
Qed.

(** X13: with a blank command no prompt is passed, and for the providers
    other than Codex the attached images then leave no trace on the
    command line: the arguments are those of the same turn without
    images. *)
Theorem X13_blank_command_no_prompt
  (cliProvider command : string) (o : Options) (e : Env)
  (reg : Registry.t) (fs0 : Fs) :
  truthy (trim command) = false ->
  hd_error (snd (start cliProvider command o e reg fs0))
  = Some (Spawn (cliCommand e)
            (provider_args cliProvider o e
               (stage cliProvider (workingDir e) (now_stage e) (images o) fs0))
            (workingDir e))
  /\ ((cliProvider =? "codex") = false ->
      hd_error (snd (start cliProvider command o e reg fs0))
      = hd_error (snd (start cliProvider command (without_images o) e reg fs0))).
Proof.
  intros Hc.
  assert (Hp : forall o', construct_prompt cliProvider command o' e = EmptyString).
  { intros o'. unfold construct_prompt. rewrite Hc, andb_false_r. reflexivity. }
  assert (Hn : forall st, with_image_note cliProvider st EmptyString = EmptyString).
  { intros st. unfold with_image_note. cbn [truthy]. now rewrite andb_false_r. }
  split.
  - unfold start. cbn [snd app hd_error]. do 2 f_equal.
    unfold build_args. rewrite Hp, Hn. unfold prompt_args. cbn [truthy].
    apply app_nil_r.
  - intros Hcodex. unfold start. cbn [snd app hd_error]. do 2 f_equal.
    unfold build_args. rewrite !Hp, !Hn. f_equal.
    unfold provider_args. rewrite Hcodex. reflexivity.
Qed.

Lemma X13_blank_command_no_prompt_witness :
  hd_error (snd (start "gemini" "  "
                   (Examples.turn_with_images "gemini" ["data:image/png;base64,AA"])
                   Examples.sample_env [] []))
  = hd_error (snd (start "gemini" "  "
                     (without_images
                        (Examples.turn_with_images "gemini" ["data:image/png;base64,AA"]))
                     Examples.sample_env [] [])).
Proof.
  apply (X13_blank_command_no_prompt "gemini" "  "
           (Examples.turn_with_images "gemini" ["data:image/png;base64,AA"])
           Examples.sample_env [] []); reflexivity.
Defined.

End TurnCommandLine.

(** * Occurrences of a text in another *)

Section Includes.
Import JsString Turn.

Lemma includes_unfold s sub :
  includes s sub
  = (prefix sub s
     || match s with
        | EmptyString => false
        | String _ r => includes r sub
        end).
Proof. destruct s; reflexivity. Qed.

Lemma prefix_app m b : prefix m (m ++ b) = true.
Proof.
  induction m as [|c m IH]; [now destruct b|]. cbn [prefix append].
  destruct (ascii_dec c c) as [_|N]; [exact IH|now destruct N].
Qed.

Lemma prefix_elim : forall m s, prefix m s = true -> exists b, s = m ++ b.
Proof.
  induction m as [|c m IH]; intros s H; [now exists s|].
  destruct s as [|d s]; [discriminate|]. cbn [prefix] in H.
  destruct (ascii_dec c d) as [<-|N]; [|discriminate].
  destruct (IH s H) as [b ->]. now exists b.
Qed.

Lemma includes_intro : forall a m b, includes (a ++ m ++ b) m = true.
Proof.
  induction a as [|c a IH]; intros m b; rewrite includes_unfold.
  - cbn [append]. now rewrite prefix_app.
  - cbn [append]. rewrite IH. apply orb_true_r.
Qed.

Lemma includes_elim : forall s m,
  includes s m = true -> exists a b, s = a ++ m ++ b.
Proof.
  induction s as [|c s IH]; intros m H; rewrite includes_unfold in H;
    apply orb_prop in H as [H|H].
  - apply prefix_elim in H as [b ->]. now exists EmptyString, b.
  - discriminate.
  - apply prefix_elim in H as [b ->]. now exists EmptyString, b.
  - destruct (IH m H) as (a & b & ->). now exists (String c a), b.
Qed.

Lemma append_assoc (a b c : string) : (a ++ b) ++ c = a ++ b ++ c.
Proof. induction a as [|x a IH]; simpl; [reflexivity|now rewrite IH]. Qed.

(** What occurs in a segment of a text occurs in the text. *)
Lemma includes_segment pre x post m :
  includes x m = true -> includes (pre ++ x ++ post) m = true.
Proof.
  intros H. apply includes_elim in H as (a & b & ->).
  replace (pre ++ (a ++ m ++ b) ++ post) with ((pre ++ a) ++ m ++ (b ++ post))
    by now rewrite !append_assoc.
  apply includes_intro.
Qed.

Lemma includes_trim s m : includes (trim s) m = true -> includes s m = true.
Proof.
  intros H. destruct (trim_segment s) as (pre & post & E).
  rewrite E. now apply includes_segment.
Qed.

Lemma prefix_before_lf : forall m x rest,
  no_lf m = true -> prefix m (x ++ String LF rest) = true -> prefix m x = true.
Proof.
  induction m as [|a m IH]; intros x rest Hm H; [now destruct x|].
  cbn [no_lf all_chars] in Hm. apply andb_prop in Hm as [Ha Hm].
  apply negb_true_iff, Ascii.eqb_neq in Ha.
  destruct x as [|c x]; cbn [append prefix] in H |- *.
  - destruct (ascii_dec a LF) as [E|_]; [now destruct Ha|discriminate].
  - destruct (ascii_dec a c) as [_|_]; [|discriminate].
    now apply (IH x rest).
Qed.

(** A text without line feed that occurs in two joined pieces occurs in
    one of them. *)
Lemma includes_across_lf m : forall x rest,
  no_lf m = true -> truthy m = true ->
  includes (x ++ String LF rest) m = true ->
  includes x m = true \/ includes rest m = true.
Proof.
  intros x rest Hm Ht. induction x as [|c x IH]; intros H;
    rewrite includes_unfold in H; cbn [append] in H;
    apply orb_prop in H as [H|H].
  - apply (prefix_before_lf m EmptyString rest Hm) in H.
    destruct m; discriminate.
  - now right.
  - left. rewrite includes_unfold.
    now rewrite (prefix_before_lf m (String c x) rest Hm H).
  - destruct (IH H) as [G|G]; [left|now right].
    rewrite includes_unfold, G. apply orb_true_r.
Qed.

Lemma includes_join m : forall ls,
  no_lf m = true -> truthy m = true ->
  forallb (fun l => negb (includes l m)) ls = true ->
  includes (join NL ls) m = false.
Proof.
  intros ls Hm Ht. induction ls as [|l ls IH]; intros H.
  - destruct m; [discriminate|reflexivity].
  - cbn [forallb] in H. apply andb_prop in H as [Hl Hls].
    apply negb_true_iff in Hl.
    destruct ls as [|l' ls]; [exact Hl|].
    change (join NL (l :: l' :: ls)) with (l ++ String LF (join NL (l' :: ls))).
    destruct (includes (l ++ String LF (join NL (l' :: ls))) m) eqn:E;
      [|reflexivity].
    apply (includes_across_lf m l _ Hm Ht) in E as [E|E].
    + congruence.
    + rewrite (IH Hls) in E. discriminate.
Qed.

Lemma unlines_segment l : forall ls,
  In l ls -> exists pre post, unlines ls = pre ++ l ++ post.
Proof.
  induction ls as [|x ls IH]; [intros []|intros [<-|H]].
  - exists EmptyString, (String LF (unlines ls)). reflexivity.
  - destruct (IH H) as (pre & post & E).
    exists (x ++ String LF pre), post. cbn [unlines].
    now rewrite E, append_assoc.
Qed.

End Includes.

(** * What the output handlers send and store *)

Section TurnOutput.
Import JsString Json Registry CommandLine Sanitize Stage Turn Observations.
Variable JSON_parse : string -> option json.
Variable t : Turn.

Lemma join_unlines : forall ls,
  ls <> [] ->
  join NL ls = unlines (removelast ls) ++ last ls EmptyString.
Proof.
  induction ls as [|l ls IH]; [congruence|]. intros _.
  destruct ls as [|l' ls]; [reflexivity|].
  change (join NL (l :: l' :: ls)) with (l ++ NL ++ join NL (l' :: ls)).
  rewrite IH by discriminate.
  change (removelast (l :: l' :: ls)) with (l :: removelast (l' :: ls)).
  change (last (l :: l' :: ls) EmptyString) with (last (l' :: ls) EmptyString).
  cbn [unlines]. rewrite string_app_assoc. reflexivity.
Qed.

Lemma split_lf_join ls :
  ls <> [] -> forallb no_lf ls = true -> split_lf (join NL ls) = ls.
Proof.
  intros Hne Hall. rewrite join_unlines by exact Hne.
  rewrite split_lf_unlines.
  - symmetry. apply app_removelast_last, Hne.
  - apply forallb_removelast, Hall.
  - apply forallb_last; assumption.
Qed.

Lemma codex_trailing_stderr s :
  codexStderrBuffer (codex_trailing JSON_parse t s) = codexStderrBuffer s.
Proof. unfold codex_trailing. break_match; reflexivity. Qed.

(** X15: what Codex writes to stderr is never forwarded when it arrives:
    it is collected (deprecation noise apart) and shown to the client once,
    trimmed, when the process closes with an exit code other than 0; when
    the process closes with code 0 no error message is sent at all. *)
Theorem X15_codex_stderr_deferred :
  cliProvider t = "codex" ->
  (forall data s,
     snd (on_stderr t data s) = []
     /\ codexStderrBuffer (fst (on_stderr t data s))
        = if stderr_noise data then codexStderrBuffer s
          else codexStderrBuffer s ++ data)
  /\ (forall s,
        filter is_error_message (snd (on_close JSON_parse t (Some 0%Z) s)) = [])
  /\ (forall code s,
        is_zero code = false ->
        filter is_error_message (snd (on_close JSON_parse t code s))
        = if truthy (trim (codexStderrBuffer s))
          then [WsSend (GeminiError (JStr (trim (codexStderrBuffer s))))]
          else []).
Proof.
  intros Hp. split; [|split].
  - intros data s. unfold on_stderr. rewrite Hp.
    destruct (stderr_noise data); split; reflexivity.
  - intros s. unfold on_close, hasHandler. rewrite Hp.
    cbn [is_zero Z.eqb String.eqb Ascii.eqb Bool.eqb negb andb snd].
    rewrite !filter_app.
    destruct (truthy _ && truthy _); reflexivity.
  - intros code s Hz. unfold on_close, hasHandler. rewrite Hp, Hz.
    cbn [String.eqb Ascii.eqb Bool.eqb negb andb snd].
    rewrite !filter_app, codex_trailing_stderr.
    cbn [set_timerArmed codexStderrBuffer].
    destruct (truthy _ && truthy _);
      destruct (truthy (trim (codexStderrBuffer s))); reflexivity.
Qed.

Lemma chunks_app a b : chunks (a ++ b) = (chunks a ++ chunks b)%list.
Proof.
  induction a as [|e a IH]; [reflexivity|]. simpl.
  destruct (chunk_text e); simpl; now rewrite IH.
Qed.

Lemma new_session_chunks now s :
  chunks (snd (new_session t now s)) = []
  /\ fullResponse (fst (new_session t now s)) = fullResponse s.
Proof.
  unfold new_session.
  destruct (negb (truthy (t_sessionId t)) && negb (sessionCreatedSent s)
            && negb (truthy (capturedSessionId s))); [|split; reflexivity].
  cbn [fst snd adopt_session fullResponse]. split; [|reflexivity].
  rewrite !chunks_app.
  destruct (truthy (command t)); destruct (pendingExternalSessionId s) as [ext|];
    try destruct (truthy_json ext); reflexivity.
Qed.

Lemma fire_due_chunks now s :
  chunks (snd (fire_due t now s)) = []
  /\ fullResponse (fst (fire_due t now s)) = fullResponse s.
Proof. unfold fire_due, on_timeout. break_match; split; reflexivity. Qed.

Lemma on_error_chunks message s :
  chunks (snd (on_error t message s)) = []
  /\ fullResponse (fst (on_error t message s)) = fullResponse s.
Proof. split; reflexivity. Qed.

Lemma on_stderr_chunks data s :
  chunks (snd (on_stderr t data s)) = []
  /\ fullResponse (fst (on_stderr t data s)) = fullResponse s.
Proof. unfold on_stderr. break_match; split; reflexivity. Qed.

Lemma codex_trailing_other s :
  (cliProvider t =? "codex") = false -> codex_trailing JSON_parse t s = s.
Proof. intros H. unfold codex_trailing. now rewrite H. Qed.

Lemma join_truthy pre :
  Forall (fun x => truthy x = true) pre ->
  truthy (join NL pre) = negb (match pre with [] => true | _ => false end).
Proof.
  intros H. destruct pre as [|x pre]; [reflexivity|].
  inversion H as [|? ? Hx _]; subst.
  destruct pre; [exact Hx|]. cbn [join negb]. now apply truthy_app_l.
Qed.

Lemma join_snoc : forall pre x,
  join NL (pre ++ [x])
  = join NL pre ++ (match pre with [] => EmptyString | _ => NL end) ++ x.
Proof.
  induction pre as [|a pre IH]; intros x; [reflexivity|].
  destruct pre as [|b pre].
  - cbn [app join]. reflexivity.
  - change (join NL ((a :: b :: pre) ++ [x]))
      with (a ++ NL ++ join NL ((b :: pre) ++ [x])).
    rewrite IH. change (join NL (a :: b :: pre)) with (a ++ NL ++ join NL (b :: pre)).
    now rewrite !string_app_assoc.
Qed.

Lemma plain_chunk_chunks text s pre :
  hasHandler t = true ->
  fullResponse s = join NL pre ->
  Forall (fun x => truthy x = true) pre ->
  exists texts,
    Forall (fun x => truthy x = true) (pre ++ texts)
    /\ chunks (snd (plain_chunk t text s)) = map JStr texts
    /\ fullResponse (fst (plain_chunk t text s)) = join NL (pre ++ texts).
Proof.
  intros Hh Hs Hpre. unfold plain_chunk.
  destruct (truthy text) eqn:Ht.
  - exists [text]. split; [|split].
    + apply Forall_app. split; [exact Hpre|]. now constructor.
    + unfold emit. rewrite Hh. reflexivity.
    + cbn [fst append_response set_fullResponse fullResponse].
      rewrite join_snoc, Hs, (join_truthy pre Hpre).
      destruct pre; reflexivity.
  - exists []. rewrite app_nil_r. repeat split; assumption.
Qed.

Lemma stored_response_step now ev s pre :
  (cliProvider t =? "codex") = false ->
  (cliProvider t =? "ollama") = false ->
  fullResponse s = join NL pre ->
  Forall (fun x => truthy x = true) pre ->
  exists texts,
    Forall (fun x => truthy x = true) (pre ++ texts)
    /\ chunks (snd (handle JSON_parse t now ev s)) = map JStr texts
    /\ fullResponse (fst (handle JSON_parse t now ev s)) = join NL (pre ++ texts).
Proof.
  intros Hc Ho Hs Hpre.
  assert (Hh : hasHandler t = true) by (unfold hasHandler; now rewrite Ho).
  assert (Hnone : forall r : State * list Effect,
            chunks (snd r) = [] /\ fullResponse (fst r) = fullResponse s ->
            exists texts,
              Forall (fun x => truthy x = true) (pre ++ texts)
              /\ chunks (snd r) = map JStr texts
              /\ fullResponse (fst r) = join NL (pre ++ texts)).
  { intros r [H1 H2]. exists []. rewrite app_nil_r, H1, H2. auto. }
  destruct ev; cbn [handle].
  - unfold on_stdout. rewrite Hc, Ho.
    assert (Hchunk : exists text,
              (if cliProvider t =? "gemini"
               then let '(s', e') := gemini_stdout t data (note_output data s) in
                    (s', e', false)
               else let '(s', e') := plain_chunk t (trim data) (note_output data s) in
                    (s', e', false))
              = (fst (plain_chunk t text (note_output data s)),
                 snd (plain_chunk t text (note_output data s)), false)).
    { destruct (cliProvider t =? "gemini").
      - exists (trim (join NL (filter (fun line => negb (gemini_noise line))
                                 (split_lf data)))).
        unfold gemini_stdout.
        destruct (plain_chunk t _ (note_output data s)); reflexivity.
      - exists (trim data).
        destruct (plain_chunk t _ (note_output data s)); reflexivity. }
    destruct Hchunk as [text ->].
    destruct (plain_chunk_chunks text (note_output data s) pre Hh Hs Hpre)
      as (texts & T1 & T2 & T3).
    destruct (new_session_chunks now (fst (plain_chunk t text (note_output data s))))
      as [N1 N2].
    destruct (new_session t now _) as [s2 e2]. cbn [fst snd] in *.
    exists texts. rewrite chunks_app, N1, app_nil_r, N2. auto.
  - apply Hnone, on_stderr_chunks.
  - apply Hnone. unfold on_close, hasHandler.
    rewrite codex_trailing_other by exact Hc. rewrite Hc, Ho.
    cbn [negb andb]. destruct (is_zero code); cbn [fst snd];
      rewrite !chunks_app; destruct (truthy _ && truthy _); split; reflexivity.
  - apply Hnone, on_error_chunks.
Qed.

Lemma stored_response_run events : forall s pre,
  (cliProvider t =? "codex") = false ->
  (cliProvider t =? "ollama") = false ->
  fullResponse s = join NL pre ->
  Forall (fun x => truthy x = true) pre ->
  exists texts,
    Forall (fun x => truthy x = true) (pre ++ texts)
    /\ chunks (snd (run JSON_parse t events s)) = map JStr texts
    /\ fullResponse (fst (run JSON_parse t events s)) = join NL (pre ++ texts).
Proof.
  induction events as [|[now ev] rest IH]; intros s pre Hc Ho Hs Hpre.
  - exists []. rewrite app_nil_r. auto.
  - cbn [run]. unfold deliver.
    destruct (fire_due_chunks now s) as [F1 F2].
    destruct (fire_due t now s) as [s1 e1]. cbn [fst snd] in F1, F2.
    rewrite <- F2 in Hs.
    destruct (stored_response_step now ev s1 pre Hc Ho Hs Hpre)
      as (texts & T1 & T2 & T3).
    destruct (handle JSON_parse t now ev s1) as [s2 e2]. cbn [fst snd] in T2, T3.
    destruct (IH s2 (pre ++ texts)%list Hc Ho T3 T1) as (more & M1 & M2 & M3).
    destruct (run JSON_parse t rest s2) as [s3 e3]. cbn [fst snd] in *.
    exists (texts ++ more)%list. rewrite !chunks_app, F1, T2, M2.
    rewrite app_assoc, map_app. auto.
Qed.

(** X17: for the providers that stream (every one but Codex and Ollama) the
    response a turn accumulates, which the close handler stores as the
    assistant's message, is exactly what was streamed: the non-empty text
    chunks handed to the response handler, in order, joined by line
    feeds. *)
Theorem X17_stored_response_is_streamed (events : list (Z * Event)) (s : State) :
  (cliProvider t =? "codex") = false ->
  (cliProvider t =? "ollama") = false ->
  fullResponse s = EmptyString ->
  exists texts,
    Forall (fun x => truthy x = true) texts
    /\ chunks (snd (run JSON_parse t events s)) = map JStr texts
    /\ fullResponse (fst (run JSON_parse t events s)) = join NL texts.
Proof.
  intros Hc Ho Hs.
  apply (stored_response_run events s [] Hc Ho Hs). constructor.
Qed.

Lemma emit_chunk c : chunk_text (emit t c) = Some c.
Proof. unfold emit. destruct (hasHandler t); reflexivity. Qed.

Lemma clean_marker m ls :
  no_lf m = true -> truthy m = true ->
  forallb (fun l => negb (gemini_noise l)) ls = true ->
  (forall l, gemini_noise l = false -> includes l m = false) ->
  includes (trim (join NL ls)) m = false.
Proof.
  intros Hm Ht Hls Hmark.
  destruct (includes (trim (join NL ls)) m) eqn:E; [|reflexivity].
  apply includes_trim in E. rewrite includes_join in E; [discriminate|assumption..|].
  apply forallb_forall. intros l Hl.
  rewrite forallb_forall in Hls. specialize (Hls l Hl).
  apply negb_true_iff in Hls. now rewrite (Hmark l Hls).
Qed.

(** No marker arises from joining lines that hold none. *)
Lemma gemini_noise_join ls :
  forallb (fun l => negb (gemini_noise l)) ls = true ->
  gemini_noise (trim (join NL ls)) = false.
Proof.
  intros H. unfold gemini_noise.
  repeat match goal with
         | |- context [includes (trim (join NL ls)) ?m] =>
             rewrite (clean_marker m ls eq_refl eq_refl H)
               by (intros l Hl; unfold gemini_noise in Hl;
                   repeat (apply orb_false_elim in Hl as [Hl ?]); assumption)
         end.
  reflexivity.
Qed.

Lemma line_segment raw l :
  In l (split_lf raw) -> exists pre post, raw = pre ++ l ++ post.
Proof.
  intros Hin. destruct (split_lf_decompose raw) as [_ E].
  rewrite (app_removelast_last EmptyString (split_lf_nonempty raw)) in Hin.
  apply in_app_or in Hin as [Hin|[<-|[]]].
  - destruct (unlines_segment l _ Hin) as (pre & post & U).
    exists pre, (post ++ last (split_lf raw) EmptyString).
    rewrite E at 1. rewrite U. now rewrite !append_assoc.
  - exists (unlines (removelast (split_lf raw))), EmptyString.
    now rewrite string_app_nil_r.
Qed.

(** A marker in a line of a chunk is a marker in the chunk. *)
Lemma gemini_noise_line raw l :
  In l (split_lf raw) -> gemini_noise l = true -> gemini_noise raw = true.
Proof.
  intros Hin Hl. destruct (line_segment raw l Hin) as (pre & post & E).
  assert (G : forall m, includes l m = true -> includes raw m = true).
  { intros m Hm. rewrite E. now apply includes_segment. }
  unfold gemini_noise in *.
  repeat (apply orb_prop in Hl as [Hl|Hl]);
    rewrite (G _ Hl); rewrite ?orb_true_r; reflexivity.
Qed.

Lemma join_split_lf raw : join NL (split_lf raw) = raw.
Proof.
  rewrite join_unlines by apply split_lf_nonempty.
  symmetry. apply split_lf_decompose.
Qed.

(** X14: the Gemini stdout handler works line by line.  Of a chunk it
    drops every line that holds one of the six log markers and forwards
    the others, joined again and trimmed, as one content chunk, which is
    added to the response; what is forwarded holds none of the markers.
    A chunk without any marker is forwarded trimmed, as a whole.  A chunk
    in which every line holds a marker forwards nothing and adds nothing
    to the response, but it counts as output like any other: the
    no-output timer is cleared and the new-session block runs. *)
Theorem X14_gemini_drops_marked_lines (now : Z) (raw : string) (s : State) :
  cliProvider t = "gemini" ->
  let result := on_stdout JSON_parse t now raw s in
  let text :=
    trim (join NL (filter (fun l => negb (gemini_noise l)) (split_lf raw))) in
  gemini_noise text = false
  /\ chunks (snd result) = (if truthy text then [JStr text] else [])
  /\ fullResponse (fst result)
     = (if truthy text
        then fullResponse s ++ (if truthy (fullResponse s) then NL else EmptyString)
                            ++ text
        else fullResponse s)
  /\ hasReceivedOutput (fst result) = true
  /\ timerArmed (fst result) = false
  /\ (gemini_noise raw = false -> text = trim raw)
  /\ (forallb gemini_noise (split_lf raw) = true ->
      text = EmptyString /\ result = new_session t now (note_output raw s)).
Proof.
  intros Hc result text.
  assert (Hres : result
                 = (fst (new_session t now (fst (plain_chunk t text (note_output raw s)))),
                    (snd (plain_chunk t text (note_output raw s))
                     ++ snd (new_session t now
                               (fst (plain_chunk t text (note_output raw s)))))%list)).
  { subst result. unfold on_stdout. rewrite Hc.
    cbn [String.eqb Ascii.eqb Bool.eqb]. unfold gemini_stdout. fold text.
    destruct (plain_chunk t text (note_output raw s)) as [s1 e1]. cbn [fst snd].
    now destruct (new_session t now s1). }
  assert (Hflags : forall s1,
             hasReceivedOutput (fst (new_session t now s1)) = hasReceivedOutput s1
             /\ timerArmed (fst (new_session t now s1)) = timerArmed s1).
  { intros s1. unfold new_session. now destruct (_ && _). }
  split; [|split; [|split; [|split; [|split; [|split]]]]].
  - apply gemini_noise_join.
    apply forallb_forall. intros l Hl. now apply filter_In in Hl as [_ Hl].
  - rewrite Hres. cbn [snd]. rewrite chunks_app.
    rewrite (proj1 (new_session_chunks now _)), app_nil_r.
    unfold plain_chunk. destruct (truthy text); cbn [snd chunks]; [|reflexivity].
    now rewrite emit_chunk.
  - rewrite Hres. cbn [fst]. rewrite (proj2 (new_session_chunks now _)).
    unfold plain_chunk. now destruct (truthy text).
  - rewrite Hres. cbn [fst]. rewrite (proj1 (Hflags _)).
    unfold plain_chunk. now destruct (truthy text).
  - rewrite Hres. cbn [fst]. rewrite (proj2 (Hflags _)).
    unfold plain_chunk. now destruct (truthy text).
  - intros Hraw. subst text. f_equal.
    assert (Hall : filter (fun l => negb (gemini_noise l)) (split_lf raw)
                   = split_lf raw).
    { assert (G : forall l, In l (split_lf raw) -> gemini_noise l = false).
      { intros l Hl. destruct (gemini_noise l) eqn:E; [|reflexivity].
        rewrite (gemini_noise_line raw l Hl E) in Hraw. discriminate. }
      revert G. generalize (split_lf raw) as ls.
      induction ls as [|l ls IH]; intros G; [reflexivity|]. cbn [filter].
      rewrite (G l (or_introl eq_refl)). cbn [negb]. f_equal.
      apply IH. intros l' Hl'. apply G. now right. }
    rewrite Hall. apply join_split_lf.
  - intros Hnoise.
    assert (Hf : filter (fun l => negb (gemini_noise l)) (split_lf raw) = []).
    { revert Hnoise. generalize (split_lf raw) as ls.
      induction ls as [|l ls IH]; [reflexivity|].
      cbn [forallb filter]. intros [-> Hn]%andb_prop. now apply IH. }
    assert (Ht : text = EmptyString) by (subst text; now rewrite Hf).
    split; [exact Ht|]. rewrite Hres, Ht. unfold plain_chunk. cbn [truthy fst snd app].
    now destruct (new_session t now (note_output raw s)).
Qed.

End TurnOutput.

Section WebllmTurn.
Import JsString Json Registry CommandLine Sanitize Stage Turn Observations.
Variable JSON_parse : string -> option json.

(** X16: a turn whose tag resolves to webllm is set up exactly like a
    Gemini turn: the same executable and arguments, the same staged
    images, the same registry key, first state and timer.  Its output,
    though, is not
    filtered line by line: each stdout chunk is forwarded trimmed, as a
    whole, log markers included, and added to the response; a blank chunk
    forwards nothing. *)
Theorem X16_webllm_output_unfiltered
  (command : string) (o : Options) (e : Env) (reg : Registry.t) (fs0 : Fs)
  (now : Z) (raw : string) (s : State) :
  CliConfig.normalizeProvider (env_CLI_PROVIDER e) (provider o) = "webllm" ->
  let begun := spawnGemini command o e reg fs0 in
  let like := start "gemini" command o e reg fs0 in
  let turn := fst (fst begun) in
  let result := on_stdout JSON_parse turn now raw s in
  cliProvider turn = "webllm"
  /\ snd begun = snd like
  /\ snd (fst begun) = snd (fst like)
  /\ processKey turn = processKey (fst (fst like))
  /\ staged_paths turn = staged_paths (fst (fst like))
  /\ staged_dir turn = staged_dir (fst (fst like))
  /\ deadline turn = deadline (fst (fst like))
  /\ (forall paths,
        CliEnv.getCliCommand (env_CLI_PROVIDER e) paths (cliProvider turn)
        = CliEnv.getCliCommand (env_CLI_PROVIDER e) paths "gemini")
  /\ chunks (snd result) = (if truthy (trim raw) then [JStr (trim raw)] else [])
  /\ fullResponse (fst result)
     = (if truthy (trim raw)
        then fullResponse s ++ (if truthy (fullResponse s) then NL else EmptyString)
                            ++ trim raw
        else fullResponse s).
Proof.
  intros H begun like turn result.
  assert (Hb : begun = start "webllm" command o e reg fs0)
    by (unfold begun, spawnGemini; now rewrite H).
  assert (Ht : cliProvider turn = "webllm") by (subst turn; now rewrite Hb).
  assert (Hres : result
                 = (fst (new_session turn now
                           (fst (plain_chunk turn (trim raw) (note_output raw s)))),
                    (snd (plain_chunk turn (trim raw) (note_output raw s))
                     ++ snd (new_session turn now
                               (fst (plain_chunk turn (trim raw)
                                       (note_output raw s)))))%list)).
  { subst result. unfold on_stdout. rewrite Ht.
    cbn [String.eqb Ascii.eqb Bool.eqb].
    destruct (plain_chunk turn (trim raw) (note_output raw s)) as [s1 e1].
    cbn [fst snd]. now destruct (new_session turn now s1). }
  split; [exact Ht|].
  split; [subst turn; rewrite Hb; reflexivity|].
  split; [subst turn; rewrite Hb; reflexivity|].
  split; [subst turn; rewrite Hb; reflexivity|].
  split; [subst turn; rewrite Hb; reflexivity|].
  split; [subst turn; rewrite Hb; reflexivity|].
  split; [subst turn; rewrite Hb; reflexivity|].
  split; [intros paths; rewrite Ht; reflexivity|].
  split.
  - rewrite Hres. cbn [snd]. rewrite chunks_app.
    rewrite (proj1 (new_session_chunks turn now _)), app_nil_r.
    unfold plain_chunk. destruct (truthy (trim raw)); cbn [snd chunks];
      [|reflexivity].
    unfold emit, hasHandler. now rewrite Ht.
  - rewrite Hres. cbn [fst]. rewrite (proj2 (new_session_chunks turn now _)).
    unfold plain_chunk. now destruct (truthy (trim raw)).
Qed.

End WebllmTurn.

Section TurnOutputWitnesses.
Import JsString Json Registry CommandLine Sanitize Stage Turn Observations.

Lemma X14_gemini_drops_marked_lines_witness :
  chunks (snd (on_stdout Examples.sample_parse (Samples.turn_of "gemini")
                 1700000000500
                 (join NL ["[DEBUG] boot"; "hello"; "Flushing log events"])
                 (Samples.state_of "gemini")))
  = [JStr "hello"].
Proof.
  exact (proj1 (proj2 (X14_gemini_drops_marked_lines Examples.sample_parse
                         (Samples.turn_of "gemini") 1700000000500
                         (join NL ["[DEBUG] boot"; "hello"; "Flushing log events"])
                         (Samples.state_of "gemini") eq_refl))).
Defined.

Lemma X15_codex_stderr_deferred_witness :
  filter is_error_message
    (snd (on_close Examples.sample_parse (Samples.turn_of "codex") (Some 1%Z)
            (set_codexStderrBuffer " boom " (Samples.state_of "codex"))))
  = [WsSend (GeminiError (JStr "boom"))].
Proof.
  apply (proj2 (proj2 (X15_codex_stderr_deferred Examples.sample_parse
                         (Samples.turn_of "codex") eq_refl))
           (Some 1%Z) (set_codexStderrBuffer " boom " (Samples.state_of "codex"))).
  reflexivity.
Defined.

Lemma X16_webllm_output_unfiltered_witness :
  chunks (snd (on_stdout Examples.sample_parse
                 (fst (fst (spawnGemini "hi" (Examples.new_turn "webllm")
                              Examples.sample_env [] [])))
                 1700000000500 " [DEBUG] boot "
                 (snd (fst (spawnGemini "hi" (Examples.new_turn "webllm")
                              Examples.sample_env [] [])))))
  = [JStr "[DEBUG] boot"].
Proof.
  exact (proj1 (proj2 (proj2 (proj2 (proj2 (proj2 (proj2 (proj2 (proj2
           (X16_webllm_output_unfiltered Examples.sample_parse
              "hi" (Examples.new_turn "webllm") Examples.sample_env [] []
              1700000000500 " [DEBUG] boot "
              (snd (fst (spawnGemini "hi" (Examples.new_turn "webllm")
                           Examples.sample_env [] [])))
              eq_refl)))))))))).
Defined.

Lemma X17_stored_response_is_streamed_witness :
  exists texts,
    Forall (fun x => truthy x = true) texts
    /\ chunks (snd (run Examples.sample_parse (Samples.turn_of "gemini")
                      [(1700000000500%Z, Stdout "one");
                       (1700000000600%Z, Stdout "two");
                       (1700000000900%Z, Close (Some 0%Z))]
                      (Samples.state_of "gemini")))
       = map JStr texts
    /\ fullResponse (fst (run Examples.sample_parse (Samples.turn_of "gemini")
                            [(1700000000500%Z, Stdout "one");
                             (1700000000600%Z, Stdout "two");
                             (1700000000900%Z, Close (Some 0%Z))]
                            (Samples.state_of "gemini")))
       = join NL texts.
Proof.
  apply (X17_stored_response_is_streamed Examples.sample_parse
           (Samples.turn_of "gemini")); reflexivity.
Defined.

End TurnOutputWitnesses.

(** * Codex output: the lines of successive chunks *)

Section CodexChunks.
Import JsString Json Registry CommandLine Stage Turn Observations.
Variable JSON_parse : string -> option json.
Variable t : Turn.










End CodexChunks.

Section CodexClaim.
Import JsString Json Registry CommandLine Stage Turn Observations.
Variable JSON_parse : string -> option json.


End CodexClaim.

Section CodexWitness.
Import JsString Json Registry CommandLine Stage Turn Observations.



End CodexWitness.

(** * The staged images after the process has closed *)

Section CleanupAtClose.
Import JsString Json Registry CommandLine Sanitize Stage Turn Observations.
Variable JSON_parse : string -> option json.
Variable t : Turn.

Lemma cleanup_keeps_absent paths dir fs0 p :
  exists_path p fs0 = false -> exists_path p (cleanup paths dir fs0) = false.
Proof.
  intros H. unfold cleanup. destruct paths as [|q paths]; [exact H|].
  destruct dir as [d|]; unfold rm_rf;
    rewrite ?exists_path_filter, exists_path_unlink_all, H; reflexivity.
Qed.

Lemma cleanup_keeps_others paths d fs0 p :
  ~ In p paths -> p <> d -> prefix (d ++ "/") p = false ->
  exists_path p (cleanup paths (Some d) fs0) = exists_path p fs0.
Proof.
  intros Hin Hd Hpre. unfold cleanup. destruct paths as [|q paths]; [reflexivity|].
  unfold rm_rf. rewrite exists_path_filter, exists_path_unlink_all, Hpre.
  assert (Hq : existsb (String.eqb p) (q :: paths) = false).
  { destruct (existsb (String.eqb p) (q :: paths)) eqn:E; [|reflexivity].
    apply existsb_exists in E as (x & Hx & Ex). apply String.eqb_eq in Ex.
    subst x. contradiction. }
  rewrite Hq. apply String.eqb_neq in Hd. rewrite Hd.
  cbn [negb orb]. now rewrite !andb_true_r.
Qed.

Lemma on_stdout_fs now raw s :
  fs (fst (on_stdout JSON_parse t now raw s)) = fs s.
Proof.
  destruct (on_stdout_eq JSON_parse t now raw s) as (s1 & e1 & th & Hc & _ & _ & ->).
  apply control_fields in Hc as (_ & _ & _ & _ & _ & _ & Hfs).
  destruct th; cbn [fst]; [exact Hfs|].
  destruct (new_session_timer t now s1) as (_ & _ & _ & ->). exact Hfs.
Qed.

Lemma handle_fs now ev s :
  fs (fst (handle JSON_parse t now ev s))
  = if is_close ev then cleanup (staged_paths t) (staged_dir t) (fs s) else fs s.
Proof.
  destruct ev; cbn [handle is_close].
  - apply on_stdout_fs.
  - unfold on_stderr. break_match; reflexivity.
  - unfold on_close.
    pose proof (codex_trailing_control JSON_parse t (set_timerArmed false s)) as Hc.
    apply control_fields in Hc as (_ & _ & _ & _ & _ & _ & Hfs).
    destruct (is_zero code); cbn [fst settle set_fs set_registry fs];
      now rewrite Hfs.
  - reflexivity.
Qed.

Lemma fire_due_fs now s : fs (fst (fire_due t now s)) = fs s.
Proof. unfold fire_due, on_timeout. break_match; reflexivity. Qed.

Lemma run_fs (Q : Fs -> Prop) :
  (forall f, Q f -> Q (cleanup (staged_paths t) (staged_dir t) f)) ->
  forall events s, Q (fs s) -> Q (fs (fst (run JSON_parse t events s))).
Proof.
  intros HQ. induction events as [|[now ev] rest IH]; intros s H; [exact H|].
  cbn [run]. unfold deliver.
  pose proof (fire_due_fs now s) as F.
  destruct (fire_due t now s) as [s1 e1]. cbn [fst] in F.
  pose proof (handle_fs now ev s1) as G.
  destruct (handle JSON_parse t now ev s1) as [s2 e2]. cbn [fst] in G.
  assert (H2 : Q (fs s2)).
  { rewrite G, F. destruct (is_close ev); [apply HQ|]; exact H. }
  specialize (IH s2 H2).
  destruct (run JSON_parse t rest s2) as [s3 e3]. exact IH.
Qed.

(** X18: when at least one image was staged, a turn whose process closes
    leaves none of the staged files, nor the staging directory, nor
    anything below it, whatever else happens before or after the close
    event and whatever the exit code; and nothing outside the staging
    directory is removed. *)
Theorem X18_close_removes_staged
  (before after : list (Z * Event)) (now : Z) (code : option Z)
  (s : State) (d p : string) :
  staged_paths t <> [] ->
  staged_dir t = Some d ->
  (In p (staged_paths t) \/ p = d \/ prefix (d ++ "/") p = true ->
   exists_path p
     (fs (fst (run JSON_parse t (before ++ (now, Close code) :: after) s)))
   = false)
  /\ (~ In p (staged_paths t) -> p <> d -> prefix (d ++ "/") p = false ->
      exists_path p
        (fs (fst (run JSON_parse t (before ++ (now, Close code) :: after) s)))
      = exists_path p (fs s)).
Proof.
  intros Hne Hd. split.
  - intros Hp. rewrite run_app. cbn [fst].
    set (s1 := fst (run JSON_parse t before s)).
    cbn [run]. unfold deliver.
    pose proof (fire_due_fs now s1) as F.
    destruct (fire_due t now s1) as [s2 e2]. cbn [fst] in F.
    pose proof (handle_fs now (Close code) s2) as G.
    destruct (handle JSON_parse t now (Close code) s2) as [s3 e3].
    cbn [fst is_close] in G.
    assert (H3 : exists_path p (fs s3) = false).
    { rewrite G, Hd. apply cleanup_removes; assumption. }
    pose proof (run_fs (fun f => exists_path p f = false)
                  (fun f => cleanup_keeps_absent _ _ f p) after s3 H3) as R.
    destruct (run JSON_parse t after s3) as [s4 e4]. exact R.
  - intros Hin Hpd Hpre.
    apply (run_fs (fun f => exists_path p f = exists_path p (fs s))).
    + intros f Hf. rewrite Hd, cleanup_keeps_others; assumption.
    + reflexivity.
Qed.

End CleanupAtClose.

Section CleanupAtCloseWitness.
Import JsString Json Registry CommandLine Sanitize Stage Turn Observations.

Lemma X18_close_removes_staged_witness :
  exists_path "/work/gemini_tmp_images/1700000000000/image_0.png"
    (fs (fst (run Examples.sample_parse (Samples.staged_turn)
                ([(1700000000500%Z, Stdout "ok")]
                 ++ (1700000000900%Z, Close (Some 1%Z))
                 :: [(1700000000950%Z, Stderr "late")])
                Samples.staged_state)))
  = false.
Proof.
  apply (X18_close_removes_staged Examples.sample_parse Samples.staged_turn
           [(1700000000500%Z, Stdout "ok")] [(1700000000950%Z, Stderr "late")]
           1700000000900%Z (Some 1%Z) Samples.staged_state
           "/work/gemini_tmp_images/1700000000000"
           "/work/gemini_tmp_images/1700000000000/image_0.png").
  - discriminate.
  - reflexivity.
  - left. vm_compute. left. reflexivity.
Defined.

End CleanupAtCloseWitness.

(** * The files written for the attached images *)

Section StagedFiles.
Import JsString Json Registry CommandLine Sanitize Stage Turn Observations.

Lemma string_of_uint_decimal d :
  all_chars is_decimal_char (NilEmpty.string_of_uint d) = true.
Proof. induction d; simpl; auto. Qed.

Lemma of_Z_decimal z : all_chars is_decimal_char (of_Z z) = true.
Proof.
  unfold of_Z, NilZero.string_of_int, NilZero.string_of_uint.
  destruct (Z.to_int z) as [d|d]; destruct d;
    try reflexivity; apply (string_of_uint_decimal (_ _)) || simpl;
    try apply string_of_uint_decimal.
Qed.

Lemma of_Z_inj a b : of_Z a = of_Z b -> a = b.
Proof.
  unfold of_Z. intros H. apply DecimalZ.to_int_inj.
  assert (Hn : forall z, Z.to_int z <> Decimal.Pos Decimal.Nil
                         /\ Z.to_int z <> Decimal.Neg Decimal.Nil).
  { intros [|p|p]; simpl; split; try discriminate;
      intros [= E]; now apply DecimalPos.Unsigned.to_uint_nonnil in E. }
  destruct (Hn a) as [A1 A2], (Hn b) as [B1 B2].
  pose proof (NilZero.isi _ A1 A2) as Ia.
  pose proof (NilZero.isi _ B1 B2) as Ib.
  rewrite H in Ia. rewrite Ia in Ib. now injection Ib.
Qed.

Lemma string_app_inv_head (a x y : string) : a ++ x = a ++ y -> x = y.
Proof. induction a as [|c a IH]; simpl; [auto|]. intros [= H]. auto. Qed.

Lemma decimal_before_dot : forall a b x y,
  all_chars is_decimal_char a = true ->
  all_chars is_decimal_char b = true ->
  a ++ String "."%char x = b ++ String "."%char y -> a = b.
Proof.
  induction a as [|c a IH]; intros [|d b] x y Ha Hb H; simpl in *.
  - reflexivity.
  - injection H as Hc _. subst d. apply andb_prop in Hb as [Hd _]. discriminate Hd.
  - injection H as Hc _. subst c. apply andb_prop in Ha as [Hd _]. discriminate Hd.
  - injection H as Hc Hr. subst d.
    apply andb_prop in Ha as [_ Ha]. apply andb_prop in Hb as [_ Hb].
    f_equal. eapply IH; eassumption.
Qed.

Lemma image_name_inj k e k' e' : image_name k e = image_name k' e' -> k = k'.
Proof.
  unfold image_name. intros H.
  apply (string_app_inv_head "image_") in H.
  apply decimal_before_dot in H; try apply of_Z_decimal.
  apply of_Z_inj in H. lia.
Qed.

Lemma path_join_inj dir x y : path_join dir x = path_join dir y -> x = y.
Proof.
  unfold path_join. destruct (last_is _ dir); intros H.
  - now apply string_app_inv_head in H.
  - apply string_app_inv_head in H. now apply (string_app_inv_head "/") in H.
Qed.

Lemma last_is_app f : forall a b,
  truthy b = true -> last_is f (a ++ b) = last_is f b.
Proof.
  induction a as [|c a IH]; intros b Hb; [reflexivity|].
  cbn [append]. specialize (IH b Hb).
  destruct (a ++ b) as [|d r] eqn:E.
  - destruct a; [|discriminate E]. simpl in E. subst b. discriminate Hb.
  - rewrite last_is_cons. exact IH.
Qed.

Lemma of_Z_no_slash z : last_is (Ascii.eqb "/"%char) (of_Z z) = false.
Proof.
  pose proof (of_Z_decimal z) as H.
  induction (of_Z z) as [|c r IH]; [reflexivity|].
  simpl in H. apply andb_prop in H as [Hc Hr].
  destruct r as [|d r'].
  - simpl. destruct c as [[] [] [] [] [] [] [] []]; try reflexivity; discriminate Hc.
  - rewrite last_is_cons. now apply IH.
Qed.

Lemma path_join_of_Z a z :
  last_is (Ascii.eqb "/"%char) (path_join a (of_Z z)) = false.
Proof.
  unfold path_join. destruct (last_is _ a).
  - rewrite last_is_app by apply of_Z_truthy. apply of_Z_no_slash.
  - rewrite <- string_app_assoc, last_is_app by apply of_Z_truthy.
    apply of_Z_no_slash.
Qed.

Lemma exists_path_add p q fs0 :
  exists_path p (add_path q fs0) = exists_path p fs0 || (p =? q).
Proof.
  unfold add_path. destruct (exists_path q fs0) eqn:E.
  - destruct (p =? q) eqn:Epq; [|now rewrite orb_false_r].
    apply String.eqb_eq in Epq. subst. now rewrite E.
  - unfold exists_path. rewrite existsb_app. simpl. now rewrite orb_false_r.
Qed.

Lemma take_until_clean stop s :
  all_chars (fun c => negb (Ascii.eqb c stop)) (take_until stop s) = true.
Proof.
  induction s as [|c r IH]; simpl; [reflexivity|].
  destruct (Ascii.eqb c stop) eqn:E; simpl; [reflexivity|]. now rewrite E, IH.
Qed.

Lemma extension_no_slash mimeType :
  all_chars (fun c => negb (Ascii.eqb c "/"%char)) (extension_of mimeType) = true.
Proof.
  unfold extension_of. destruct (drop_until "/"%char mimeType); [reflexivity|].
  unfold or_else. destruct (truthy _); [apply take_until_clean|reflexivity].
Qed.

Lemma decimal_no_slash s :
  all_chars is_decimal_char s = true ->
  all_chars (fun c => negb (Ascii.eqb c "/"%char)) s = true.
Proof.
  apply all_chars_impl. intros c Hc.
  destruct c as [[] [] [] [] [] [] [] []]; try reflexivity; discriminate Hc.
Qed.

Lemma image_name_no_slash k mimeType :
  all_chars (fun c => negb (Ascii.eqb c "/"%char))
    (image_name k (extension_of mimeType)) = true.
Proof.
  unfold image_name. rewrite !all_chars_app.
  rewrite (decimal_no_slash _ (of_Z_decimal _)), extension_no_slash. reflexivity.
Qed.

Lemma write_images_spec dir reldir : forall imgs index acc,
  exists new,
    tempImagePaths (write_images dir reldir index imgs acc)
    = (tempImagePaths acc ++ new)%list
    /\ List.length new <= List.length imgs
    /\ NoDup new
    /\ Forall (fun p => exists k mimeType,
                 index <= k
                 /\ p = path_join dir (image_name k (extension_of mimeType))) new
    /\ tempDir (write_images dir reldir index imgs acc) = tempDir acc
    /\ (forall q,
          exists_path q (fs_after (write_images dir reldir index imgs acc))
          = exists_path q (fs_after acc) || existsb (String.eqb q) new).
Proof.
  induction imgs as [|data rest IH]; intros index acc.
  - exists []. cbn [write_images]. rewrite app_nil_r.
    repeat split; try constructor. intros q. cbn. now rewrite orb_false_r.
  - cbn [write_images]. destruct (match_data_url data) as [[mimeType payload]|].
    + match goal with
      | |- context [write_images dir reldir (S index) rest ?a] =>
          destruct (IH (S index) a) as (new & P1 & P2 & P3 & P4 & P5 & P6)
      end.
      cbn [tempImagePaths tempDir fs_after] in P1, P5, P6.
      exists (path_join dir (image_name index (extension_of mimeType)) :: new).
      split; [|split; [|split; [|split; [|split]]]].
      * rewrite P1, <- app_assoc. reflexivity.
      * simpl. lia.
      * constructor; [|exact P3]. intros Hin.
        rewrite Forall_forall in P4. destruct (P4 _ Hin) as (k & ext & Hk & Heq).
        apply path_join_inj, image_name_inj in Heq. lia.
      * constructor.
        -- exists index, mimeType. split; [lia|reflexivity].
        -- revert P4. apply Forall_impl. intros p (k & ext & Hk & ->).
           exists k, ext. split; [lia|reflexivity].
      * exact P5.
      * intros q. rewrite P6, exists_path_add. cbn [existsb].
        now rewrite orb_assoc.
    + destruct (IH (S index) acc) as (new & P1 & P2 & P3 & P4 & P5 & P6).
      exists new. repeat split; try assumption.
      * simpl. lia.
      * revert P4. apply Forall_impl. intros p (k & ext & Hk & ->).
        exists k, ext. split; [lia|reflexivity].
Qed.

(** X19: the files written for the attached images are pairwise distinct
    (no image overwrites another), at most one per image; each of them
    exists when the staging is done and lies directly below the staging
    directory; and staging removes nothing that existed before. *)
Theorem X19_staged_files
  (cliProvider workingDir : string) (now : Z) (images : list string) (fs0 : Fs) :
  NoDup (tempImagePaths (stage cliProvider workingDir now images fs0))
  /\ List.length (tempImagePaths (stage cliProvider workingDir now images fs0))
     <= List.length images
  /\ (forall p,
        In p (tempImagePaths (stage cliProvider workingDir now images fs0)) ->
        exists_path p (fs_after (stage cliProvider workingDir now images fs0)) = true
        /\ exists d name,
             tempDir (stage cliProvider workingDir now images fs0) = Some d
             /\ p = d ++ "/" ++ name
             /\ all_chars (fun c => negb (Ascii.eqb c "/"%char)) name = true)
  /\ (forall q,
        exists_path q fs0 = true ->
        exists_path q (fs_after (stage cliProvider workingDir now images fs0)) = true).
Proof.
  unfold stage. destruct images as [|i images].
  - cbn [tempImagePaths fs_after]. repeat split; try constructor; try easy.
  - destruct (cliProvider =? "bmad").
    + cbn [tempImagePaths fs_after]. repeat split; try constructor; try easy;
        simpl; lia.
    + set (dir := path_join (path_join workingDir (tempDirName cliProvider)) (of_Z now)).
      match goal with
      | |- context [write_images dir ?rd 0 ?im ?a] =>
          destruct (write_images_spec dir rd im 0 a)
            as (new & P1 & P2 & P3 & P4 & P5 & P6);
          set (st := write_images dir rd 0 im a) in *
      end.
      cbn [tempImagePaths tempDir fs_after app] in P1, P5, P6.
      rewrite P1. split; [exact P3|]. split; [exact P2|]. split.
      * intros p Hin. split.
        -- rewrite P6. replace (existsb (String.eqb p) new) with true.
           ++ apply orb_true_r.
           ++ symmetry. apply existsb_exists. exists p. split; [exact Hin|].
              apply String.eqb_refl.
        -- rewrite Forall_forall in P4. destruct (P4 _ Hin) as (k & ext & _ & ->).
           exists dir, (image_name k (extension_of ext)). split; [exact P5|]. split.
           ++ unfold path_join at 1. subst dir. now rewrite path_join_of_Z.
           ++ apply image_name_no_slash.
      * intros q Hq. rewrite P6, !exists_path_add, Hq. reflexivity.
Qed.

End StagedFiles.

(** * Abort with an empty session id *)

Section AbortEmptyId.
Import JsString Registry.

Lemma includes_empty s : includes s EmptyString = true.
Proof. destruct s; reflexivity. Qed.

(** X20: an abort with the empty session id does not fail: every key
    contains the empty string, so the process registered first is taken,
    whichever session it belongs to; it receives SIGTERM and its key is
    removed. *)
Theorem X20_abort_empty_id (k : string) (p : ChildProcess) (rest : Registry.t) :
  has EmptyString ((k, p) :: rest) = false ->
  kill_calls (abortGeminiSession EmptyString ((k, p) :: rest)) = [(pid p, SIGTERM)]
  /\ registry_after (abortGeminiSession EmptyString ((k, p) :: rest))
     = delete k ((k, p) :: rest)
  /\ returned (abortGeminiSession EmptyString ((k, p) :: rest))
     = negb (kill_throws p).
Proof.
  intros H. unfold abortGeminiSession, resolve.
  unfold has in H.
  destruct (get EmptyString ((k, p) :: rest)); [discriminate|].
  cbn [find_matching]. unfold matches. rewrite includes_empty. cbn [orb].
  destruct (kill_throws p); repeat split; reflexivity.
Qed.

Lemma X20_abort_empty_id_witness :
  kill_calls (abortGeminiSession EmptyString
                [("gemini_1700000000500", Examples.proc1); ("s2", Examples.proc2)])
  = [(pid Examples.proc1, SIGTERM)].
Proof.
  apply (X20_abort_empty_id "gemini_1700000000500" Examples.proc1
           [("s2", Examples.proc2)]).
  reflexivity.
Defined.

End AbortEmptyId.

(** * Provider tags *)

Section ProviderTags.
Import JsString CliConfig.

Lemma lower_char_idem c : lower_char (lower_char c) = lower_char c.
Proof. destruct c as [[] [] [] [] [] [] [] []]; reflexivity. Qed.

Lemma toLowerCase_idem s : toLowerCase (toLowerCase s) = toLowerCase s.
Proof.
  induction s as [|c r IH]; simpl; [reflexivity|].
  now rewrite lower_char_idem, IH.
Qed.

Lemma toLowerCase_truthy s : truthy (toLowerCase s) = truthy s.
Proof. destruct s; reflexivity. Qed.

(** X21: [normalizeProvider] does not depend on the case of the override
    nor on the case of [CLI_PROVIDER], its result is never empty, and it
    is idempotent: normalising a normalised tag gives the same tag. *)
Theorem X21_normalizeProvider_stable (env providerOverride : string) :
  normalizeProvider env (toLowerCase providerOverride)
  = normalizeProvider env providerOverride
  /\ normalizeProvider (toLowerCase env) providerOverride
     = normalizeProvider env providerOverride
  /\ truthy (normalizeProvider env providerOverride) = true
  /\ normalizeProvider env (normalizeProvider env providerOverride)
     = normalizeProvider env providerOverride.
Proof.
  split; [|split; [|split]].
  - unfold normalizeProvider.
    now rewrite toLowerCase_truthy, toLowerCase_idem.
  - unfold normalizeProvider, provider.
    replace (toLowerCase (or_else (toLowerCase env) "gemini"))
      with (toLowerCase (or_else env "gemini")); [reflexivity|].
    destruct env as [|c r]; [reflexivity|].
    unfold or_else. cbn [toLowerCase truthy].
    now rewrite lower_char_idem, toLowerCase_idem.
  - pose proof (normalizeProvider_supported env providerOverride) as H.
    unfold supported in H. simpl in H.
    destruct H as [<-|[<-|[<-|[<-|[]]]]]; reflexivity.
  - pose proof (normalizeProvider_supported env providerOverride) as H.
    unfold supported in H. simpl in H.
    destruct H as [<-|[<-|[<-|[<-|[]]]]]; reflexivity.
Qed.

End ProviderTags.

(** * getCliInfo and buildSpawnEnv *)

Section CliEnvFacts.
Import JsString CliConfig CliEnv.

Lemma NoDup_strings (l : list string) : Text.all_distinct l = true -> NoDup l.
Proof.
  induction l as [|x l IH]; cbn [Text.all_distinct]; intros H; constructor.
  - apply andb_prop in H as [H _]. apply negb_true_iff in H.
    intros Hin. assert (existsb (String.eqb x) l = true); [|congruence].
    apply existsb_exists. exists x. split; [exact Hin|apply String.eqb_refl].
  - apply andb_prop in H as [_ H]. now apply IH.
Qed.

(** X22: whatever the override and [CLI_PROVIDER], the object returned by
    [getCliInfo] is coherent: its provider is one of the four tags, its
    model list is the catalog of that very provider, without duplicates,
    and its default model is one of the listed models. *)
Theorem X22_cli_info_coherent (env providerOverride : string) :
  In (info_provider (getCliInfo env providerOverride)) supported
  /\ cliModelCatalog (info_provider (getCliInfo env providerOverride))
     = Some (models (getCliInfo env providerOverride))
  /\ NoDup (models (getCliInfo env providerOverride))
  /\ In (info_defaultModel (getCliInfo env providerOverride))
        (models (getCliInfo env providerOverride))
  /\ truthy (displayName (getCliInfo env providerOverride)) = true.
Proof.
  pose proof (normalizeProvider_supported env providerOverride) as H.
  unfold getCliInfo, defaultModel.
  cbn [info_provider models info_defaultModel displayName].
  split; [exact H|].
  unfold supported in H. simpl in H.
  destruct H as [<-|[<-|[<-|[<-|[]]]]];
    (split; [reflexivity|]); (split; [apply NoDup_strings; reflexivity|]);
    (split; [|reflexivity]); simpl; auto 10.
Qed.

Lemma dedupe_seen_ext : forall entries s1 s2,
  (forall e, existsb (String.eqb e) s1 = existsb (String.eqb e) s2) ->
  dedupe s1 entries = dedupe s2 entries.
Proof.
  induction entries as [|x rest IH]; intros s1 s2 H; [reflexivity|].
  cbn [dedupe]. rewrite (H x). destruct (existsb (String.eqb x) s2).
  - now apply IH.
  - f_equal. apply IH. intros e. cbn [existsb]. now rewrite (H e).
Qed.

Lemma dedupe_spec : forall entries seen,
  NoDup (dedupe seen entries)
  /\ (forall e, In e (dedupe seen entries)
                <-> In e entries /\ existsb (String.eqb e) seen = false).
Proof.
  induction entries as [|x rest IH]; intros seen.
  - split; [constructor|]. intros e. simpl. tauto.
  - cbn [dedupe]. destruct (existsb (String.eqb x) seen) eqn:Ex.
    + destruct (IH seen) as [N M]. split; [exact N|].
      intros e. rewrite M. simpl. split; [tauto|].
      intros [[->|Hin] Hs]; [congruence|tauto].
    + destruct (IH (x :: seen)) as [N M]. split.
      * constructor; [|exact N]. rewrite M. cbn [existsb].
        rewrite String.eqb_refl. intros [_ Hf]. discriminate Hf.
      * intros e. simpl. rewrite M. cbn [existsb].
        destruct (String.eqb_spec e x) as [->|Hne].
        -- simpl. split; [intros _; split; [now left|exact Ex]|now left].
        -- simpl. split.
           ++ intros [Heq|[Hin Hs]]; [congruence|]. tauto.
           ++ intros [[Heq|Hin] Hs]; [congruence|]. right. tauto.
Qed.

Lemma dedupe_app : forall a b seen,
  dedupe seen (a ++ b) = (dedupe seen a ++ dedupe (rev a ++ seen) b)%list.
Proof.
  induction a as [|x a IH]; intros b seen; [reflexivity|].
  cbn [app dedupe]. destruct (existsb (String.eqb x) seen) eqn:Ex.
  - rewrite IH. f_equal. apply dedupe_seen_ext. intros e.
    cbn [rev]. rewrite !existsb_app. cbn [existsb].
    destruct (String.eqb_spec e x) as [->|Hne]; [|now rewrite !orb_false_r].
    rewrite Ex. now rewrite !orb_true_r.
  - cbn [app]. f_equal. rewrite IH. f_equal. apply dedupe_seen_ext. intros e.
    cbn [rev]. rewrite !existsb_app. cbn [existsb].
    rewrite orb_false_r, <- orb_assoc. reflexivity.
Qed.

Lemma dedupe_all_seen : forall a seen,
  (forall e, In e a -> existsb (String.eqb e) seen = true) ->
  dedupe seen a = [].
Proof.
  induction a as [|x a IH]; intros seen H; [reflexivity|].
  cbn [dedupe]. rewrite (H x) by now left. apply IH. intros e He.
  apply H. now right.
Qed.

Lemma dedupe_fresh : forall a seen,
  NoDup a ->
  (forall e, In e a -> existsb (String.eqb e) seen = false) ->
  dedupe seen a = a.
Proof.
  induction a as [|x a IH]; intros seen N H; [reflexivity|].
  inversion N as [|? ? Hx Na]; subst.
  cbn [dedupe]. rewrite (H x) by now left. f_equal. apply IH; [exact Na|].
  intros e He. cbn [existsb]. rewrite (H e) by now right.
  destruct (String.eqb_spec e x) as [->|_]; [contradiction|reflexivity].
Qed.

Lemma existsb_In (e : string) l : existsb (String.eqb e) l = true <-> In e l.
Proof.
  rewrite existsb_exists. split.
  - intros (x & Hx & E). apply String.eqb_eq in E. now subst.
  - intros H. exists e. split; [exact H|apply String.eqb_refl].
Qed.

Lemma existsb_not_In (e : string) l : existsb (String.eqb e) l = false <-> ~ In e l.
Proof.
  rewrite <- existsb_In. destruct (existsb (String.eqb e) l); split;
    congruence || tauto.
Qed.

(** Deduplicating again, with the leading entries put in front once more,
    changes nothing. *)
Lemma dedupe_again a b :
  dedupe [] (a ++ dedupe [] (a ++ b)) = dedupe [] (a ++ b).
Proof.
  rewrite (dedupe_app a b []). rewrite (dedupe_app a _ []).
  f_equal. rewrite dedupe_app.
  rewrite dedupe_all_seen.
  - cbn [app]. destruct (dedupe_spec b (rev a ++ [])) as [N M].
    rewrite (dedupe_seen_ext _ (rev (dedupe [] a) ++ rev a ++ []) (rev a ++ [])).
    + apply dedupe_fresh; [exact N|]. intros e He. now apply M in He.
    + intros e. rewrite !existsb_app.
      destruct (existsb (String.eqb e) (rev (dedupe [] a))) eqn:E; [|reflexivity].
      apply existsb_In in E. apply in_rev in E.
      apply (proj2 (dedupe_spec a [])) in E as [E _].
      apply in_rev in E. apply existsb_In in E. rewrite E. reflexivity.
  - intros e He. apply (proj2 (dedupe_spec a [])) in He as [He _].
    rewrite existsb_app. apply in_rev in He. apply existsb_In in He.
    now rewrite He.
Qed.

Lemma split_on_clean d s :
  Forall (fun x => all_chars (fun c => negb (Ascii.eqb c d)) x = true)
         (split_on d s).
Proof.
  induction s as [|c r IH]; cbn [split_on].
  - repeat constructor.
  - destruct (Ascii.eqb c d) eqn:E.
    + constructor; [reflexivity|exact IH].
    + destruct (split_on d r) as [|l ls].
      * repeat constructor. simpl. now rewrite E.
      * inversion IH; subst. constructor; [|assumption].
        simpl. rewrite E. assumption.
Qed.

Lemma split_on_single d s :
  all_chars (fun c => negb (Ascii.eqb c d)) s = true -> split_on d s = [s].
Proof.
  induction s as [|c r IH]; [reflexivity|]. simpl.
  intros [Hc Hr]%andb_prop. apply negb_true_iff in Hc.
  now rewrite Hc, (IH Hr).
Qed.

Lemma split_on_cons d x rest :
  all_chars (fun c => negb (Ascii.eqb c d)) x = true ->
  split_on d (x ++ String d rest) = x :: split_on d rest.
Proof.
  induction x as [|c r IH]; simpl.
  - intros _. now rewrite Ascii.eqb_refl.
  - intros [Hc Hr]%andb_prop. apply negb_true_iff in Hc.
    now rewrite Hc, (IH Hr).
Qed.

Lemma split_on_join d : forall l,
  l <> [] ->
  Forall (fun x => all_chars (fun c => negb (Ascii.eqb c d)) x = true) l ->
  split_on d (join (String d EmptyString) l) = l.
Proof.
  induction l as [|x l IH]; [congruence|]. intros _ H.
  inversion H as [|? ? Hx Hl]; subst.
  destruct l as [|y l].
  - cbn [join]. now apply split_on_single.
  - change (join (String d EmptyString) (x :: y :: l))
      with (x ++ String d (join (String d EmptyString) (y :: l))).
    rewrite split_on_cons by exact Hx. f_equal. apply IH; [discriminate|exact Hl].
Qed.

Lemma filter_all {A} (f : A -> bool) l :
  Forall (fun x => f x = true) l -> filter f l = l.
Proof.
  induction 1 as [|x l Hx _ IH]; [reflexivity|]. simpl. now rewrite Hx, IH.
Qed.

Lemma or_else_empty s : or_else s EmptyString = s.
Proof. unfold or_else. now destruct s. Qed.

Lemma deduped_In baseEnv e :
  In e (deduped baseEnv)
  <-> In e (extraPaths baseEnv)
      \/ (truthy e = true /\ In e (split_on delimiter (PATH baseEnv))).
Proof.
  unfold deduped. rewrite (proj2 (dedupe_spec _ [])). cbn [existsb].
  rewrite in_app_iff, filter_In, or_else_empty. tauto.
Qed.

Lemma standard_in_extra baseEnv e :
  In e standardPaths -> In e (extraPaths baseEnv).
Proof.
  intros H. unfold extraPaths. apply filter_In. split; [now right|].
  unfold standardPaths in H. simpl in H.
  repeat (destruct H as [<-|H]; [reflexivity|]). destruct H.
Qed.

Lemma deduped_clean baseEnv :
  all_chars (fun c => negb (Ascii.eqb c delimiter)) (NVM_BIN baseEnv) = true ->
  Forall (fun x => all_chars (fun c => negb (Ascii.eqb c delimiter)) x = true)
         (deduped baseEnv).
Proof.
  intros Hnvm. apply Forall_forall. intros e He.
  apply deduped_In in He as [He|[_ He]].
  - unfold extraPaths in He. apply filter_In in He as [He _].
    unfold standardPaths in He. simpl in He.
    destruct He as [<-|He]; [exact Hnvm|].
    repeat (destruct He as [<-|He]; [reflexivity|]). destruct He.
  - pose proof (split_on_clean delimiter (PATH baseEnv)) as Hc.
    rewrite Forall_forall in Hc. now apply Hc.
Qed.

Lemma deduped_truthy baseEnv :
  Forall (fun x => truthy x = true) (deduped baseEnv).
Proof.
  apply Forall_forall. intros e He. apply deduped_In in He as [He|[He _]].
  - unfold extraPaths in He. now apply filter_In in He.
  - exact He.
Qed.

Lemma deduped_nonempty baseEnv : deduped baseEnv <> [].
Proof.
  intros E. assert (Hin : In "/bin" (deduped baseEnv)).
  { apply deduped_In. left. apply standard_in_extra. simpl. auto. }
  rewrite E in Hin. destruct Hin.
Qed.

(** X23: when [NVM_BIN] holds no colon, the [PATH] string built by
    [buildSpawnEnv], read as [PATH] is read (split at the colons), lists
    every directory once and has no empty entry: the entry of [NVM_BIN]
    and the six standard directories come first, in that order (each
    once), followed by entries of the given [PATH] that are not among
    them.  No non-empty entry of the given [PATH] is lost, and none is
    invented. *)
Theorem X23_spawn_path_entries (baseEnv : BaseEnv) :
  all_chars (fun c => negb (Ascii.eqb c delimiter)) (NVM_BIN baseEnv) = true ->
  let entries := split_on delimiter (PATH (buildSpawnEnv baseEnv)) in
  NoDup entries
  /\ Forall (fun e => truthy e = true) entries
  /\ (forall e, In e entries
                <-> In e (extraPaths baseEnv)
                    \/ (truthy e = true /\ In e (split_on delimiter (PATH baseEnv))))
  /\ (exists others,
        entries = (dedupe [] (extraPaths baseEnv) ++ others)%list
        /\ forall e, In e others -> ~ In e (extraPaths baseEnv))
  /\ (forall e, In e standardPaths -> In e entries).
Proof.
  intros Hnvm entries.
  assert (E : entries = deduped baseEnv).
  { subst entries. cbn [buildSpawnEnv PATH].
    apply split_on_join; [apply deduped_nonempty|now apply deduped_clean]. }
  rewrite E.
  split; [apply dedupe_spec|]. split; [apply deduped_truthy|].
  split; [apply deduped_In|]. split.
  - unfold deduped. rewrite dedupe_app, app_nil_r, or_else_empty.
    eexists. split; [reflexivity|].
    intros e He. apply (proj2 (dedupe_spec _ _)) in He as [_ He].
    apply existsb_not_In in He. intros Hx. apply He. now apply -> in_rev.
  - intros e He. apply deduped_In. left. now apply standard_in_extra.
Qed.

(** X24: [buildSpawnEnv] is idempotent when [NVM_BIN] holds no colon:
    building the environment from an environment it built gives the same
    environment again. *)
Theorem X24_spawn_env_idempotent (baseEnv : BaseEnv) :
  all_chars (fun c => negb (Ascii.eqb c delimiter)) (NVM_BIN baseEnv) = true ->
  buildSpawnEnv (buildSpawnEnv baseEnv) = buildSpawnEnv baseEnv.
Proof.
  intros Hnvm. unfold buildSpawnEnv at 1 3. cbn [NVM_BIN PATH]. f_equal. f_equal.
  unfold deduped at 1.
  assert (Hextra : extraPaths (buildSpawnEnv baseEnv) = extraPaths baseEnv)
    by reflexivity.
  rewrite Hextra. cbn [buildSpawnEnv PATH]. rewrite or_else_empty.
  assert (Hclean : Forall (fun x => all_chars (fun c => negb (Ascii.eqb c delimiter)) x = true)
                     (deduped baseEnv)).
  { apply Forall_forall. intros e He. apply deduped_In in He as [He|[_ He]].
    - unfold extraPaths in He. apply filter_In in He as [He _].
      unfold standardPaths in He. simpl in He.
      destruct He as [<-|He]; [exact Hnvm|].
      repeat (destruct He as [<-|He]; [reflexivity|]). destruct He.
    - pose proof (split_on_clean delimiter (PATH baseEnv)) as Hc.
      rewrite Forall_forall in Hc. now apply Hc. }
  assert (Htruthy : Forall (fun x => truthy x = true) (deduped baseEnv)).
  { apply Forall_forall. intros e He. apply deduped_In in He as [He|[He _]].
    - unfold extraPaths in He. now apply filter_In in He.
    - exact He. }
  assert (Hne : deduped baseEnv <> []).
  { intros E. assert (Hin : In "/bin" (deduped baseEnv)).
    { apply deduped_In. left. apply standard_in_extra. simpl. auto. }
    rewrite E in Hin. destruct Hin. }
  rewrite split_on_join by assumption.
  rewrite filter_all by exact Htruthy.
  unfold deduped. rewrite or_else_empty. apply dedupe_again.
Qed.

End CliEnvFacts.

Section CliEnvWitness.
Import JsString CliConfig CliEnv.

Lemma X24_spawn_env_idempotent_witness :
  buildSpawnEnv (buildSpawnEnv {| NVM_BIN := "/home/u/.nvm/bin";
                                  PATH := "/usr/bin::/opt/tools:/usr/bin" |})
  = buildSpawnEnv {| NVM_BIN := "/home/u/.nvm/bin";
                     PATH := "/usr/bin::/opt/tools:/usr/bin" |}.
Proof.
  apply (X24_spawn_env_idempotent
           {| NVM_BIN := "/home/u/.nvm/bin"; PATH := "/usr/bin::/opt/tools:/usr/bin" |}).
  reflexivity.
Defined.

Lemma X23_spawn_path_entries_witness :
  NoDup (split_on delimiter
           (PATH (buildSpawnEnv {| NVM_BIN := "/home/u/.nvm/bin";
                                   PATH := "/usr/bin::/opt/tools:/usr/bin" |}))).
Proof.
  exact (proj1 (X23_spawn_path_entries
                  {| NVM_BIN := "/home/u/.nvm/bin";
                     PATH := "/usr/bin::/opt/tools:/usr/bin" |} eq_refl)).
Defined.

End CliEnvWitness.

(** * deleteSession *)

Section DeleteSession.
Import JsString Json SessionFiles.
Variable JSON_parse : string -> option json.

Lemma filteredLines_sound sessionId lines :
  hasSession JSON_parse sessionId (filteredLines JSON_parse sessionId lines) = false.
Proof.
  unfold hasSession, filteredLines.
  induction lines as [|l ls IH]; [reflexivity|]. cbn [filter].
  destruct (session_is JSON_parse sessionId l) as [[|]|] eqn:E; cbn [negb].
  - exact IH.
  - cbn [existsb]. now rewrite E, IH.
  - cbn [existsb]. now rewrite E, IH.
Qed.

Lemma filter_filter {A} (f : A -> bool) l : filter f (filter f l) = filter f l.
Proof.
  induction l as [|x l IH]; [reflexivity|]. simpl.
  destruct (f x) eqn:E; simpl; now rewrite ?E, IH.
Qed.

Lemma forallb_filter {A} (f g : A -> bool) l :
  forallb f l = true -> forallb f (filter g l) = true.
Proof.
  induction l as [|x l IH]; [reflexivity|]. simpl.
  intros [Hx Hl]%andb_prop. destruct (g x); simpl; rewrite ?Hx; auto.
Qed.

Lemma forallb_filter_self {A} (f : A -> bool) l : forallb f (filter f l) = true.
Proof.
  induction l as [|x l IH]; [reflexivity|]. simpl.
  destruct (f x) eqn:E; simpl; now rewrite ?E.
Qed.

Lemma join_newline_unlines ls :
  ls <> [] ->
  join (String LF EmptyString) ls ++ String LF EmptyString = unlines ls.
Proof.
  induction ls as [|a ls IH]; [congruence|]. intros _.
  destruct ls as [|b ls]; [reflexivity|].
  change (join (String LF EmptyString) (a :: b :: ls))
    with (a ++ String LF EmptyString ++ join (String LF EmptyString) (b :: ls)).
  rewrite !string_app_assoc, IH by discriminate. reflexivity.
Qed.

Lemma filteredLines_idem sessionId lines :
  filteredLines JSON_parse sessionId (filteredLines JSON_parse sessionId lines)
  = filteredLines JSON_parse sessionId lines.
Proof. apply filter_filter. Qed.

Lemma nonblank_lines_rewritten sessionId lines :
  forallb no_lf lines = true ->
  forallb (fun line => truthy (trim line)) lines = true ->
  nonblank_lines (rewritten JSON_parse sessionId lines)
  = filteredLines JSON_parse sessionId lines.
Proof.
  intros Hlf Hnb. unfold rewritten, nonblank_lines.
  assert (Hk1 : forallb no_lf (filteredLines JSON_parse sessionId lines) = true)
    by (apply forallb_filter, Hlf).
  assert (Hk2 : forallb (fun line => truthy (trim line))
                  (filteredLines JSON_parse sessionId lines) = true)
    by (apply forallb_filter, Hnb).
  destruct (filteredLines JSON_parse sessionId lines) as [|k ks] eqn:E;
    [reflexivity|].
  rewrite join_newline_unlines by discriminate.
  rewrite <- (string_app_nil_r (unlines (k :: ks))).
  rewrite split_lf_unlines by (exact Hk1 || reflexivity).
  rewrite filter_app.
  replace (filter (fun line => truthy (trim line)) [EmptyString])
    with (@nil string) by reflexivity.
  rewrite app_nil_r. apply filter_all.
  apply Forall_forall. intros x Hx.
  rewrite forallb_forall in Hk2. now apply Hk2.
Qed.

Lemma rewritten_clean sessionId content :
  hasSession JSON_parse sessionId
    (nonblank_lines (rewritten JSON_parse sessionId (nonblank_lines content)))
  = false.
Proof.
  rewrite nonblank_lines_rewritten.
  - apply filteredLines_sound.
  - unfold nonblank_lines. apply forallb_filter, split_lf_decompose.
  - unfold nonblank_lines. apply forallb_filter_self.
Qed.

(** X25: the content that [deleteSession] writes back holds, as its
    non-blank lines, exactly the non-blank lines of the old content that
    do not parse to an entry of the session, in their order: lines that
    cannot be parsed and entries of other sessions are kept, blank lines
    are dropped.  No line of the new content belongs to the session, and
    rewriting the new content again gives it back unchanged. *)
Theorem X25_delete_session_rewrite (sessionId content : string) :
  nonblank_lines (rewritten JSON_parse sessionId (nonblank_lines content))
  = filteredLines JSON_parse sessionId (nonblank_lines content)
  /\ hasSession JSON_parse sessionId
       (nonblank_lines (rewritten JSON_parse sessionId (nonblank_lines content)))
     = false
  /\ rewritten JSON_parse sessionId
       (nonblank_lines (rewritten JSON_parse sessionId (nonblank_lines content)))
     = rewritten JSON_parse sessionId (nonblank_lines content).
Proof.
  assert (H : nonblank_lines (rewritten JSON_parse sessionId (nonblank_lines content))
              = filteredLines JSON_parse sessionId (nonblank_lines content)).
  { apply nonblank_lines_rewritten.
    - unfold nonblank_lines. apply forallb_filter, split_lf_decompose.
    - unfold nonblank_lines. apply forallb_filter_self. }
  rewrite H. split; [reflexivity|]. split; [apply filteredLines_sound|].
  unfold rewritten. now rewrite filteredLines_idem.
Qed.

Lemma delete_in_spec sessionId : forall files files',
  delete_in JSON_parse sessionId files = Some files' ->
  exists before file content after,
    files = (before ++ (file, content) :: after)%list
    /\ files' = (before ++ (file, rewritten JSON_parse sessionId
                                    (nonblank_lines content)) :: after)%list
    /\ ends_with ".jsonl" file = true
    /\ hasSession JSON_parse sessionId (nonblank_lines content) = true
    /\ forallb (fun f => negb (ends_with ".jsonl" (fst f)
                               && hasSession JSON_parse sessionId
                                    (nonblank_lines (snd f)))) before = true.
Proof.
  induction files as [|[file content] rest IH]; intros files' H; [discriminate|].
  cbn [delete_in] in H.
  destruct (ends_with ".jsonl" file
            && hasSession JSON_parse sessionId (nonblank_lines content)) eqn:E.
  - injection H as <-. apply andb_prop in E as [E1 E2].
    exists [], file, content, rest. repeat split; assumption.
  - destruct (delete_in JSON_parse sessionId rest) as [rest'|]; [|discriminate].
    injection H as <-.
    destruct (IH rest' eq_refl) as (b & f & c & a & -> & -> & H1 & H2 & H3).
    exists ((file, content) :: b), f, c, a. repeat split; try assumption.
    cbn [forallb fst snd]. now rewrite E, H3.
Qed.

Lemma delete_in_none sessionId : forall files,
  delete_in JSON_parse sessionId files = None <->
  forallb (fun f => negb (ends_with ".jsonl" (fst f)
                          && hasSession JSON_parse sessionId
                               (nonblank_lines (snd f)))) files = true.
Proof.
  induction files as [|[file content] rest IH]; [now split|].
  cbn [delete_in forallb fst snd].
  destruct (ends_with ".jsonl" file
            && hasSession JSON_parse sessionId (nonblank_lines content)).
  - split; discriminate.
  - cbn [negb andb]. rewrite <- IH.
    destruct (delete_in JSON_parse sessionId rest); cbn [option_map]; split;
      intros H; try discriminate H; reflexivity.
Qed.

(** X26: a successful [deleteSession] rewrites exactly one file, the first
    [.jsonl] file of the directory that holds an entry of the session: that
    file no longer holds the session afterwards, and every other file, the
    later ones that hold entries of the session included, is left as it
    was.  The call throws exactly when no [.jsonl] file holds an entry of
    the session. *)
Theorem X26_delete_session_one_file
  (files : list (string * string)) (sessionId : string) :
  (forall files',
     deleteSession JSON_parse files sessionId = Returned files' ->
     exists before file content after,
       files = (before ++ (file, content) :: after)%list
       /\ files' = (before ++ (file, rewritten JSON_parse sessionId
                                       (nonblank_lines content)) :: after)%list
       /\ ends_with ".jsonl" file = true
       /\ hasSession JSON_parse sessionId (nonblank_lines content) = true
       /\ hasSession JSON_parse sessionId
            (nonblank_lines (rewritten JSON_parse sessionId (nonblank_lines content)))
          = false
       /\ forallb (fun f => negb (ends_with ".jsonl" (fst f)
                                  && hasSession JSON_parse sessionId
                                       (nonblank_lines (snd f)))) before = true)
  /\ ((exists message, deleteSession JSON_parse files sessionId = Thrown message)
      <-> forallb (fun f => negb (ends_with ".jsonl" (fst f)
                                  && hasSession JSON_parse sessionId
                                       (nonblank_lines (snd f)))) files = true).
Proof.
  split.
  - intros files' H. unfold deleteSession in H.
    destruct (filter _ files); [discriminate|].
    destruct (delete_in JSON_parse sessionId files) as [fs'|] eqn:E; [|discriminate].
    injection H as <-.
    destruct (delete_in_spec sessionId files fs' E)
      as (b & f & c & a & H1 & H2 & H3 & H4 & H5).
    exists b, f, c, a. repeat split; try assumption.
    apply rewritten_clean.
  - unfold deleteSession. rewrite <- delete_in_none. split.
    + intros [message H].
      destruct (delete_in JSON_parse sessionId files) as [fs'|] eqn:E;
        [|reflexivity].
      destruct (delete_in_spec sessionId files fs' E)
        as (b & f & c & a & -> & _ & H3 & _).
      rewrite filter_app in H. cbn [filter fst] in H. rewrite H3 in H.
      destruct (filter _ b); discriminate H.
    + intros ->. destruct (filter _ files); eexists; reflexivity.
Qed.

End DeleteSession.

Section DeleteSessionWitness.
Import JsString Json SessionFiles.

Lemma X26_delete_session_one_file_witness :
  exists before file content after,
    Samples.session_files = (before ++ (file, content) :: after)%list
    /\ [("notes.txt", "A");
        ("one.jsonl", unlines ["not json"; "B"; "null"]);
        ("two.jsonl", unlines ["A"])]
       = (before ++ (file, rewritten Samples.session_parse "a"
                             (nonblank_lines content)) :: after)%list
    /\ ends_with ".jsonl" file = true
    /\ hasSession Samples.session_parse "a" (nonblank_lines content) = true
    /\ hasSession Samples.session_parse "a"
         (nonblank_lines (rewritten Samples.session_parse "a"
                            (nonblank_lines content)))
       = false
    /\ forallb (fun f => negb (ends_with ".jsonl" (fst f)
                               && hasSession Samples.session_parse "a"
                                    (nonblank_lines (snd f)))) before = true.
Proof.
  apply (proj1 (X26_delete_session_one_file Samples.session_parse
                  Samples.session_files "a")).
  reflexivity.
Defined.

End DeleteSessionWitness.

(** * The directory chosen by extractProjectDirectory *)

Section ProjectDirectoryChoice.
Import JsString Projects ProjectDirectory.

Lemma counts_get_In (m : Counts) k v :
  NoDup (map fst m) -> (get k m = Some v <-> In (k, v) m).
Proof.
  induction m as [|[k' v'] m IH]; intros N; simpl.
  - split; [discriminate|tauto].
  - inversion N as [|? ? Hk Nm]; subst.
    destruct (String.eqb_spec k' k) as [->|Hne].
    + split.
      * intros [= ->]. now left.
      * intros [[= ->]|Hin]; [reflexivity|].
        exfalso. apply Hk. apply (in_map fst) in Hin. exact Hin.
    + rewrite (IH Nm). split; [tauto|].
      intros [[= -> ->]|Hin]; [congruence|exact Hin].
Qed.

Lemma counts_set_keys (m : Counts) k n k' :
  In k' (map fst (set k n m)) <-> k' = k \/ In k' (map fst m).
Proof.
  induction m as [|[a b] m IH]; simpl.
  - split; intros [H|[]]; left; congruence.
  - destruct (String.eqb_spec a k) as [->|Hne]; simpl.
    + intuition congruence.
    + rewrite IH. tauto.
Qed.

Lemma counts_set_NoDup (m : Counts) k n :
  NoDup (map fst m) -> NoDup (map fst (set k n m)).
Proof.
  induction m as [|[a b] m IH]; intros N; simpl.
  - constructor; [intros []|constructor].
  - inversion N as [|? ? Ha Nm]; subst.
    destruct (String.eqb_spec a k) as [->|Hne]; simpl.
    + constructor; assumption.
    + constructor; [|now apply IH].
      rewrite counts_set_keys. intros [->|H]; [congruence|contradiction].
Qed.

Lemma counts_set_In (m : Counts) k n k' v' :
  NoDup (map fst m) ->
  (In (k', v') (set k n m)
   <-> (k' = k /\ v' = n) \/ (k' <> k /\ In (k', v') m)).
Proof.
  induction m as [|[a b] m IH]; intros N; simpl.
  - split.
    + intros [[= -> ->]|[]]. now left.
    + intros [[-> ->]|[_ []]]. now left.
  - inversion N as [|? ? Ha Nm]; subst.
    destruct (String.eqb_spec a k) as [->|Hne]; simpl.
    + split.
      * intros [[= <- <-]|Hin]; [now left|].
        right. split; [|now right]. intros ->.
        apply Ha. apply (in_map fst) in Hin. exact Hin.
      * intros [[-> ->]|[Hk [[= -> ->]|Hin]]]; [now left|congruence|now right].
    + rewrite (IH Nm). split.
      * intros [[= <- <-]|[H|H]]; [right; split; [congruence|now left]|tauto|tauto].
      * intros [H|[Hk [[= -> ->]|Hin]]]; [tauto|now left|tauto].
Qed.

Lemma occurrences_snoc k l e :
  occurrences k (l ++ [e])
  = occurrences k l + (if e_cwd e =? k then 1 else 0).
Proof.
  unfold occurrences. rewrite filter_app, length_app. cbn [filter].
  destruct (e_cwd e =? k); reflexivity.
Qed.

Lemma scan_snoc l e : scan (l ++ [e]) = scan_entry (scan l) e.
Proof. unfold scan. now rewrite fold_left_app. Qed.

Lemma scan_invariant : forall l,
  NoDup (map fst (cwdCounts (scan l)))
  /\ (forall k v, In (k, v) (cwdCounts (scan l))
                  <-> truthy k = true /\ v = occurrences k l /\ 1 <= v)
  /\ (forall c, latestCwd (scan l) = Some c ->
                truthy c = true /\ 1 <= occurrences c l).
Proof.
  induction l as [|e l (N & M & L)] using rev_ind.
  - split; [constructor|]. split.
    + intros k v. simpl. split; [tauto|]. intros (_ & -> & H).
      unfold occurrences in H. simpl in H. lia.
    + intros c H. discriminate H.
  - rewrite scan_snoc. unfold scan_entry.
    destruct (truthy (e_cwd e)) eqn:Te.
    + assert (Hc : count_or_zero (e_cwd e) (cwdCounts (scan l))
                   = occurrences (e_cwd e) l).
      { unfold count_or_zero.
        destruct (get (e_cwd e) (cwdCounts (scan l))) as [n|] eqn:G.
        - apply counts_get_In in G; [|exact N]. now apply M in G.
        - destruct (occurrences (e_cwd e) l) as [|n] eqn:O; [reflexivity|].
          assert (Hin : In (e_cwd e, S n) (cwdCounts (scan l)))
            by (apply M; repeat split; [exact Te|now rewrite O|lia]).
          apply counts_get_In in Hin; [congruence|exact N]. }
      assert (Hcounts :
        NoDup (map fst (set (e_cwd e) (occurrences (e_cwd e) l + 1)
                          (cwdCounts (scan l))))
        /\ (forall k v,
              In (k, v) (set (e_cwd e) (occurrences (e_cwd e) l + 1)
                           (cwdCounts (scan l)))
              <-> truthy k = true /\ v = occurrences k (l ++ [e]) /\ 1 <= v)).
      { split; [now apply counts_set_NoDup|].
        intros k v. rewrite counts_set_In by exact N.
        rewrite occurrences_snoc, M.
        destruct (String.eqb_spec (e_cwd e) k) as [<-|Hne].
        - split.
          + intros [[_ ->]|[Hk _]]; [|congruence]. repeat split; [exact Te|lia].
          + intros (_ & -> & _). now left.
        - split.
          + intros [[-> _]|[_ (H1 & -> & H3)]]; [congruence|].
            repeat split; [exact H1|lia|exact H3].
          + intros (H1 & -> & H3). right. split; [congruence|].
            repeat split; [exact H1|lia|lia]. }
      assert (Hlatest : forall c,
                latestCwd (scan l) = Some c ->
                truthy c = true /\ 1 <= occurrences c (l ++ [e])).
      { intros c H. destruct (L c H) as [H1 H2]. split; [exact H1|].
        rewrite occurrences_snoc. lia. }
      assert (Hnew : truthy (e_cwd e) = true
                     /\ 1 <= occurrences (e_cwd e) (l ++ [e])).
      { split; [exact Te|]. rewrite occurrences_snoc, String.eqb_refl. lia. }
      rewrite Hc.
      destruct (e_time e) as [ts|]; [destruct (latestTimestamp (scan l) <? ts)%Z|];
        cbn [cwdCounts latestCwd]; (split; [apply Hcounts|]);
        (split; [apply Hcounts|]); try exact Hlatest.
      intros c [= <-]. exact Hnew.
    + split; [exact N|]. split.
      * intros k v. rewrite M, occurrences_snoc.
        destruct (String.eqb_spec (e_cwd e) k) as [<-|Hne].
        -- rewrite Te. split; intros (H & _); discriminate H.
        -- now rewrite Nat.add_0_r.
      * intros c H. destruct (L c H) as [H1 H2]. split; [exact H1|].
        rewrite occurrences_snoc. lia.
Qed.

Lemma maxCount_bound (m : Counts) k v : In (k, v) m -> v <= maxCount m.
Proof.
  induction m as [|[a b] m IH]; [intros []|].
  assert (E : maxCount ((a, b) :: m) = Nat.max b (maxCount m)) by reflexivity.
  rewrite E. intros [[= -> ->]|H].
  - apply Nat.le_max_l.
  - etransitivity; [apply IH, H|apply Nat.le_max_r].
Qed.

Lemma first_with_max (m : Counts) :
  m <> [] -> exists k, first_with (maxCount m) m = Some k /\ In (k, maxCount m) m.
Proof.
  assert (G : forall n (m : Counts),
            (exists k, In (k, n) m) ->
            exists k, first_with n m = Some k /\ In (k, n) m).
  { intros n. induction m0 as [|[a b] m0 IH]; intros (k & Hin); [destruct Hin|].
    cbn [first_with]. destruct (Nat.eqb_spec b n) as [->|Hne].
    - exists a. split; [reflexivity|now left].
    - destruct Hin as [[= -> ->]|Hin]; [congruence|].
      destruct (IH (ex_intro _ k Hin)) as (k' & H1 & H2).
      exists k'. split; [exact H1|now right]. }
  intros Hne. apply G.
  induction m as [|[a b] m IH]; [congruence|].
  assert (E : maxCount ((a, b) :: m) = Nat.max b (maxCount m)) by reflexivity.
  rewrite E. clear E.
  destruct m as [|p m'].
  - exists a. left. cbn. now rewrite Nat.max_0_r.
  - destruct (IH ltac:(discriminate)) as (k & Hk).
    destruct (Nat.max_spec b (maxCount (p :: m'))) as [[_ ->]|[_ ->]].
    + exists k. now right.
    + exists a. now left.
Qed.

(** X27: when some entry of the session files carries a working directory,
    [extractProjectDirectory] returns, cleaned, the directory of one of the
    entries, and never an unrepresentative one: no directory occurs more
    than four times as often as the chosen one.  The directory of the
    latest entry is the one chosen whenever its count is at least a quarter
    of every other count. *)
Theorem X27_project_directory_choice
  (existsSync : string -> bool) (projectName : string) (jsonlFiles : nat)
  (entries : list Entry) :
  jsonlFiles <> 0 ->
  (exists e, In e entries /\ truthy (e_cwd e) = true) ->
  exists cwd,
    extractProjectDirectory existsSync projectName jsonlFiles entries
    = trim (strip_non_printable cwd)
    /\ truthy cwd = true
    /\ 1 <= occurrences cwd entries
    /\ (forall other, truthy other = true ->
                      occurrences other entries <= 4 * occurrences cwd entries)
    /\ (forall latest,
          latestCwd (scan entries) = Some latest ->
          (forall other, truthy other = true ->
                         occurrences other entries <= 4 * occurrences latest entries) ->
          cwd = latest).
Proof.
  intros Hfiles (e0 & He0 & Te0).
  destruct (scan_invariant entries) as (N & M & L).
  unfold extractProjectDirectory. destruct jsonlFiles as [|j]; [congruence|].
  assert (Hocc : forall other, truthy other = true ->
                   occurrences other entries <= maxCount (cwdCounts (scan entries))).
  { intros other Ho. destruct (occurrences other entries) as [|n] eqn:O; [lia|].
    apply (maxCount_bound _ other). apply M. repeat split; [exact Ho|congruence|lia]. }
  assert (Hne : cwdCounts (scan entries) <> []).
  { intros E.
    assert (Hin : In (e_cwd e0, occurrences (e_cwd e0) entries) (cwdCounts (scan entries))).
    { apply M. repeat split; [exact Te0|].
      unfold occurrences. 
      assert (Hf : In e0 (filter (fun e => e_cwd e =? e_cwd e0) entries))
        by (apply filter_In; split; [exact He0|apply String.eqb_refl]).
      destruct (filter _ entries); [destruct Hf|simpl; lia]. }
    rewrite E in Hin. destruct Hin. }
  destruct (first_with_max _ Hne) as (kmax & Hfirst & Hkmax).
  apply M in Hkmax as (Tk & Ek & Pk).
  unfold bestCwd.
  destruct (cwdCounts (scan entries)) as [|[c v] rest] eqn:Em; [congruence|].
  destruct rest as [|p rest].
  - assert (Hc : truthy c = true /\ v = occurrences c entries /\ 1 <= v)
      by (apply M; now left).
    destruct Hc as (Tc & -> & Pc).
    assert (Hsingle : forall other, truthy other = true ->
                        1 <= occurrences other entries -> other = c).
    { intros other To Po.
      assert (Hin : In (other, occurrences other entries)
                       [(c, occurrences c entries)])
        by (apply M; repeat split; assumption).
      destruct Hin as [[= ->]|[]]. reflexivity. }
    exists c. repeat split; try assumption.
    + intros other To. destruct (occurrences other entries) as [|n] eqn:O; [lia|].
      rewrite <- O. rewrite (Hsingle other To) by lia. lia.
    + intros latest Hl _. destruct (L latest Hl) as [Tl Pl].
      symmetry. now apply Hsingle.
  - set (m := (c, v) :: p :: rest) in *.
    destruct (maxCount m <=? 4 * match latestCwd (scan entries) with
                                 | Some c0 => count_or_zero c0 m
                                 | None => 0
                                 end)%nat eqn:Cond.
    + apply Nat.leb_le in Cond.
      destruct (latestCwd (scan entries)) as [l|] eqn:El; [|lia].
      destruct (L l eq_refl) as [Tl Pl].
      assert (Hl : count_or_zero l m = occurrences l entries).
      { unfold count_or_zero.
        assert (Hin : In (l, occurrences l entries) m)
          by (apply M; repeat split; assumption).
        apply counts_get_In in Hin; [|exact N]. now rewrite Hin. }
      rewrite Hl in Cond. rewrite Tl.
      exists l. repeat split; try assumption.
      * intros other To. specialize (Hocc other To). lia.
      * intros latest [= <-] _. reflexivity.
    + apply Nat.leb_gt in Cond. rewrite Hfirst, Tk.
      exists kmax. repeat split; try assumption.
      * lia.
      * intros other To. specialize (Hocc other To). lia.
      * intros latest Hl Hq. exfalso.
        rewrite Hl in Cond.
        destruct (L latest Hl) as [Tl Pl].
        assert (Hcount : count_or_zero latest m = occurrences latest entries).
        { unfold count_or_zero.
          assert (Hin : In (latest, occurrences latest entries) m)
            by (apply M; repeat split; assumption).
          apply counts_get_In in Hin; [|exact N]. now rewrite Hin. }
        rewrite Hcount in Cond. specialize (Hq kmax Tk). lia.
Qed.

End ProjectDirectoryChoice.

Section ProjectDirectoryWitness.
Import JsString Projects ProjectDirectory.

Lemma X27_project_directory_choice_witness :
  exists cwd,
    extractProjectDirectory (fun _ => false) "LXNydi1h" 1 Samples.cwd_entries
    = trim (strip_non_printable cwd)
    /\ truthy cwd = true
    /\ 1 <= occurrences cwd Samples.cwd_entries
    /\ (forall other, truthy other = true ->
                      occurrences other Samples.cwd_entries
                      <= 4 * occurrences cwd Samples.cwd_entries)
    /\ (forall latest,
          latestCwd (scan Samples.cwd_entries) = Some latest ->
          (forall other, truthy other = true ->
                         occurrences other Samples.cwd_entries
                         <= 4 * occurrences latest Samples.cwd_entries) ->
          cwd = latest).
Proof.
  apply (X27_project_directory_choice (fun _ => false) "LXNydi1h" 1
           Samples.cwd_entries).
  - discriminate.
  - exists (Build_Entry "/srv/a" (Some 10%Z)). split; [left|]; reflexivity.
Defined.

End ProjectDirectoryWitness.

(** * The project configuration *)

Section ProjectConfigFacts.
Import JsString Json Base64 Projects ProjectConfig.

Lemma lookup_assign_same name value config :
  lookup name (assign name value config) = Some value.
Proof.
  induction config as [|[k v] rest IH]; simpl.
  - now rewrite String.eqb_refl.
  - destruct (k =? name) eqn:E; simpl; now rewrite E.
Qed.

Lemma lookup_assign_other name value config other :
  other <> name ->
  lookup other (assign name value config) = lookup other config.
Proof.
  intros Hne. induction config as [|[k v] rest IH]; simpl.
  - destruct (String.eqb_spec name other); [congruence|reflexivity].
  - destruct (String.eqb_spec k name) as [->|Hk]; simpl.
    + destruct (String.eqb_spec name other); [congruence|reflexivity].
    + destruct (k =? other); [reflexivity|exact IH].
Qed.

Lemma lookup_remove_same name config : lookup name (remove name config) = None.
Proof.
  induction config as [|[k v] rest IH]; simpl; [reflexivity|].
  destruct (k =? name) eqn:E; simpl; [exact IH|now rewrite E].
Qed.

Lemma lookup_remove_other name config other :
  other <> name -> lookup other (remove name config) = lookup other config.
Proof.
  intros Hne. induction config as [|[k v] rest IH]; simpl; [reflexivity|].
  destruct (String.eqb_spec k name) as [->|Hk]; simpl.
  - destruct (String.eqb_spec name other); [congruence|exact IH].
  - destruct (k =? other); [reflexivity|exact IH].
Qed.

Lemma encodeProjectPathToName_inj p q :
  encodeProjectPathToName p = encodeProjectPathToName q -> p = q.
Proof.
  unfold encodeProjectPathToName. intros H.
  rewrite <- (from_base64_toString p), <- (from_base64_toString q).
  now rewrite H.
Qed.

(** X28: a project is added manually at most once.  When
    [addProjectManually] succeeds, the configuration it saves records the
    project under the encoded path, flagged as manually added, with the
    path itself; the entry of no other path is touched; and as long as
    that configuration is the one loaded, adding the same path again is
    refused, whatever the file system answers the second time. *)
Theorem X28_add_project_once
  (env : AddEnv) (config config' : Config) (absolutePath displayName : string)
  (project : Project) :
  addProjectManually env config absolutePath displayName = Added config' project ->
  name project = encodeProjectPathToName absolutePath
  /\ path project = absolutePath
  /\ truthy (ProjectConfig.displayName project) = truthy displayName || truthy (generatedName env)
  /\ (exists entry,
        lookup (encodeProjectPathToName absolutePath) config' = Some entry
        /\ prop entry "manuallyAdded" = Some (JBool true)
        /\ prop entry "originalPath" = Some (JStr absolutePath)
        /\ prop entry "displayName"
           = if truthy displayName then Some (JStr displayName) else None)
  /\ (forall other,
        other <> absolutePath ->
        lookup (encodeProjectPathToName other) config'
        = lookup (encodeProjectPathToName other) config)
  /\ (forall env2 displayName2,
        exists message,
          addProjectManually env2 config' absolutePath displayName2
          = Failed message).
Proof.
  unfold addProjectManually. intros H.
  destruct (match path_access env with
            | Accessible => None
            | Missing => _
            | Denied message => _
            end); [discriminate|].
  destruct (dir_access env); try discriminate.
  destruct (truthy_value (lookup (encodeProjectPathToName absolutePath) config));
    [discriminate|].
  destruct (save_error env); [discriminate|].
  injection H as <- <-. cbn [name path ProjectConfig.displayName].
  split; [reflexivity|]. split; [reflexivity|]. split.
  { unfold or_else. destruct displayName; reflexivity. }
  split.
  { eexists. split; [apply lookup_assign_same|].
    destruct (truthy displayName); repeat split; reflexivity. }
  split.
  { intros other Hne. apply lookup_assign_other.
    intros E. apply Hne. now apply encodeProjectPathToName_inj. }
  intros env2 displayName2.
  destruct (match path_access env2 with
            | Accessible => None
            | Missing => _
            | Denied message => _
            end); [eexists; reflexivity|].
  destruct (dir_access env2); try (eexists; reflexivity).
  rewrite lookup_assign_same. cbn [truthy_value truthy_json].
  eexists; reflexivity.
Qed.

(** X29: [renameProject] with a name that is not blank replaces the whole
    entry of the project by one that holds the trimmed name and nothing
    else, so the [manuallyAdded] flag and the [originalPath] of a manually
    added project are lost; with a blank name it removes the entry;
    either way the entries of the other projects are kept. *)
Theorem X29_rename_replaces_entry
  (config : Config) (projectName newDisplayName : string) :
  lookup projectName (renameProject config projectName newDisplayName)
  = (if truthy (trim newDisplayName)
     then Some (JObj [("displayName", JStr (trim newDisplayName))])
     else None)
  /\ opt_prop (lookup projectName (renameProject config projectName newDisplayName))
              "manuallyAdded" = None
  /\ opt_prop (lookup projectName (renameProject config projectName newDisplayName))
              "originalPath" = None
  /\ (forall other,
        other <> projectName ->
        lookup other (renameProject config projectName newDisplayName)
        = lookup other config).
Proof.
  unfold renameProject.
  assert (Hblank : negb (truthy newDisplayName) || (trim newDisplayName =? EmptyString)
                   = negb (truthy (trim newDisplayName))).
  { destruct newDisplayName as [|c r]; [reflexivity|]. cbn [truthy negb orb].
    destruct (trim (String c r)); reflexivity. }
  rewrite Hblank. destruct (truthy (trim newDisplayName)); cbn [negb].
  - rewrite lookup_assign_same. repeat split; try reflexivity.
    intros other Hne. now apply lookup_assign_other.
  - rewrite lookup_remove_same. repeat split; try reflexivity.
    intros other Hne. now apply lookup_remove_other.
Qed.

End ProjectConfigFacts.

Section ProjectConfigWitness.
Import JsString Json Base64 Projects ProjectConfig.

Lemma X28_add_project_once_witness :
  exists message,
    addProjectManually Samples.add_env
      (assign (encodeProjectPathToName "/srv/app")
         (JObj [("manuallyAdded", JBool true); ("originalPath", JStr "/srv/app")])
         [])
      "/srv/app" "again"
    = Failed message.
Proof.
  exact (proj2 (proj2 (proj2 (proj2 (proj2
           (X28_add_project_once Samples.add_env [] _ "/srv/app" EmptyString _
              eq_refl)))))
           Samples.add_env "again").
Defined.

End ProjectConfigWitness.

(** * getSessions *)

Section SessionPages.
Import JsString SessionList.
Variable Session : Type.
Variable id : Session -> string.
Variable sort : list Session -> list Session.

Lemma has_spec (all : list Session) s :
  has id all s = true <-> In (id s) (map id all).
Proof.
  unfold has. rewrite existsb_exists, in_map_iff. split.
  - intros (x & Hx & E). apply String.eqb_eq in E. now exists x.
  - intros (x & E & Hx). exists x. split; [exact Hx|now apply String.eqb_eq].
Qed.

Lemma merge_spec : forall batch all,
  NoDup (map id all) ->
  NoDup (map id (merge id all batch))
  /\ (exists added, merge id all batch = (all ++ added)%list
                     /\ forall s, In s added -> In s batch)
  /\ (forall s, In s batch -> In (id s) (map id (merge id all batch))).
Proof.
  induction batch as [|x rest IH]; intros all N.
  - split; [exact N|]. split; [exists []; split; [now rewrite app_nil_r|intros _ []]|].
    intros s [].
  - cbn [merge fold_left].
    change (fold_left _ rest ?a) with (merge id a rest).
    destruct (has id all x) eqn:Hx.
    + destruct (IH all N) as (N' & (added & E & Hadd) & Hids).
      split; [exact N'|]. split.
      * exists added. split; [exact E|]. intros s Hs. right. now apply Hadd.
      * intros s [<-|Hs]; [|now apply Hids].
        apply has_spec in Hx. rewrite E, map_app, in_app_iff. now left.
    + assert (Nx : NoDup (map id (all ++ [x]))).
      { rewrite map_app. cbn [map].
        apply NoDup_app; [exact N|repeat constructor; intros []|].
        intros a Ha [<-|[]]. apply has_spec in Ha. congruence. }
      destruct (IH (all ++ [x])%list Nx) as (N' & (added & E & Hadd) & Hids).
      split; [exact N'|]. split.
      * exists (x :: added). split; [now rewrite E, <- app_assoc|].
        intros s [<-|Hs]; [now left|right; now apply Hadd].
      * intros s [<-|Hs]; [|now apply Hids].
        rewrite E, !map_app, !in_app_iff. left. right. now left.
Qed.

Lemma merge_keeps : forall batch all x,
  In x all -> In x (merge id all batch).
Proof.
  induction batch as [|y batch IH]; intros all x Hx; [exact Hx|].
  cbn [merge fold_left].
  change (fold_left _ batch ?a) with (merge id a batch).
  destruct (has id all y); apply IH; [exact Hx|].
  apply in_app_iff. now left.
Qed.

Lemma collect_keeps limit offset fileCount : forall files processedCount all x,
  In x all -> In x (collect id limit offset fileCount files processedCount all).
Proof.
  induction files as [|batch rest IH]; intros n all x Hx; [exact Hx|].
  cbn [collect].
  destruct ((_ <=? _) && (_ <=? _))%nat.
  - now apply merge_keeps.
  - apply IH. now apply merge_keeps.
Qed.

Lemma collect_spec limit offset fileCount : forall files processedCount all,
  NoDup (map id all) ->
  NoDup (map id (collect id limit offset fileCount files processedCount all))
  /\ (forall s, In s (collect id limit offset fileCount files processedCount all) ->
                In s all \/ exists file, In file files /\ In s file)
  /\ List.length all
     <= List.length (collect id limit offset fileCount files processedCount all)
  /\ (List.length (collect id limit offset fileCount files processedCount all)
      < (limit + offset) * 2 ->
      forall file s, In file files -> In s file ->
        In (id s)
           (map id (collect id limit offset fileCount files processedCount all))).
Proof.
  induction files as [|batch rest IH]; intros processedCount all N.
  - cbn [collect]. split; [exact N|]. split; [now left|]. split; [lia|].
    intros _ file s [].
  - cbn [collect].
    destruct (merge_spec batch all N) as (Nm & (added & Em & Hadd) & Hids).
    assert (Hlen : List.length all <= List.length (merge id all batch))
      by (rewrite Em, length_app; lia).
    assert (Hfrom : forall s, In s (merge id all batch) ->
                      In s all \/ exists file, In file (batch :: rest) /\ In s file).
    { intros s Hs. rewrite Em in Hs. apply in_app_iff in Hs as [Hs|Hs]; [now left|].
      right. exists batch. split; [now left|now apply Hadd]. }
    destruct (((limit + offset) * 2 <=? List.length (merge id all batch))
              && (Nat.min 3 fileCount <=? S processedCount))%nat eqn:Exit.
    + split; [exact Nm|]. split; [exact Hfrom|]. split; [exact Hlen|].
      intros Hsmall. apply andb_prop in Exit as [Exit _].
      apply Nat.leb_le in Exit. lia.
    + destruct (IH (S processedCount) (merge id all batch) Nm)
        as (Nc & Hin & Hl & Hcomplete).
      split; [exact Nc|]. split.
      * intros s Hs. destruct (Hin s Hs) as [Hm|(file & Hf & Hsf)].
        -- now apply Hfrom.
        -- right. exists file. split; [now right|exact Hsf].
      * split; [lia|].
        intros Hsmall file s [<-|Hf] Hs.
        -- specialize (Hids s Hs).
           apply in_map_iff in Hids as (x & Ex & Hx).
           assert (Hx' : In x (collect id limit offset fileCount rest
                                 (S processedCount) (merge id all batch)))
             by now apply collect_keeps.
           rewrite <- Ex. now apply in_map.
        -- now apply (Hcomplete Hsmall file s).
Qed.

Hypothesis sort_permutes : forall l, Permutation (sort l) l.

Lemma NoDup_slice {A} (l : list A) limit offset :
  NoDup l -> NoDup (firstn limit (skipn offset l)).
Proof.
  intros N. rewrite <- (firstn_skipn offset l) in N.
  apply NoDup_app_remove_l in N.
  rewrite <- (firstn_skipn limit (skipn offset l)) in N.
  now apply NoDup_app_remove_r in N.
Qed.

Lemma In_slice {A} (l : list A) limit offset x :
  In x (firstn limit (skipn offset l)) -> In x l.
Proof.
  intros H. rewrite <- (firstn_skipn offset l). apply in_app_iff. right.
  rewrite <- (firstn_skipn limit (skipn offset l)). apply in_app_iff. now left.
Qed.

(** X30: the page returned by [getSessions] holds [limit] sessions, or
    the sessions that remain after [offset] when they are fewer; its
    sessions have pairwise distinct ids and each comes from one of the
    files; [hasMore] tells exactly whether sessions remain after the page,
    and the page is full whenever it is set.  When [total] is below twice
    [limit + offset] no file was skipped: every session id of every file
    is among the sessions counted. *)
Theorem X30_session_page (files : list (list Session)) (limit offset : nat) :
  List.length (sessions (getSessions id sort files limit offset))
  = Nat.min limit (total (getSessions id sort files limit offset) - offset)
  /\ NoDup (map id (sessions (getSessions id sort files limit offset)))
  /\ (forall s, In s (sessions (getSessions id sort files limit offset)) ->
                exists file, In file files /\ In s file)
  /\ (hasMore (getSessions id sort files limit offset) = true
      <-> offset + List.length (sessions (getSessions id sort files limit offset))
          < total (getSessions id sort files limit offset))
  /\ (hasMore (getSessions id sort files limit offset) = true ->
      List.length (sessions (getSessions id sort files limit offset)) = limit)
  /\ (total (getSessions id sort files limit offset) < (limit + offset) * 2 ->
      forall file s, In file files -> In s file ->
        exists s', In s' (sort (collect id limit offset (List.length files)
                                  files 0 []))
                   /\ id s' = id s).
Proof.
  unfold getSessions. destruct files as [|f0 rest].
  - cbn [sessions hasMore total List.length map].
    split; [now rewrite Nat.min_0_r|]. split; [constructor|].
    split; [intros s []|]. split; [split; [discriminate|lia]|].
    split; [discriminate|]. intros _ file s [].
  - set (files := f0 :: rest).
    set (all := collect id limit offset (List.length files) files 0 []).
    cbn [sessions hasMore total].
    destruct (collect_spec limit offset (List.length files) files 0 []
                ltac:(constructor)) as (N & Hin & _ & Hcomplete).
    fold all in N, Hin, Hcomplete.
    pose proof (sort_permutes all) as P.
    assert (Hlen : List.length (sort all) = List.length all)
      by (apply Permutation_length, P).
    assert (Hpage : List.length (firstn limit (skipn offset (sort all)))
                    = Nat.min limit (List.length (sort all) - offset))
      by (rewrite length_firstn, length_skipn; reflexivity).
    split; [exact Hpage|]. split.
    { rewrite <- firstn_map, <- skipn_map. apply NoDup_slice.
      apply (Permutation_NoDup (l := map id all)); [|exact N].
      apply Permutation_map. now apply Permutation_sym. }
    split.
    { intros s Hs. apply In_slice in Hs.
      apply (Permutation_in _ P) in Hs.
      destruct (Hin s Hs) as [[]|H]. exact H. }
    rewrite Hpage.
    split.
    { rewrite Nat.ltb_lt.
      destruct (Nat.min_spec limit (List.length (sort all) - offset))
        as [[H1 ->]|[H1 ->]]; lia. }
    split.
    { rewrite Nat.ltb_lt. intros H.
      destruct (Nat.min_spec limit (List.length (sort all) - offset))
        as [[H1 ->]|[H1 ->]]; lia. }
    intros Hsmall file s Hf Hs. rewrite Hlen in Hsmall.
    specialize (Hcomplete Hsmall file s Hf Hs).
    apply in_map_iff in Hcomplete as (s' & E & Hs').
    exists s'. split; [|exact E].
    apply (Permutation_in _ (Permutation_sym P)). exact Hs'.
Qed.

End SessionPages.

Section SessionPagesWitness.
Import JsString SessionList.

Lemma insert_by_activity_permutes s l :
  Permutation (Samples.insert_by_activity s l) (s :: l).
Proof.
  induction l as [|x l IH]; [apply Permutation_refl|]. simpl.
  destruct (Samples.s_lastActivity x <=? Samples.s_lastActivity s)%Z.
  - apply Permutation_refl.
  - eapply Permutation_trans; [apply perm_skip, IH|apply perm_swap].
Qed.

Lemma sort_by_activity_permutes l : Permutation (Samples.sort_by_activity l) l.
Proof.
  induction l as [|x l IH]; [apply Permutation_refl|]. simpl.
  eapply Permutation_trans; [apply insert_by_activity_permutes|].
  now apply perm_skip.
Qed.

Lemma X30_session_page_witness :
  List.length (sessions (getSessions Samples.s_id Samples.sort_by_activity
                           Samples.session_batches 2 0))
  = Nat.min 2 (total (getSessions Samples.s_id Samples.sort_by_activity
                        Samples.session_batches 2 0) - 0).
Proof.
  exact (proj1 (X30_session_page Samples.SessionInfo Samples.s_id
                  Samples.sort_by_activity sort_by_activity_permutes
                  Samples.session_batches 2 0)).
Defined.

End SessionPagesWitness.
